(** * App de Tareas Industrial: task lifecycle, filters and dashboard metrics

    A shallow embedding of the state-handling code of the React application:
    - [App] (the root component): the task array, [handleTaskSubmit],
      [handleStatusChange], [handleDeleteTask] and the memoised
      [filteredTasks];
    - [Dashboard]: the memoised [stats] and [metrics];
    - [PersonnelManager]: [handleAddPerson] and [handleToggleActive].

    Modelling conventions.
    - A JavaScript string is a [string] (a sequence of one-byte code units);
      [===] on strings is [String.eqb].
    - A [Date] is its millisecond count, a [Z].  [new Date()], [generateId()]
      and [crypto.randomUUID()] read the environment: their results are
      arguments of the handlers that call them.
    - An optional field ([activatedAt?: Date]) is an [option]; [undefined] is
      [None].
    - Array lengths are integers [Z].  The Numbers the dashboard divides,
      multiplies and rounds are IEEE 754 binary64 values ([Number.t]), with
      the operations of the standard library's [SpecFloat].  The estimated
      hours of a task, which the code stores and tests against zero but does
      no arithmetic on, are a rational [Q].
    - [setTasks (prev => f prev)] replaces the task array by [f prev]: handlers
      are functions from the state before to the state after. *)

From Stdlib Require Import List String Ascii Bool ZArith QArith Qpower Qround Qabs.
From Stdlib Require Import Lia Lqa SpecFloat.
From Stdlib Require Import DecimalString Permutation.
Import ListNotations.

Local Open Scope string_scope.
Local Open Scope list_scope.

(** ** Data model *)

Definition Date := Z.
Bind Scope Z_scope with Date.

Inductive Status := pending | active | completed.
Inductive Priority := low | medium | high | urgent.

(** The string each union member is at run time. *)
Definition statusString (s : Status) : string :=
  match s with
  | pending => "pending"
  | active => "active"
  | completed => "completed"
  end.

Definition priorityString (p : Priority) : string :=
  match p with
  | low => "low"
  | medium => "medium"
  | high => "high"
  | urgent => "urgent"
  end.

Definition Status_eqb (a b : Status) : bool :=
  match a, b with
  | pending, pending | active, active | completed, completed => true
  | _, _ => false
  end.

Definition Priority_eqb (a b : Priority) : bool :=
  match a, b with
  | low, low | medium, medium | high, high | urgent, urgent => true
  | _, _ => false
  end.

(** [interface Task] *)
Module Task.
Record t := mk {
  id : string;
  title : string;
  description : string;
  status : Status;
  priority : Priority;
  assignedTo : list string;
  createdAt : Date;
  activatedAt : option Date;
  completedAt : option Date;
  estimatedHours : Q;
  category : string
}.
End Task.

(** [Omit<Task, 'id' | 'createdAt' | 'activatedAt' | 'completedAt'>], the
    argument of [handleTaskSubmit]. *)
Module TaskData.
Record t := mk {
  title : string;
  description : string;
  status : Status;
  priority : Priority;
  assignedTo : list string;
  estimatedHours : Q;
  category : string
}.
End TaskData.

(** [Partial<Task>] as [handleStatusChange] builds it: the key [status] is
    always there; [activatedAt] and [completedAt] are there or not, and a key
    that is there may hold [undefined]. *)
Module Updates.
Record t := mk {
  status : Status;
  activatedAt : option (option Date);
  completedAt : option (option Date)
}.
End Updates.

(** [interface Personnel] (the [avatar] field is never written). *)
Module Personnel.
Record t := mk {
  id : string;
  name : string;
  role : string;
  department : string;
  active : bool
}.
End Personnel.

(** The [newPerson] form state of [PersonnelManager]. *)
Module NewPerson.
Record t := mk {
  name : string;
  role : string;
  department : string;
  active : bool
}.
End NewPerson.

(** ** String built-ins *)

(** [s.includes(sub)] *)
Fixpoint includes (s sub : string) : bool :=
  if String.prefix sub s then true
  else match s with
       | EmptyString => false
       | String _ s' => includes s' sub
       end.

(** A string is truthy when it is not empty. *)
Definition truthy (s : string) : bool :=
  match s with
  | EmptyString => false
  | String _ _ => true
  end.

(** White space and line terminators among the one-byte code units:
    TAB, LF, VT, FF, CR, SP and NBSP. *)
Definition isWhiteSpace (c : ascii) : bool :=
  let n := N_of_ascii c in
  ((9 <=? n) && (n <=? 13) || (n =? 32) || (n =? 160))%N.

Fixpoint trimStart (s : string) : string :=
  match s with
  | EmptyString => EmptyString
  | String c s' => if isWhiteSpace c then trimStart s' else s
  end.

Fixpoint trimEnd (s : string) : string :=
  match s with
  | EmptyString => EmptyString
  | String c s' =>
      match trimEnd s' with
      | EmptyString => if isWhiteSpace c then EmptyString else String c EmptyString
      | r => String c r
      end
  end.

(** [s.trim()] *)
Definition trim (s : string) : string := trimEnd (trimStart s).

(** A lower-casing of the one-byte code units (A-Z and the Latin-1 capitals),
    used where a concrete [toLowerCase] is needed. *)
Definition lowerChar (c : ascii) : ascii :=
  let n := N_of_ascii c in
  if ((65 <=? n) && (n <=? 90)
      || (192 <=? n) && (n <=? 222) && negb (n =? 215))%N
  then ascii_of_N (n + 32) else c.

Fixpoint latin1LowerCase (s : string) : string :=
  match s with
  | EmptyString => EmptyString
  | String c s' => String (lowerChar c) (latin1LowerCase s')
  end.

(** ** The root component *)

Module App.

(** [{ ...task, ...updates }] *)
Definition spreadUpdates (task : Task.t) (updates : Updates.t) : Task.t :=
  {| Task.id := Task.id task;
     Task.title := Task.title task;
     Task.description := Task.description task;
     Task.status := Updates.status updates;
     Task.priority := Task.priority task;
     Task.assignedTo := Task.assignedTo task;
     Task.createdAt := Task.createdAt task;
     Task.activatedAt :=
       match Updates.activatedAt updates with
       | Some v => v
       | None => Task.activatedAt task
       end;
     Task.completedAt :=
       match Updates.completedAt updates with
       | Some v => v
       | None => Task.completedAt task
       end;
     Task.estimatedHours := Task.estimatedHours task;
     Task.category := Task.category task |}.

(** [{ ...task, ...taskData }] *)
Definition spreadTaskData (task : Task.t) (taskData : TaskData.t) : Task.t :=
  {| Task.id := Task.id task;
     Task.title := TaskData.title taskData;
     Task.description := TaskData.description taskData;
     Task.status := TaskData.status taskData;
     Task.priority := TaskData.priority taskData;
     Task.assignedTo := TaskData.assignedTo taskData;
     Task.createdAt := Task.createdAt task;
     Task.activatedAt := Task.activatedAt task;
     Task.completedAt := Task.completedAt task;
     Task.estimatedHours := TaskData.estimatedHours taskData;
     Task.category := TaskData.category taskData |}.

(** [{ ...taskData, id: generateId(), createdAt: new Date() }] *)
Definition newTask (taskData : TaskData.t) (newId : string) (now : Date)
  : Task.t :=
  {| Task.id := newId;
     Task.title := TaskData.title taskData;
     Task.description := TaskData.description taskData;
     Task.status := TaskData.status taskData;
     Task.priority := TaskData.priority taskData;
     Task.assignedTo := TaskData.assignedTo taskData;
     Task.createdAt := now;
     Task.activatedAt := None;
     Task.completedAt := None;
     Task.estimatedHours := TaskData.estimatedHours taskData;
     Task.category := TaskData.category taskData |}.

(** The part of the component state the handlers read and write. *)
Record State := mkState {
  tasks : list Task.t;
  categories : list string;
  showTaskForm : bool;
  editingTask : option Task.t
}.

(** [handleEditTask] *)
Definition handleEditTask (task : Task.t) (st : State) : State :=
  {| tasks := tasks st;
     categories := categories st;
     showTaskForm := true;
     editingTask := Some task |}.

(** [handleTaskSubmit]; [newId] and [now] are what [generateId()] and
    [new Date()] return when the branch that creates a task runs. *)
Definition handleTaskSubmit (taskData : TaskData.t) (newId : string)
    (now : Date) (st : State) : State :=
  let tasks' :=
    match editingTask st with
    | Some editing =>
        map (fun task =>
               if Task.id task =? Task.id editing
               then spreadTaskData task taskData
               else task)
            (tasks st)
    | None => tasks st ++ [newTask taskData newId now]
    end in
  let categories' :=
    if negb (existsb (String.eqb (TaskData.category taskData)) (categories st))
    then categories st ++ [TaskData.category taskData]
    else categories st in
  {| tasks := tasks';
     categories := categories';
     showTaskForm := false;
     editingTask := None |}.

(** The callback [handleStatusChange] maps over the array. *)
Definition statusChange (taskId : string) (newStatus : Status) (now : Date)
    (task : Task.t) : Task.t :=
  if Task.id task =? taskId then
    let updates := Updates.mk newStatus None None in
    let updates :=
      if Status_eqb newStatus active && Status_eqb (Task.status task) pending
      then Updates.mk newStatus (Some (Some now)) None
      else if Status_eqb newStatus completed
      then Updates.mk newStatus None (Some (Some now))
      else if Status_eqb newStatus pending
              && Status_eqb (Task.status task) active
      then Updates.mk newStatus (Some None) None
      else updates in
    spreadUpdates task updates
  else task.

(** [handleStatusChange]; [now] is the clock reading [new Date()]. *)
Definition handleStatusChange (taskId : string) (newStatus : Status)
    (now : Date) (st : State) : State :=
  {| tasks := map (statusChange taskId newStatus now) (tasks st);
     categories := categories st;
     showTaskForm := showTaskForm st;
     editingTask := editingTask st |}.

(** [handleDeleteTask], on the task array. *)
Definition handleDeleteTask (taskId : string) (st : State) : State :=
  {| tasks := filter (fun task => negb (Task.id task =? taskId)) (tasks st);
     categories := categories st;
     showTaskForm := showTaskForm st;
     editingTask := editingTask st |}.

(** The five filter states of the component. *)
Record Filters := mkFilters {
  searchTerm : string;
  statusFilter : string;
  priorityFilter : string;
  categoryFilter : string;
  personnelFilter : string
}.

Section FilteredTasks.

(** [String.prototype.toLowerCase], whatever it does to each string. *)
Variable toLowerCase : string -> string.

(** The callback of [tasks.filter] in [filteredTasks], with its early
    returns in the order of the source. *)
Definition keepTask (f : Filters) (searchLower : string) (task : Task.t)
  : bool :=
  if truthy (searchTerm f)
     && negb (includes (toLowerCase (Task.title task)) searchLower
              || includes (toLowerCase (Task.description task)) searchLower)
  then false
  else if negb (statusFilter f =? "all")
          && negb (statusString (Task.status task) =? statusFilter f)
  then false
  else if negb (priorityFilter f =? "all")
          && negb (priorityString (Task.priority task) =? priorityFilter f)
  then false
  else if negb (categoryFilter f =? "all")
          && negb (Task.category task =? categoryFilter f)
  then false
  else if negb (personnelFilter f =? "all")
  then
    if (personnelFilter f =? "unassigned")
       && (0 <? List.length (Task.assignedTo task))%nat
    then false
    else if negb (personnelFilter f =? "unassigned")
            && negb (existsb (String.eqb (personnelFilter f))
                             (Task.assignedTo task))
    then false
    else true
  else true.

(** [filteredTasks] *)
Definition filteredTasks (tasks : list Task.t) (f : Filters)
  : list Task.t :=
  if (List.length tasks =? 0)%nat then []
  else
    let searchLower := toLowerCase (searchTerm f) in
    filter (keepTask f searchLower) tasks.

End FilteredTasks.

(** *** Seed data (the accents of the Spanish texts are dropped) *)

(** [new Date(2025, 0, d, h, mi)], local time read as UTC. *)
Definition jan2025 (d h mi : Z) : Date :=
  ((((20089 + (d - 1)) * 24 + h) * 60 + mi) * 60000)%Z.

Definition initialTasks : list Task.t :=
  [ {| Task.id := "2";
       Task.title := "Calibracion de Equipos de Medicion";
       Task.description :=
         "Calibracion trimestral de todos los instrumentos de medicion en el area de calidad";
       Task.status := pending;
       Task.priority := medium;
       Task.assignedTo := ["4"; "6"];
       Task.createdAt := jan2025 9 7 0;
       Task.activatedAt := None;
       Task.completedAt := None;
       Task.estimatedHours := 6;
       Task.category := "Calidad" |};
    {| Task.id := "3";
       Task.title := "Mantenimiento Preventivo Compresor Principal";
       Task.description :=
         "Cambio de filtros, revision de presiones y lubricacion del compresor central";
       Task.status := completed;
       Task.priority := urgent;
       Task.assignedTo := ["2"];
       Task.createdAt := jan2025 7 6 0;
       Task.activatedAt := Some (jan2025 7 8 0);
       Task.completedAt := Some (jan2025 7 12 30);
       Task.estimatedHours := 3;
       Task.category := "Mantenimiento" |};
    {| Task.id := "4";
       Task.title := "Capacitacion en Seguridad Industrial";
       Task.description :=
         "Sesion mensual de capacitacion en procedimientos de seguridad para nuevos empleados";
       Task.status := pending;
       Task.priority := medium;
       Task.assignedTo := ["1"];
       Task.createdAt := jan2025 10 14 0;
       Task.activatedAt := None;
       Task.completedAt := None;
       Task.estimatedHours := 2;
       Task.category := "Seguridad" |};
    {| Task.id := "6";
       Task.title := "Revision Sistema Electrico";
       Task.description :=
         "Inspeccion y pruebas del sistema electrico principal de la planta";
       Task.status := completed;
       Task.priority := high;
       Task.assignedTo := ["2"; "5"];
       Task.createdAt := jan2025 5 9 0;
       Task.activatedAt := Some (jan2025 5 10 0);
       Task.completedAt := Some (jan2025 6 2 0);
       Task.estimatedHours := 12;
       Task.category := "Mantenimiento" |};
    {| Task.id := "7";
       Task.title := "Control de Calidad Lote 2025-001";
       Task.description :=
         "Analisis y verificacion del primer lote de produccion del ano";
       Task.status := completed;
       Task.priority := medium;
       Task.assignedTo := ["4"];
       Task.createdAt := jan2025 4 7 0;
       Task.activatedAt := Some (jan2025 4 8 30);
       Task.completedAt := Some (jan2025 4 16 45);
       Task.estimatedHours := 6;
       Task.category := "Calidad" |} ].

Definition initialCategories : list string :=
  ["Mantenimiento"; "Calidad"; "Seguridad"; "Logistica"; "Produccion"].

(** The state [useState] starts the component with. *)
Definition initialState : State :=
  {| tasks := initialTasks;
     categories := initialCategories;
     showTaskForm := false;
     editingTask := None |}.

(** The same component over an empty task array. *)
Definition emptyState : State :=
  {| tasks := [];
     categories := initialCategories;
     showTaskForm := false;
     editingTask := None |}.

(** *** The operations of the store, as the user interface reaches them *)

(** The button that opens the form for a new task: [editingTask] is
    [undefined] there. *)
Definition openNewTaskForm (st : State) : State :=
  {| tasks := tasks st;
     categories := categories st;
     showTaskForm := true;
     editingTask := None |}.

(** createTask: submit of the form opened for a new task. *)
Definition createTask (taskData : TaskData.t) (newId : string) (now : Date)
    (st : State) : State :=
  handleTaskSubmit taskData newId now (openNewTaskForm st).

(** updateTask: submit of the form opened by [handleEditTask] on [editing];
    the branch taken does not read [newId] and [now]. *)
Definition updateTask (editing : Task.t) (taskData : TaskData.t)
    (newId : string) (now : Date) (st : State) : State :=
  handleTaskSubmit taskData newId now (handleEditTask editing st).

(** setStatus *)
Definition setStatus := handleStatusChange.

Inductive Op :=
| CreateTask (taskData : TaskData.t) (newId : string) (now : Date)
| SetStatus (taskId : string) (newStatus : Status) (now : Date).

Definition step (st : State) (op : Op) : State :=
  match op with
  | CreateTask taskData newId now => createTask taskData newId now st
  | SetStatus taskId newStatus now => setStatus taskId newStatus now st
  end.

(** The state after a sequence of operations, oldest first. *)
Definition run (ops : list Op) (st : State) : State := fold_left step ops st.

(** Some task with this id has this status. *)
Definition hasStatus (taskId : string) (s : Status) (st : State) : bool :=
  existsb (fun task => (Task.id task =? taskId)
                       && Status_eqb (Task.status task) s)
          (tasks st).

(** An operation that keeps 'completed' terminal: a task is not created as
    'completed', and a 'completed' task is not set to another status. *)
Definition keepsCompletedTerminal (st : State) (op : Op) : bool :=
  match op with
  | CreateTask taskData _ _ => negb (Status_eqb (TaskData.status taskData) completed)
  | SetStatus taskId newStatus _ =>
      Status_eqb newStatus completed || negb (hasStatus taskId completed st)
  end.

Fixpoint allKeepCompletedTerminal (ops : list Op) (st : State) : bool :=
  match ops with
  | [] => true
  | op :: rest =>
      keepsCompletedTerminal st op && allKeepCompletedTerminal rest (step st op)
  end.

(** A pause: setStatus to 'pending' of a task that is 'active'. *)
Definition isPauseOf (taskId : string) (st : State) (op : Op) : bool :=
  match op with
  | SetStatus taskId' pending _ =>
      (taskId' =? taskId) && hasStatus taskId active st
  | _ => false
  end.

(** Some operation of the run paused the task. *)
Fixpoint pausedIn (taskId : string) (ops : list Op) (st : State) : bool :=
  match ops with
  | [] => false
  | op :: rest => isPauseOf taskId st op || pausedIn taskId rest (step st op)
  end.

(** The lifecycle invariant of the specification, on one task. *)
Definition completedIffCompletedAt (task : Task.t) : Prop :=
  Task.status task = completed <-> Task.completedAt task <> None.

(** A task that is not 'active' and carries an activation time has been
    completed. *)
Definition activatedOutsideActiveWasCompleted (task : Task.t) : Prop :=
  Task.status task <> active ->
  Task.activatedAt task <> None -> Task.completedAt task <> None.

(** *** Histories *)

(** The task at a position of the array; createTask and setStatus keep the
    positions. *)
Definition taskAt (i : nat) (st : State) : option Task.t :=
  nth_error (tasks st) i.

(** In [st] and after every operation of [ops] the task at position [i] is
    'pending' and carries the activation time [a]. *)
Fixpoint staysPendingWith (a : option Date) (i : nat) (ops : list Op)
    (st : State) : Prop :=
  (exists task, taskAt i st = Some task
                /\ Task.status task = pending
                /\ Task.activatedAt task = a)
  /\ match ops with
     | [] => True
     | op :: rest => staysPendingWith a i rest (step st op)
     end.

(** A 'pending' task carries no activation time. *)
Definition pendingHasNoActivatedAt (task : Task.t) : Prop :=
  Task.status task = pending -> Task.activatedAt task = None.

(** [initialPersonnel] (accents dropped) *)
Definition initialPersonnel : list Personnel.t :=
  [ Personnel.mk "1" "Carlos Mendez" "Supervisor" "Produccion" true;
    Personnel.mk "2" "Ana Garcia" "Tecnico" "Mantenimiento" true;
    Personnel.mk "3" "Luis Rodriguez" "Operador" "Produccion" true;
    Personnel.mk "4" "Maria Lopez" "Ingeniera" "Calidad" true;
    Personnel.mk "5" "Pedro Sanchez" "Tecnico" "Mantenimiento" false;
    Personnel.mk "6" "Carmen Vega" "Analista" "Calidad" true ].

(** *** The filter bar *)

(** [activeFiltersCount]: the search term is not counted. *)
Definition activeFiltersCount (f : Filters) : Z :=
  Z.of_nat
    (List.length
       (filter (fun b : bool => b)
               [ negb (statusFilter f =? "all");
                 negb (priorityFilter f =? "all");
                 negb (categoryFilter f =? "all");
                 negb (personnelFilter f =? "all") ])).

(** [clearFilters] sets the five filter states. *)
Definition clearFilters (f : Filters) : Filters :=
  {| searchTerm := "";
     statusFilter := "all";
     priorityFilter := "all";
     categoryFilter := "all";
     personnelFilter := "all" |}.

Section EmptyListHint.

Variable toLowerCase : string -> string.

(** The paragraph rendered under the grid when [filteredTasks] is empty
    (accents dropped); [None] when there is a task to show. *)
Definition emptyListHint (tasks : list Task.t) (f : Filters)
  : option string :=
  if (List.length (filteredTasks toLowerCase tasks f) =? 0)%nat
  then Some (if truthy (searchTerm f) || (0 <? activeFiltersCount f)%Z
             then "Intenta ajustar los filtros de busqueda"
             else "Comienza creando tu primera tarea")
  else None.

End EmptyListHint.

End App.

(** ** The buttons of the task views *)

Module TaskDetail.

Definition canActivate (task : Task.t) : bool :=
  Status_eqb (Task.status task) pending.
Definition canComplete (task : Task.t) : bool :=
  Status_eqb (Task.status task) active.
Definition canPause (task : Task.t) : bool :=
  Status_eqb (Task.status task) active.

(** The status changes the rendered buttons can request for a task. *)
Definition offers (task : Task.t) (newStatus : Status) : bool :=
  match newStatus with
  | active => canActivate task
  | pending => canPause task
  | completed => canComplete task
  end.

(** [xs.filter(Boolean)] on an array of objects and [undefined]. *)
Fixpoint filterBoolean {A : Type} (xs : list (option A)) : list A :=
  match xs with
  | [] => []
  | Some x :: rest => x :: filterBoolean rest
  | None :: rest => filterBoolean rest
  end.

(** [getAssignedPersonnel]; [assignedPersonnel] of the task card has the
    same body. *)
Definition getAssignedPersonnel (task : Task.t)
    (personnel : list Personnel.t) : list Personnel.t :=
  filterBoolean
    (map (fun id => find (fun p => Personnel.id p =? id) personnel)
         (Task.assignedTo task)).

(** An integer in a template literal. *)
Definition showInteger (n : Z) : string := NilZero.string_of_int (Z.to_int n).

(** [Math.floor(duration / (1000 * 60 * 60))] on a whole number of
    milliseconds. *)
Definition durationHours (duration : Z) : Z :=
  (duration / (1000 * 60 * 60))%Z.

(** [Math.floor((duration % (1000 * 60 * 60)) / (1000 * 60))]; [%] takes the
    sign of the dividend. *)
Definition durationMinutes (duration : Z) : Z :=
  (Z.rem duration (1000 * 60 * 60) / (1000 * 60))%Z.

(** [calculateDuration]; [now] is [new Date().getTime()], [None] is [null]. *)
Definition calculateDuration (task : Task.t) (now : Date) : option string :=
  match Task.status task, Task.activatedAt task, Task.completedAt task with
  | completed, Some activatedAt, Some completedAt =>
      let duration := (completedAt - activatedAt)%Z in
      Some (showInteger (durationHours duration) ++ "h "
            ++ showInteger (durationMinutes duration) ++ "m")%string
  | active, Some activatedAt, _ =>
      let duration := (now - activatedAt)%Z in
      Some (showInteger (durationHours duration) ++ "h "
            ++ showInteger (durationMinutes duration) ++ "m (en curso)")%string
  | _, _, _ => None
  end.

(** [s.split(' ')]: the pieces between the spaces, empty ones included. *)
Fixpoint splitOnSpace (s : string) : list string :=
  match s with
  | EmptyString => [EmptyString]
  | String c rest =>
      if (c =? " ")%char then EmptyString :: splitOnSpace rest
      else match splitOnSpace rest with
           | [] => [String c EmptyString]
           | piece :: pieces => String c piece :: pieces
           end
  end.

(** [name.split(' ').map(n => n[0]).join('')]: [join] writes nothing for
    the [undefined] an empty piece gives. *)
Definition initials (name : string) : string :=
  String.concat ""
    (map (fun n => match n with
                   | EmptyString => EmptyString
                   | String c _ => String c EmptyString
                   end)
         (splitOnSpace name)).

End TaskDetail.

(** ** Numbers *)

(** A JavaScript Number is an IEEE 754 binary64 value: 53 bits of precision,
    exponents below 1024.  The operations are those of the standard
    library's specification of binary floating point, rounding to nearest
    with ties to even, as the language prescribes for [+], [*] and [/]. *)
Module Number.

Definition prec : Z := 53.
Definition emax : Z := 1024.

Definition t := spec_float.

(** An integer as a Number; exact up to 2^53, which covers every array
    length. *)
Definition ofZ (n : Z) : t := binary_normalize prec emax n 0 false.

Definition add (x y : t) : t := SFadd prec emax x y.
Definition div (x y : t) : t := SFdiv prec emax x y.
Definition mul (x y : t) : t := SFmul prec emax x y.

(** [x <= y] *)
Definition leb (x y : t) : bool := SFleb x y.

Definition pow2 (e : Z) : Q := (2 ^ e)%Q.

(** The mantissa [m] at the exponent [e], as a rational. *)
Definition value (m : positive) (e : Z) : Q :=
  (inject_Z (Zpos m) * pow2 e)%Q.

(** The rational a finite Number stands for. *)
Definition toQ (x : t) : Q :=
  match x with
  | S754_finite s m e => (inject_Z (cond_Zopp s (Zpos m)) * pow2 e)%Q
  | _ => 0%Q
  end.

(** [Math.round]: the integer floor(x + 1/2), computed without rounding
    error; [-0] for an [x] in [-1/2, 0); zeros, infinities and NaN are
    returned as they are. *)
Definition round (x : t) : t :=
  match x with
  | S754_finite s _ _ =>
      let k := Qfloor (toQ x + (1 # 2))%Q in
      if (k =? 0)%Z && s then S754_zero true else ofZ k
  | _ => x
  end.

(** A positive Number in normal form: a mantissa of exactly 53 bits. *)
Definition isNormal (x : t) (m : positive) (e : Z) : Prop :=
  x = S754_finite false m e /\ (2 ^ 52 <= Zpos m < 2 ^ 53)%Z.

(** The round and sticky bits of a shifted mantissa tell where the dropped
    part [r / D] lies in [0, 1): at 0, below one half, at one half, above. *)
Definition recEncodes (mrs : shr_record) (r D : Z) : Prop :=
  (0 <= r < D)%Z
  /\ match shr_r mrs, shr_s mrs with
     | false, false => r = 0%Z
     | false, true => (0 < 2 * r < D)%Z
     | true, false => (2 * r = D)%Z
     | true, true => (D < 2 * r)%Z
     end.

(** [m] at [e] is a rounding to nearest of the positive rational [X]:
    [X = xi * 2^E] with [xi] in [2^52, 2^53) and an integer [n] within one
    half of [xi]; the result is [n] at [E], or 2^52 at [E + 1] when [n] is
    2^53. *)
Definition roundsTo (X : Q) (m : positive) (e : Z) : Prop :=
  exists (n E : Z) (xi : Q),
    (X == xi * pow2 E)%Q
    /\ (4503599627370496 <= xi < 9007199254740992)%Q
    /\ (xi - (1 # 2) <= inject_Z n <= xi + (1 # 2))%Q
    /\ ((Zpos m = n /\ e = E)
        \/ (n = (2 ^ 53)%Z /\ Zpos m = (2 ^ 52)%Z /\ e = (E + 1)%Z)).

End Number.

(** ** The dashboard *)

Module Dashboard.

Record Stats := mkStats {
  totalTasks : Z;
  pendingTasks : Z;
  activeTasks : Z;
  completedTasks : Z;
  activePersonnel : Z;
  urgentTasks : Z;
  completionRate : Number.t
}.

(** [xs.filter(p).length] *)
Definition countOf {A : Type} (p : A -> bool) (xs : list A) : Z :=
  Z.of_nat (List.length (filter p xs)).

(** The memoised [stats].  The six counts are array lengths, held as
    integers; they enter the arithmetic of Numbers through [Number.ofZ]. *)
Definition stats (tasks : list Task.t) (personnel : list Personnel.t)
  : Stats :=
  let totalTasks := Z.of_nat (List.length tasks) in
  let pendingTasks :=
    countOf (fun t => Status_eqb (Task.status t) pending) tasks in
  let activeTasks :=
    countOf (fun t => Status_eqb (Task.status t) active) tasks in
  let completedTasks :=
    countOf (fun t => Status_eqb (Task.status t) completed) tasks in
  let activePersonnel := countOf Personnel.active personnel in
  let urgentTasks :=
    countOf (fun t => Priority_eqb (Task.priority t) urgent
                      && negb (Status_eqb (Task.status t) completed))
            tasks in
  let completionRate :=
    if (0 <? totalTasks)%Z
    then Number.mul
           (Number.div (Number.ofZ completedTasks) (Number.ofZ totalTasks))
           (Number.ofZ 100)
    else Number.ofZ 0 in
  {| totalTasks := totalTasks;
     pendingTasks := pendingTasks;
     activeTasks := activeTasks;
     completedTasks := completedTasks;
     activePersonnel := activePersonnel;
     urgentTasks := urgentTasks;
     completionRate := completionRate |}.

(** The memoised [metrics]; [avgTime] (a formatted string) and [todayTasks]
    (the calendar day of the clock) are left out. *)
Record Metrics := mkMetrics {
  efficiency : Number.t
}.

Definition metrics (s : Stats) : Metrics :=
  {| efficiency :=
       if (0 <? activeTasks s)%Z
       then Number.round
              (Number.mul
                 (Number.div
                    (Number.ofZ (completedTasks s))
                    (Number.add (Number.ofZ (completedTasks s))
                                (Number.ofZ (activeTasks s))))
                 (Number.ofZ 100))
       else Number.ofZ 100 |}.

(** computeDashboardStats: what the component derives from its two props. *)
Definition computeDashboardStats (tasks : list Task.t)
    (personnel : list Personnel.t) : Stats * Metrics :=
  let s := stats tasks personnel in (s, metrics s).

End Dashboard.

(** ** The personnel manager *)

Module PersonnelManager.

(** The [personnel] prop, which [onPersonnelUpdate] replaces, and the two
    local states of the component. *)
Record State := mkState {
  personnel : list Personnel.t;
  showAddForm : bool;
  newPerson : NewPerson.t
}.

Definition blankPerson : NewPerson.t :=
  {| NewPerson.name := "";
     NewPerson.role := "";
     NewPerson.department := "";
     NewPerson.active := true |}.

(** [{ id: crypto.randomUUID(), ...newPerson }] *)
Definition person (uuid : string) (p : NewPerson.t) : Personnel.t :=
  {| Personnel.id := uuid;
     Personnel.name := NewPerson.name p;
     Personnel.role := NewPerson.role p;
     Personnel.department := NewPerson.department p;
     Personnel.active := NewPerson.active p |}.

(** [handleAddPerson]; [uuid] is what [crypto.randomUUID()] returns. *)
Definition handleAddPerson (uuid : string) (st : State) : State :=
  if negb (truthy (trim (NewPerson.name (newPerson st))))
     || negb (truthy (trim (NewPerson.role (newPerson st))))
     || negb (truthy (trim (NewPerson.department (newPerson st))))
  then st
  else
    {| personnel := personnel st ++ [person uuid (newPerson st)];
       showAddForm := false;
       newPerson := blankPerson |}.

(** [handleToggleActive] *)
Definition handleToggleActive (personId : string) (st : State) : State :=
  {| personnel :=
       map (fun p =>
              if Personnel.id p =? personId
              then {| Personnel.id := Personnel.id p;
                      Personnel.name := Personnel.name p;
                      Personnel.role := Personnel.role p;
                      Personnel.department := Personnel.department p;
                      Personnel.active := negb (Personnel.active p) |}
              else p)
           (personnel st);
     showAddForm := showAddForm st;
     newPerson := newPerson st |}.

(** [[...new Set(xs)]]: the first occurrence of each value, in order;
    [seen] is what the set holds already. *)
Fixpoint setInOrder (seen xs : list string) : list string :=
  match xs with
  | [] => []
  | x :: rest =>
      if existsb (String.eqb x) seen then setInOrder seen rest
      else x :: setInOrder (x :: seen) rest
  end.

(** [departments] *)
Definition departments (personnel : list Personnel.t) : list string :=
  setInOrder [] (map Personnel.department personnel).

(** [activePeople] and [inactivePeople] *)
Definition activePeople (personnel : list Personnel.t) : Z :=
  Z.of_nat (List.length (filter Personnel.active personnel)).

Definition inactivePeople (personnel : list Personnel.t) : Z :=
  Z.of_nat (List.length (filter (fun p => negb (Personnel.active p)) personnel)).

(** [departmentPersonnel], the group rendered under one department. *)
Definition departmentPersonnel (personnel : list Personnel.t)
    (department : string) : list Personnel.t :=
  filter (fun p => Personnel.department p =? department) personnel.

End PersonnelManager.

(** ** The filter of the specification *)

(** The five predicates as the specification words them, to be compared with
    [App.filteredTasks]. *)
Module FilterSpec.

Section Predicates.

Variable toLowerCase : string -> string.

(** Case-insensitive substring match. *)
Definition containsIgnoringCase (text term : string) : bool :=
  includes (toLowerCase text) (toLowerCase term).

Definition matchesSearch (f : App.Filters) (task : Task.t) : bool :=
  if App.searchTerm f =? "" then true
  else containsIgnoringCase (Task.title task) (App.searchTerm f)
       || containsIgnoringCase (Task.description task) (App.searchTerm f).

Definition matchesStatus (f : App.Filters) (task : Task.t) : bool :=
  if App.statusFilter f =? "all" then true
  else statusString (Task.status task) =? App.statusFilter f.

Definition matchesPriority (f : App.Filters) (task : Task.t) : bool :=
  if App.priorityFilter f =? "all" then true
  else priorityString (Task.priority task) =? App.priorityFilter f.

Definition matchesCategory (f : App.Filters) (task : Task.t) : bool :=
  if App.categoryFilter f =? "all" then true
  else Task.category task =? App.categoryFilter f.

Definition matchesPersonnel (f : App.Filters) (task : Task.t) : bool :=
  if App.personnelFilter f =? "all" then true
  else if App.personnelFilter f =? "unassigned"
  then match Task.assignedTo task with
       | [] => true
       | _ :: _ => false
       end
  else if in_dec string_dec (App.personnelFilter f) (Task.assignedTo task)
  then true else false.

(** The conjunction of the five predicates. *)
Definition satisfies (f : App.Filters) (task : Task.t) : bool :=
  matchesSearch f task && matchesStatus f task && matchesPriority f task
  && matchesCategory f task && matchesPersonnel f task.

End Predicates.

(** [l1] is [l2] with some elements left out, the others in their order. *)
Inductive subsequence {A : Type} : list A -> list A -> Prop :=
| subsequence_nil : subsequence [] []
| subsequence_skip x l1 l2 : subsequence l1 l2 -> subsequence l1 (x :: l2)
| subsequence_keep x l1 l2 :
    subsequence l1 l2 -> subsequence (x :: l1) (x :: l2).

End FilterSpec.

(** ** The task form *)

Module TaskForm.

(** [formData], [newCategory] and [showNewCategory]. *)
Record State := mkState {
  formData : TaskData.t;
  newCategory : string;
  showNewCategory : bool
}.

(** The initial [formData]: [task?.field || fallback]; a status, a priority
    and an array are always truthy. *)
Definition init (task : option Task.t) (categories : list string) : State :=
  {| formData :=
       {| TaskData.title :=
            match task with
            | Some t => if truthy (Task.title t) then Task.title t else ""
            | None => ""
            end;
          TaskData.description :=
            match task with
            | Some t =>
                if truthy (Task.description t) then Task.description t else ""
            | None => ""
            end;
          TaskData.status :=
            match task with
            | Some t => Task.status t
            | None => pending
            end;
          TaskData.priority :=
            match task with
            | Some t => Task.priority t
            | None => medium
            end;
          TaskData.assignedTo :=
            match task with
            | Some t => Task.assignedTo t
            | None => []
            end;
          TaskData.estimatedHours :=
            match task with
            | Some t =>
                if Qeq_bool (Task.estimatedHours t) 0 then 1
                else Task.estimatedHours t
            | None => 1
            end;
          TaskData.category :=
            let fallback :=
              match categories with
              | first :: _ => if truthy first then first else ""
              | [] => ""
              end in
            match task with
            | Some t =>
                if truthy (Task.category t) then Task.category t else fallback
            | None => fallback
            end |};
     newCategory := "";
     showNewCategory := false |}.

(** What the controls of the form send; [parsed] is the result of
    [parseFloat], [None] for [NaN]. *)
Inductive Event :=
| SetTitle (value : string)
| SetDescription (value : string)
| SetPriority (value : Priority)
| SetCategory (value : string)
| SetEstimatedHours (parsed : option Q)
| PersonnelToggle (personnelId : string) (checked : bool)
| ToggleNewCategory
| SetNewCategory (value : string).

(** [handlePersonnelToggle], on the array. *)
Definition handlePersonnelToggle (personnelId : string) (checked : bool)
    (assignedTo : list string) : list string :=
  if checked then assignedTo ++ [personnelId]
  else filter (fun id => negb (id =? personnelId)) assignedTo.

Definition withFormData (st : State) (d : TaskData.t) : State :=
  {| formData := d;
     newCategory := newCategory st;
     showNewCategory := showNewCategory st |}.

(** The [onChange] handlers: [{ ...prev, field: value }]. *)
Definition handleEvent (st : State) (ev : Event) : State :=
  let d := formData st in
  match ev with
  | SetTitle value =>
      withFormData st
        (TaskData.mk value (TaskData.description d) (TaskData.status d)
           (TaskData.priority d) (TaskData.assignedTo d)
           (TaskData.estimatedHours d) (TaskData.category d))
  | SetDescription value =>
      withFormData st
        (TaskData.mk (TaskData.title d) value (TaskData.status d)
           (TaskData.priority d) (TaskData.assignedTo d)
           (TaskData.estimatedHours d) (TaskData.category d))
  | SetPriority value =>
      withFormData st
        (TaskData.mk (TaskData.title d) (TaskData.description d)
           (TaskData.status d) value (TaskData.assignedTo d)
           (TaskData.estimatedHours d) (TaskData.category d))
  | SetCategory value =>
      withFormData st
        (TaskData.mk (TaskData.title d) (TaskData.description d)
           (TaskData.status d) (TaskData.priority d) (TaskData.assignedTo d)
           (TaskData.estimatedHours d) value)
  | SetEstimatedHours parsed =>
      withFormData st
        (TaskData.mk (TaskData.title d) (TaskData.description d)
           (TaskData.status d) (TaskData.priority d) (TaskData.assignedTo d)
           match parsed with
           | Some q => if Qeq_bool q 0 then 1 else q
           | None => 1
           end
           (TaskData.category d))
  | PersonnelToggle personnelId checked =>
      withFormData st
        (TaskData.mk (TaskData.title d) (TaskData.description d)
           (TaskData.status d) (TaskData.priority d)
           (handlePersonnelToggle personnelId checked (TaskData.assignedTo d))
           (TaskData.estimatedHours d) (TaskData.category d))
  | ToggleNewCategory =>
      {| formData := d;
         newCategory := newCategory st;
         showNewCategory := negb (showNewCategory st) |}
  | SetNewCategory value =>
      {| formData := d;
         newCategory := value;
         showNewCategory := showNewCategory st |}
  end.

(** [handleSubmit]: what [onSubmit] receives. *)
Definition handleSubmit (st : State) : TaskData.t :=
  let d := formData st in
  let categoryToUse :=
    if showNewCategory st && truthy (trim (newCategory st))
    then trim (newCategory st)
    else TaskData.category d in
  TaskData.mk (TaskData.title d) (TaskData.description d) (TaskData.status d)
    (TaskData.priority d) (TaskData.assignedTo d) (TaskData.estimatedHours d)
    categoryToUse.

(** The form mounted on [task], after the events, submitted.  The browser
    may refuse a submission on its own (the title is [required], the hours
    have a [min] and a [step]); every submission is let through here. *)
Definition submitted (task : option Task.t) (categories : list string)
    (events : list Event) : TaskData.t :=
  handleSubmit (fold_left handleEvent events (init task categories)).

End TaskForm.

(** ** The theme toggle *)

Module ThemeToggle.

(** [isDarkMode], the item 'theme' of [localStorage] ([None] for [null]) and
    whether the document element carries the class 'dark'. *)
Record State := mkState {
  isDarkMode : bool;
  stored : option string;
  darkClass : bool
}.

(** The effect run on mount; [prefersDark] is the media query. *)
Definition mount (prefersDark : bool) (st : State) : State :=
  let shouldBeDark :=
    match stored st with
    | Some theme => theme =? "dark"
    | None => false
    end
    || (match stored st with
        | Some theme => negb (truthy theme)
        | None => true
        end && prefersDark) in
  {| isDarkMode := shouldBeDark;
     stored := stored st;
     darkClass := shouldBeDark |}.

(** [toggleTheme] *)
Definition toggleTheme (st : State) : State :=
  let newTheme := negb (isDarkMode st) in
  if newTheme
  then {| isDarkMode := newTheme; stored := Some "dark"; darkClass := true |}
  else {| isDarkMode := newTheme; stored := Some "light"; darkClass := false |}.

(** A page load: the component state starts at [useState(false)], the
    document has no class yet, the storage is what the last page left. *)
Definition load (prefersDark : bool) (storage : option string) : State :=
  mount prefersDark
        {| isDarkMode := false; stored := storage; darkClass := false |}.

End ThemeToggle.

(** ** The store driven from the rendered views *)

Module Ui.

(** What a user can do on the task tab: submit the form opened for a new
    task, submit the form opened from the card at position [i], press a
    status button of that card, confirm its deletion.  A card renders a task
    of the array as it is now; the detail dialog offers the same buttons on
    the task it was opened on. *)
Inductive Op :=
| NewTask (events : list TaskForm.Event) (newId : string) (now : Date)
| EditTask (i : nat) (events : list TaskForm.Event)
| PressStatus (i : nat) (newStatus : Status) (now : Date)
| DeleteTask (i : nat).

(** One operation; [None] when the view does not offer it: no card at that
    position, a status button that is not rendered, or an id that
    [generateId()] has already given to a task of the array. *)
Definition step (st : App.State) (op : Op) : option App.State :=
  match op with
  | NewTask events newId now =>
      if existsb (fun task => Task.id task =? newId) (App.tasks st)
      then None
      else
        Some (App.handleTaskSubmit
                (TaskForm.submitted None (App.categories st) events)
                newId now (App.openNewTaskForm st))
  | EditTask i events =>
      match nth_error (App.tasks st) i with
      | Some task =>
          Some (App.handleTaskSubmit
                  (TaskForm.submitted (Some task) (App.categories st) events)
                  "" 0 (App.handleEditTask task st))
      | None => None
      end
  | PressStatus i newStatus now =>
      match nth_error (App.tasks st) i with
      | Some task =>
          if TaskDetail.offers task newStatus
          then Some (App.handleStatusChange (Task.id task) newStatus now st)
          else None
      | None => None
      end
  | DeleteTask i =>
      match nth_error (App.tasks st) i with
      | Some task => Some (App.handleDeleteTask (Task.id task) st)
      | None => None
      end
  end.

Fixpoint run (ops : list Op) (st : App.State) : option App.State :=
  match ops with
  | [] => Some st
  | op :: rest =>
      match step st op with
      | Some st' => run rest st'
      | None => None
      end
  end.

(** The timestamps a status goes with. *)
Definition lifecycleOk (task : Task.t) : Prop :=
  match Task.status task with
  | pending => Task.activatedAt task = None /\ Task.completedAt task = None
  | active => Task.activatedAt task <> None /\ Task.completedAt task = None
  | completed =>
      Task.activatedAt task <> None /\ Task.completedAt task <> None
  end.

(** Distinct ids, and every task in a state of the lifecycle. *)
Definition wellFormed (st : App.State) : Prop :=
  NoDup (map Task.id (App.tasks st)) /\ Forall lifecycleOk (App.tasks st).

(** The category registry has no duplicate and holds the category of every
    task. *)
Definition registryOk (st : App.State) : Prop :=
  NoDup (App.categories st)
  /\ Forall (fun task => In (Task.category task) (App.categories st))
            (App.tasks st).

End Ui.

(** ** Sample inputs *)

Module Sample.

(** The fields a task form submits, with the given status. *)
Definition taskData (s : Status) : TaskData.t :=
  {| TaskData.title := "Inspeccion de valvulas";
     TaskData.description := "Revision de la linea 2";
     TaskData.status := s;
     TaskData.priority := high;
     TaskData.assignedTo := ["2"];
     TaskData.estimatedHours := 4;
     TaskData.category := "Mantenimiento" |}.

(** Create a task as 'pending', start it, complete it, set it back to
    'pending'. *)
Definition reopen : list App.Op :=
  [ App.CreateTask (taskData pending) "t1" 100;
    App.SetStatus "t1" active 200;
    App.SetStatus "t1" completed 300;
    App.SetStatus "t1" pending 400 ].

(** Create a task as 'pending', start it, pause it, start it again,
    complete it. *)
Definition usual : list App.Op :=
  [ App.CreateTask (taskData pending) "t1" 100;
    App.SetStatus "t1" active 200;
    App.SetStatus "t1" pending 300;
    App.SetStatus "t1" active 400;
    App.SetStatus "t1" completed 500 ].

Definition unassignedOnly : App.Filters :=
  {| App.searchTerm := "";
     App.statusFilter := "all";
     App.priorityFilter := "all";
     App.categoryFilter := "all";
     App.personnelFilter := "unassigned" |}.

(** A task of the given status, assigned to the given people. *)
Definition task (taskId : string) (s : Status) (people : list string)
  : Task.t :=
  {| Task.id := taskId;
     Task.title := "Inspeccion de valvulas";
     Task.description := "Revision de la linea 2";
     Task.status := s;
     Task.priority := high;
     Task.assignedTo := people;
     Task.createdAt := 100;
     Task.activatedAt := None;
     Task.completedAt := None;
     Task.estimatedHours := 4;
     Task.category := "Mantenimiento" |}.

(** A session on the task tab: a task is created in a new category,
    started, edited, completed, and the first seed task is deleted. *)
Definition session : list Ui.Op :=
  [ Ui.NewTask [ TaskForm.SetTitle "Purga de linea";
                 TaskForm.PersonnelToggle "2" true;
                 TaskForm.ToggleNewCategory;
                 TaskForm.SetNewCategory "  Limpieza " ] "t1" 100;
    Ui.PressStatus 5 active 200;
    Ui.EditTask 5 [ TaskForm.SetPriority urgent;
                    TaskForm.SetEstimatedHours None ];
    Ui.PressStatus 5 completed 300;
    Ui.DeleteTask 0 ].

End Sample.

(** * Properties *)

(** ** Equality tests *)

Lemma Status_eqb_eq (a b : Status) : Status_eqb a b = true <-> a = b.
Proof. destruct a, b; simpl; split; congruence. Qed.

Lemma Status_eqb_neq (a b : Status) : Status_eqb a b = false <-> a <> b.
Proof. destruct a, b; simpl; split; congruence. Qed.

Lemma truthy_false (s : string) : truthy s = false <-> s = "".
Proof. destruct s; simpl; split; congruence. Qed.

Lemma eqb_empty_truthy (s : string) : (s =? "") = negb (truthy s).
Proof. destruct s; reflexivity. Qed.

(** ** The lifecycle of one task *)

Section StatusChange.

Variables (taskId : string) (now : Date).

Lemma statusChange_other (newStatus : Status) (task : Task.t) :
  Task.id task <> taskId ->
  App.statusChange taskId newStatus now task = task.
Proof.
  intros Hne. unfold App.statusChange.
  now rewrite (proj2 (String.eqb_neq _ _) Hne).
Qed.

(** Whatever the request, the fields outside the lifecycle stay. *)
Lemma statusChange_frame (newStatus : Status) (task : Task.t) :
  let task' := App.statusChange taskId newStatus now task in
  Task.id task' = Task.id task
  /\ Task.title task' = Task.title task
  /\ Task.description task' = Task.description task
  /\ Task.priority task' = Task.priority task
  /\ Task.assignedTo task' = Task.assignedTo task
  /\ Task.category task' = Task.category task
  /\ Task.estimatedHours task' = Task.estimatedHours task
  /\ Task.createdAt task' = Task.createdAt task.
Proof.
  unfold App.statusChange.
  destruct (Task.id task =? taskId); simpl; repeat split; reflexivity.
Qed.

Lemma statusChange_to_completed (task : Task.t) :
  Task.id task = taskId ->
  let task' := App.statusChange taskId completed now task in
  Task.status task' = completed
  /\ Task.completedAt task' = Some now
  /\ Task.activatedAt task' = Task.activatedAt task.
Proof.
  intros Hid. unfold App.statusChange.
  rewrite (proj2 (String.eqb_eq _ _) Hid).
  destruct (Task.status task); simpl; repeat split; reflexivity.
Qed.

Lemma statusChange_activate (task : Task.t) :
  Task.id task = taskId -> Task.status task = pending ->
  let task' := App.statusChange taskId active now task in
  Task.status task' = active /\ Task.activatedAt task' = Some now.
Proof.
  intros Hid Hst. unfold App.statusChange.
  rewrite (proj2 (String.eqb_eq _ _) Hid), Hst. simpl. split; reflexivity.
Qed.

Lemma statusChange_pause (task : Task.t) :
  Task.id task = taskId -> Task.status task = active ->
  let task' := App.statusChange taskId pending now task in
  Task.status task' = pending /\ Task.activatedAt task' = None.
Proof.
  intros Hid Hst. unfold App.statusChange.
  rewrite (proj2 (String.eqb_eq _ _) Hid), Hst. simpl. split; reflexivity.
Qed.

(** The first invariant survives a change that does not take a task out of
    'completed'. *)
Lemma statusChange_completedIff (newStatus : Status) (task : Task.t) :
  App.completedIffCompletedAt task ->
  newStatus = completed \/ Task.id task <> taskId
  \/ Task.status task <> completed ->
  App.completedIffCompletedAt (App.statusChange taskId newStatus now task).
Proof.
  unfold App.completedIffCompletedAt, App.statusChange.
  intros [Hto Hfrom] Hgate.
  destruct (Task.id task =? taskId) eqn:Hid; [ | split; assumption ].
  apply String.eqb_eq in Hid.
  destruct newStatus, (Task.status task) eqn:Hst; simpl;
    try (split; congruence);
    try (destruct Hgate as [Hc | [Hc | Hc]]; congruence);
    (split; [ discriminate | intros Hat; apply Hfrom in Hat; discriminate ]).
Qed.

(** The second invariant survives every change. *)
Lemma statusChange_activatedOutside (newStatus : Status) (task : Task.t) :
  App.activatedOutsideActiveWasCompleted task ->
  App.activatedOutsideActiveWasCompleted
    (App.statusChange taskId newStatus now task).
Proof.
  unfold App.activatedOutsideActiveWasCompleted, App.statusChange.
  intros Hinv.
  destruct (Task.id task =? taskId); [ | assumption ].
  destruct newStatus, (Task.status task) eqn:Hst; simpl; intros Hna Hact;
    try congruence; apply Hinv; congruence.
Qed.

End StatusChange.

(** ** The task array under the operations *)

Lemma hasStatus_false (taskId : string) (s : Status) (st : App.State) :
  App.hasStatus taskId s st = false ->
  forall task, In task (App.tasks st) ->
               Task.id task <> taskId \/ Task.status task <> s.
Proof.
  unfold App.hasStatus. intros Hnone task Hin.
  destruct (string_dec (Task.id task) taskId) as [Hid | Hid]; [ | now left ].
  right. intros Hst.
  assert (Hex : existsb (fun t => (Task.id t =? taskId)
                                  && Status_eqb (Task.status t) s)
                        (App.tasks st) = true).
  { apply existsb_exists. exists task. split; [ assumption | ].
    apply andb_true_iff. split;
      [ now apply String.eqb_eq | now apply Status_eqb_eq ]. }
  congruence.
Qed.

Lemma createTask_tasks (taskData : TaskData.t) (newId : string) (now : Date)
    (st : App.State) :
  App.tasks (App.createTask taskData newId now st)
  = App.tasks st ++ [App.newTask taskData newId now].
Proof. reflexivity. Qed.

Lemma setStatus_tasks (taskId : string) (s : Status) (now : Date)
    (st : App.State) :
  App.tasks (App.setStatus taskId s now st)
  = map (App.statusChange taskId s now) (App.tasks st).
Proof. reflexivity. Qed.

Lemma run_cons (op : App.Op) (ops : list App.Op) (st : App.State) :
  App.run (op :: ops) st = App.run ops (App.step st op).
Proof. reflexivity. Qed.

Lemma step_completedIff (st : App.State) (op : App.Op) :
  App.keepsCompletedTerminal st op = true ->
  Forall App.completedIffCompletedAt (App.tasks st) ->
  Forall App.completedIffCompletedAt (App.tasks (App.step st op)).
Proof.
  intros Hgate Hinv. destruct op as [taskData newId now | taskId s now]; unfold App.step.
  - rewrite createTask_tasks. apply Forall_app. split; [ assumption | ].
    constructor; [ | constructor ].
    simpl in Hgate. apply negb_true_iff, Status_eqb_neq in Hgate.
    unfold App.completedIffCompletedAt. simpl. split; congruence.
  - rewrite setStatus_tasks. apply Forall_map.
    rewrite Forall_forall in *. intros task Hin.
    apply statusChange_completedIff; [ now apply Hinv | ].
    simpl in Hgate. apply orb_true_iff in Hgate.
    destruct Hgate as [Hc | Hn].
    + left. now apply Status_eqb_eq.
    + right. apply negb_true_iff in Hn.
      exact (hasStatus_false _ _ _ Hn task Hin).
Qed.

Lemma step_activatedOutside (st : App.State) (op : App.Op) :
  Forall App.activatedOutsideActiveWasCompleted (App.tasks st) ->
  Forall App.activatedOutsideActiveWasCompleted (App.tasks (App.step st op)).
Proof.
  intros Hinv. destruct op as [taskData newId now | taskId s now]; unfold App.step.
  - rewrite createTask_tasks. apply Forall_app. split; [ assumption | ].
    constructor; [ | constructor ].
    unfold App.activatedOutsideActiveWasCompleted. simpl. congruence.
  - rewrite setStatus_tasks. apply Forall_map.
    rewrite Forall_forall in *. intros task Hin.
    apply statusChange_activatedOutside. now apply Hinv.
Qed.

Lemma run_activatedOutside (ops : list App.Op) :
  forall st,
    Forall App.activatedOutsideActiveWasCompleted (App.tasks st) ->
    Forall App.activatedOutsideActiveWasCompleted (App.tasks (App.run ops st)).
Proof.
  induction ops as [ | op ops IH ]; intros st Hinv; [ assumption | ].
  rewrite run_cons. apply IH. now apply step_activatedOutside.
Qed.

(** The seed data satisfy both invariants. *)
Lemma initialTasks_completedIff :
  Forall App.completedIffCompletedAt (App.tasks App.initialState).
Proof.
  unfold App.completedIffCompletedAt.
  repeat constructor; simpl; congruence.
Qed.

Lemma initialTasks_activatedOutside :
  Forall App.activatedOutsideActiveWasCompleted (App.tasks App.initialState).
Proof.
  unfold App.activatedOutsideActiveWasCompleted.
  repeat constructor; simpl; congruence.
Qed.

(** The buttons of the task views request no change out of 'completed'. *)
Lemma offers_keepsCompletedTerminal (st : App.State) (task : Task.t)
    (newStatus : Status) (now : Date) :
  NoDup (map Task.id (App.tasks st)) ->
  In task (App.tasks st) ->
  TaskDetail.offers task newStatus = true ->
  App.keepsCompletedTerminal st (App.SetStatus (Task.id task) newStatus now)
  = true.
Proof.
  intros Hnodup Hin Hoffer. simpl.
  destruct (Status_eqb newStatus completed) eqn:Hs; [ reflexivity | simpl ].
  apply negb_true_iff.
  destruct (App.hasStatus (Task.id task) completed st) eqn:Hhas;
    [ exfalso | reflexivity ].
  unfold App.hasStatus in Hhas. apply existsb_exists in Hhas.
  destruct Hhas as [other [Hother Hboth]].
  apply andb_true_iff in Hboth. destruct Hboth as [Hid Hst].
  apply String.eqb_eq in Hid. apply Status_eqb_eq in Hst.
  assert (other = task) as ->.
  { clear - Hnodup Hin Hother Hid.
    induction (App.tasks st) as [ | x xs IH ]; [ contradiction | ].
    simpl in Hnodup. inversion Hnodup as [ | ? ? Hnotin Hrest ]; subst.
    destruct Hin as [-> | Hin], Hother as [-> | Hother]; auto.
    - exfalso. apply Hnotin. rewrite <- Hid. now apply in_map.
    - exfalso. apply Hnotin. rewrite Hid. now apply in_map. }
  destruct newStatus; unfold TaskDetail.offers, TaskDetail.canActivate,
    TaskDetail.canPause, TaskDetail.canComplete in Hoffer;
    rewrite Hst in Hoffer; simpl in *; congruence.
Qed.

(** ** The lifecycle claims *)

(** C1 as stated is false: after create ('pending'), setStatus 'active',
    setStatus 'completed', setStatus 'pending', the task is 'pending' and still
    carries [completedAt]; so from the empty store as from the seed data. *)
Lemma completed_iff_completedAt_refuted :
  ~ (forall ops task,
        In task (App.tasks (App.run ops App.emptyState)) ->
        App.completedIffCompletedAt task)
  /\ ~ (forall ops task,
          In task (App.tasks (App.run ops App.initialState)) ->
          App.completedIffCompletedAt task).
Proof.
  split; intros H.
  - pose proof (fun t Ht => H Sample.reopen t (nth_error_In _ 0 Ht)) as H0.
    destruct (H0 _ eq_refl) as [_ Hback].
    simpl in Hback. specialize (Hback ltac:(discriminate)). discriminate.
  - pose proof (fun t Ht => H Sample.reopen t (nth_error_In _ 5 Ht)) as H5.
    destruct (H5 _ eq_refl) as [_ Hback].
    simpl in Hback. specialize (Hback ltac:(discriminate)). discriminate.
Qed.

(** A task created as 'completed' has no [completedAt] either: the other
    direction of C1 fails at creation. *)
Lemma created_completed_lacks_completedAt :
  let st := App.createTask (Sample.taskData completed) "t1" 100 App.emptyState in
  exists task, In task (App.tasks st)
               /\ Task.status task = completed
               /\ Task.completedAt task = None.
Proof. simpl. eexists. split; [ left; reflexivity | split; reflexivity ]. Qed.

(** C1, amended: from a store whose tasks are 'completed' exactly when they
    carry [completedAt], every sequence of createTask and setStatus operations
    that keeps 'completed' terminal (no task is created as 'completed', no
    'completed' task is set to 'pending' or 'active') leads to a store whose
    tasks are 'completed' exactly when they carry [completedAt]. *)
Theorem completed_iff_completedAt_terminal (ops : list App.Op) :
  forall st,
    Forall App.completedIffCompletedAt (App.tasks st) ->
    App.allKeepCompletedTerminal ops st = true ->
    forall task, In task (App.tasks (App.run ops st)) ->
                 App.completedIffCompletedAt task.
Proof.
  induction ops as [ | op ops IH ]; intros st Hinv Hgate task Hin.
  - rewrite Forall_forall in Hinv. now apply Hinv.
  - simpl in Hgate. apply andb_true_iff in Hgate. destruct Hgate as [Hop Hrest].
    rewrite run_cons in Hin.
    apply (IH (App.step st op)); auto using step_completedIff.
Qed.

Lemma completed_iff_completedAt_terminal_witness :
  Forall App.completedIffCompletedAt
         (App.tasks (App.run Sample.usual App.initialState)).
Proof.
  apply Forall_forall.
  apply (completed_iff_completedAt_terminal Sample.usual App.initialState).
  - exact initialTasks_completedIff.
  - vm_compute. reflexivity.
Defined.

(** C2 as stated is false: the run create, setStatus 'active', setStatus
    'completed', setStatus 'pending' ends in a task that is 'pending' and
    carries [activatedAt], and no operation of the run is a pause. *)
Lemma pending_activatedAt_by_pause_refuted :
  ~ (forall ops task,
        In task (App.tasks (App.run ops App.emptyState)) ->
        Task.status task = pending ->
        Task.activatedAt task <> None ->
        App.pausedIn (Task.id task) ops App.emptyState = true)
  /\ ~ (forall ops task,
          In task (App.tasks (App.run ops App.initialState)) ->
          Task.status task = pending ->
          Task.activatedAt task <> None ->
          App.pausedIn (Task.id task) ops App.initialState = true).
Proof.
  split; intros H.
  - pose proof (fun t Ht => H Sample.reopen t (nth_error_In _ 0 Ht)) as H0.
    specialize (H0 _ eq_refl eq_refl ltac:(discriminate)).
    vm_compute in H0. discriminate.
  - pose proof (fun t Ht => H Sample.reopen t (nth_error_In _ 5 Ht)) as H5.
    specialize (H5 _ eq_refl eq_refl ltac:(discriminate)).
    vm_compute in H5. discriminate.
Qed.

(** ** How a 'pending' task comes to carry an activation time *)

Lemma run_snoc (ops : list App.Op) (op : App.Op) (st : App.State) :
  App.run (ops ++ [op]) st = App.step (App.run ops st) op.
Proof. unfold App.run. now rewrite fold_left_app. Qed.

Lemma run_app (ops ops' : list App.Op) (st : App.State) :
  App.run (ops ++ ops') st = App.run ops' (App.run ops st).
Proof. unfold App.run. apply fold_left_app. Qed.

Lemma staysPendingWith_head (a : option Date) (i : nat) (ops : list App.Op)
    (st : App.State) :
  App.staysPendingWith a i ops st ->
  exists task, App.taskAt i st = Some task
               /\ Task.status task = pending /\ Task.activatedAt task = a.
Proof. destruct ops; simpl; tauto. Qed.

Lemma staysPendingWith_snoc (a : option Date) (i : nat) (op : App.Op)
    (ops : list App.Op) :
  forall st,
    App.staysPendingWith a i ops st ->
    (exists task, App.taskAt i (App.run (ops ++ [op]) st) = Some task
                  /\ Task.status task = pending
                  /\ Task.activatedAt task = a) ->
    App.staysPendingWith a i (ops ++ [op]) st.
Proof.
  induction ops as [ | first rest IH ]; intros st Hstays Hlast.
  - simpl in *. destruct Hstays as [Hnow _]. repeat split; auto.
  - simpl in *. destruct Hstays as [Hnow Hrest]. split; [ exact Hnow | ].
    apply IH; assumption.
Qed.

(** What one operation does to the task at a position. *)
Lemma taskAt_step (st : App.State) (op : App.Op) (i : nat) (task : Task.t) :
  App.taskAt i (App.step st op) = Some task ->
  match op with
  | App.CreateTask taskData newId now =>
      App.taskAt i st = Some task
      \/ (App.taskAt i st = None /\ task = App.newTask taskData newId now)
  | App.SetStatus taskId newStatus now =>
      exists before,
        App.taskAt i st = Some before
        /\ task = App.statusChange taskId newStatus now before
  end.
Proof.
  unfold App.taskAt. destruct op as [taskData newId now | taskId s now].
  - unfold App.step. rewrite createTask_tasks. intros Hnth.
    destruct (Nat.lt_ge_cases i (List.length (App.tasks st))) as [Hlt | Hge].
    + left. now rewrite nth_error_app1 in Hnth.
    + right. rewrite nth_error_app2 in Hnth by assumption.
      split; [ now apply nth_error_None | ].
      destruct (i - List.length (App.tasks st))%nat as [ | j ];
        simpl in Hnth; [ congruence | ].
      destruct j; discriminate.
  - unfold App.step. rewrite setStatus_tasks, nth_error_map. intros Hnth.
    destruct (nth_error (App.tasks st) i) as [ before | ];
      [ | discriminate ].
    exists before. split; [ reflexivity | ]. simpl in Hnth. congruence.
Qed.

(** A status change that leaves a task 'pending' with an activation time
    either did not touch it or set it back from 'completed'. *)
Lemma statusChange_pending_activatedAt (taskId : string) (s : Status)
    (now : Date) (before : Task.t) :
  let task := App.statusChange taskId s now before in
  Task.status task = pending -> Task.activatedAt task <> None ->
  task = before
  \/ (s = pending /\ Task.id before = taskId
      /\ Task.status before = completed
      /\ Task.activatedAt before = Task.activatedAt task).
Proof.
  unfold App.statusChange.
  destruct (String.eqb_spec (Task.id before) taskId) as [Hid | Hid];
    [ | now left ].
  destruct before as [id title description status priority assignedTo
                        createdAt activatedAt completedAt hours category].
  simpl in *.
  destruct s, status; simpl; intros Hst Hact; try discriminate;
    try congruence; try (now left);
    right; repeat split; assumption || reflexivity.
Qed.

Lemma pendingHasNoActivatedAt_taskAt (st : App.State) (i : nat)
    (task : Task.t) :
  Forall App.pendingHasNoActivatedAt (App.tasks st) ->
  App.taskAt i st = Some task ->
  Task.status task = pending -> Task.activatedAt task = None.
Proof.
  intros Hall Hnth. rewrite Forall_forall in Hall.
  apply Hall. eapply nth_error_In. exact Hnth.
Qed.

Lemma reopened_history (st : App.State) (i : nat) (ops : list App.Op) :
  Forall App.pendingHasNoActivatedAt (App.tasks st) ->
  forall task,
    App.taskAt i (App.run ops st) = Some task ->
    Task.status task = pending ->
    Task.activatedAt task <> None ->
    exists pre taskId now post before,
      ops = pre ++ App.SetStatus taskId pending now :: post
      /\ App.taskAt i (App.run pre st) = Some before
      /\ Task.id before = taskId
      /\ Task.status before = completed
      /\ Task.activatedAt before = Task.activatedAt task
      /\ App.staysPendingWith (Task.activatedAt task) i post
           (App.run (pre ++ [App.SetStatus taskId pending now]) st).
Proof.
  intros Hstart.
  induction ops as [ | op ops IH ] using rev_ind; intros task Hnth Hst Hact.
  - exfalso. apply Hact.
    now apply (pendingHasNoActivatedAt_taskAt st i task).
  - assert (Hkeep : App.taskAt i (App.run ops st) = Some task ->
              exists pre taskId now post before,
                ops ++ [op] = pre ++ App.SetStatus taskId pending now :: post
                /\ App.taskAt i (App.run pre st) = Some before
                /\ Task.id before = taskId
                /\ Task.status before = completed
                /\ Task.activatedAt before = Task.activatedAt task
                /\ App.staysPendingWith (Task.activatedAt task) i post
                     (App.run (pre ++ [App.SetStatus taskId pending now]) st)).
    { intros Hold.
      destruct (IH task Hold Hst Hact)
        as (pre & taskId & now & post & before
            & Hops & Hbefore & Hid & Hcompleted & Hsame & Hstays).
      exists pre, taskId, now, (post ++ [op]), before.
      repeat split; try assumption.
      - rewrite Hops, <- app_assoc. reflexivity.
      - apply staysPendingWith_snoc; [ exact Hstays | ].
        exists task. repeat split; try assumption.
        rewrite <- run_app, <- app_assoc. simpl.
        now rewrite app_comm_cons, app_assoc, <- Hops. }
    rewrite run_snoc in Hnth. apply taskAt_step in Hnth.
    destruct op as [taskData newId now | taskId s now].
    + destruct Hnth as [Hold | [_ ->]]; [ now apply Hkeep | ].
      exfalso. now apply Hact.
    + destruct Hnth as [before [Hbefore ->]].
      destruct (statusChange_pending_activatedAt taskId s now before Hst Hact)
        as [Hsame | (-> & Hid & Hcompleted & Hactivated)].
      * rewrite Hsame in *. now apply Hkeep.
      * exists ops, taskId, now, [], before.
        repeat split; try assumption.
        exists (App.statusChange taskId pending now before).
        repeat split; try assumption.
        rewrite run_snoc. unfold App.taskAt, App.step.
        rewrite setStatus_tasks, nth_error_map.
        unfold App.taskAt in Hbefore. now rewrite Hbefore.
Qed.

Lemma pause_clears_activatedAt (st : App.State) (pre : list App.Op)
    (taskId : string) (now : Date) (i : nat) (before : Task.t) :
  App.taskAt i (App.run pre st) = Some before ->
  Task.id before = taskId -> Task.status before = active ->
  exists after,
    App.taskAt i (App.run (pre ++ [App.SetStatus taskId pending now]) st)
    = Some after
    /\ Task.status after = pending /\ Task.activatedAt after = None.
Proof.
  intros Hbefore Hid Hactive.
  exists (App.statusChange taskId pending now before). split.
  - rewrite run_snoc. unfold App.taskAt, App.step in *.
    now rewrite setStatus_tasks, nth_error_map, Hbefore.
  - now apply statusChange_pause.
Qed.

(** C2, amended: start from a store in which no 'pending' task carries
    [activatedAt] (the empty store, the seed data) and apply any sequence of
    createTask and setStatus operations.  If the task at a position of the
    resulting store is 'pending' and carries [activatedAt], then the sequence
    contains a setStatus to 'pending' that found this task 'completed' and
    already carrying that [activatedAt], and after every later operation the
    task was 'pending' with the same [activatedAt]: it was reopened, not
    paused.  And in every state reached from that store, a pause (setStatus to
    'pending' of a task that is 'active') leaves the task 'pending' without
    [activatedAt]. *)
Theorem pending_activatedAt_was_reopened (st : App.State)
    (ops : list App.Op) (i : nat) (task : Task.t) :
  Forall App.pendingHasNoActivatedAt (App.tasks st) ->
  App.taskAt i (App.run ops st) = Some task ->
  Task.status task = pending ->
  Task.activatedAt task <> None ->
  (exists pre taskId now post before,
      ops = pre ++ App.SetStatus taskId pending now :: post
      /\ App.taskAt i (App.run pre st) = Some before
      /\ Task.id before = taskId
      /\ Task.status before = completed
      /\ Task.activatedAt before = Task.activatedAt task
      /\ App.staysPendingWith (Task.activatedAt task) i post
           (App.run (pre ++ [App.SetStatus taskId pending now]) st))
  /\ (forall pre taskId now j before,
         App.taskAt j (App.run pre st) = Some before ->
         Task.id before = taskId -> Task.status before = active ->
         exists after,
           App.taskAt j
             (App.run (pre ++ [App.SetStatus taskId pending now]) st)
           = Some after
           /\ Task.status after = pending
           /\ Task.activatedAt after = None).
Proof.
  intros Hstart Hnth Hst Hact. split.
  - now apply reopened_history.
  - intros pre taskId now j before. apply pause_clears_activatedAt.
Qed.

Lemma initialTasks_pendingHasNoActivatedAt :
  Forall App.pendingHasNoActivatedAt (App.tasks App.initialState).
Proof.
  unfold App.pendingHasNoActivatedAt.
  repeat constructor; simpl; congruence.
Qed.

Lemma pending_activatedAt_was_reopened_witness :
  (exists pre taskId now post before,
      Sample.reopen = pre ++ App.SetStatus taskId pending now :: post
      /\ App.taskAt 5 (App.run pre App.initialState) = Some before
      /\ Task.id before = taskId
      /\ Task.status before = completed
      /\ Task.activatedAt before = Some 200%Z
      /\ App.staysPendingWith (Some 200%Z) 5 post
           (App.run (pre ++ [App.SetStatus taskId pending now])
                    App.initialState))
  /\ (forall pre taskId now j before,
         App.taskAt j (App.run pre App.initialState) = Some before ->
         Task.id before = taskId -> Task.status before = active ->
         exists after,
           App.taskAt j
             (App.run (pre ++ [App.SetStatus taskId pending now])
                      App.initialState)
           = Some after
           /\ Task.status after = pending
           /\ Task.activatedAt after = None).
Proof.
  exact (pending_activatedAt_was_reopened App.initialState Sample.reopen 5 _
           initialTasks_pendingHasNoActivatedAt eq_refl eq_refl
           ltac:(discriminate)).
Defined.

(** C3: setStatus to 'completed' stamps [completedAt] with the clock reading
    whatever the status before, and leaves [activatedAt] as it was; so a
    'pending' task without [activatedAt] ends 'completed', with [completedAt]
    set and [activatedAt] still absent. *)
Theorem setStatus_completed_stamps (st : App.State) (taskId : string)
    (now : Date) (i : nat) (task : Task.t) :
  nth_error (App.tasks st) i = Some task ->
  Task.id task = taskId ->
  exists task',
    nth_error (App.tasks (App.setStatus taskId completed now st)) i = Some task'
    /\ Task.status task' = completed
    /\ Task.completedAt task' = Some now
    /\ Task.activatedAt task' = Task.activatedAt task
    /\ (Task.status task = pending -> Task.activatedAt task = None ->
        Task.activatedAt task' = None).
Proof.
  intros Hnth Hid.
  exists (App.statusChange taskId completed now task).
  rewrite setStatus_tasks, nth_error_map, Hnth. simpl.
  destruct (statusChange_to_completed taskId now task Hid) as (Hs & Hc & Ha).
  repeat split; try assumption. intros _ Hnone. congruence.
Qed.

Lemma setStatus_completed_stamps_witness :
  exists task',
    nth_error (App.tasks (App.setStatus "2" completed 900 App.initialState)) 0
    = Some task'
    /\ Task.status task' = completed
    /\ Task.completedAt task' = Some 900%Z
    /\ Task.activatedAt task' = None
    /\ (pending = pending -> @None Date = None ->
        Task.activatedAt task' = None).
Proof.
  exact (setStatus_completed_stamps App.initialState "2" 900 0 _
           eq_refl eq_refl).
Defined.

(** C4: a task created as 'pending' sits at the end of the array; setStatus
    'active' on its id makes it 'active' with [activatedAt] the clock reading,
    and setStatus 'pending' after that makes it 'pending' with [activatedAt]
    absent. *)
Theorem create_activate_pause (st : App.State) (taskData : TaskData.t)
    (newId : string) (t0 t1 t2 : Date) :
  TaskData.status taskData = pending ->
  let n := List.length (App.tasks st) in
  let s1 := App.createTask taskData newId t0 st in
  let s2 := App.setStatus newId active t1 s1 in
  let s3 := App.setStatus newId pending t2 s2 in
  (exists a1, nth_error (App.tasks s1) n = Some a1
              /\ Task.id a1 = newId
              /\ Task.status a1 = pending
              /\ Task.activatedAt a1 = None)
  /\ (exists a2, nth_error (App.tasks s2) n = Some a2
                 /\ Task.id a2 = newId
                 /\ Task.status a2 = active
                 /\ Task.activatedAt a2 = Some t1)
  /\ (exists a3, nth_error (App.tasks s3) n = Some a3
                 /\ Task.id a3 = newId
                 /\ Task.status a3 = pending
                 /\ Task.activatedAt a3 = None).
Proof.
  intros Hpending n s1 s2 s3.
  set (a1 := App.newTask taskData newId t0).
  set (a2 := App.statusChange newId active t1 a1).
  set (a3 := App.statusChange newId pending t2 a2).
  assert (H1 : nth_error (App.tasks s1) n = Some a1).
  { unfold s1, n. rewrite createTask_tasks, nth_error_app2 by lia.
    now rewrite Nat.sub_diag. }
  assert (H2 : nth_error (App.tasks s2) n = Some a2).
  { unfold s2. now rewrite setStatus_tasks, nth_error_map, H1. }
  assert (H3 : nth_error (App.tasks s3) n = Some a3).
  { unfold s3. now rewrite setStatus_tasks, nth_error_map, H2. }
  assert (Hid1 : Task.id a1 = newId) by reflexivity.
  assert (Hst1 : Task.status a1 = pending) by exact Hpending.
  destruct (statusChange_activate newId t1 a1 Hid1 Hst1) as [Hst2 Hact2].
  assert (Hid2 : Task.id a2 = newId).
  { unfold a2.
    now rewrite (proj1 (statusChange_frame newId t1 active a1)). }
  destruct (statusChange_pause newId t2 a2 Hid2 Hst2) as [Hst3 Hact3].
  assert (Hid3 : Task.id a3 = newId).
  { unfold a3.
    now rewrite (proj1 (statusChange_frame newId t2 pending a2)). }
  split; [ | split ].
  - exists a1. repeat split; assumption || reflexivity.
  - exists a2. repeat split; assumption.
  - exists a3. repeat split; assumption.
Qed.

Lemma create_activate_pause_witness :
  let s1 := App.createTask (Sample.taskData pending) "t1" 100 App.initialState in
  let s2 := App.setStatus "t1" active 200 s1 in
  let s3 := App.setStatus "t1" pending 300 s2 in
  (exists a1, nth_error (App.tasks s1) 5 = Some a1
              /\ Task.id a1 = "t1"
              /\ Task.status a1 = pending
              /\ Task.activatedAt a1 = None)
  /\ (exists a2, nth_error (App.tasks s2) 5 = Some a2
                 /\ Task.id a2 = "t1"
                 /\ Task.status a2 = active
                 /\ Task.activatedAt a2 = Some 200%Z)
  /\ (exists a3, nth_error (App.tasks s3) 5 = Some a3
                 /\ Task.id a3 = "t1"
                 /\ Task.status a3 = pending
                 /\ Task.activatedAt a3 = None).
Proof.
  exact (create_activate_pause App.initialState (Sample.taskData pending)
           "t1" 100 200 300 eq_refl).
Defined.

(** C10: setStatus keeps the length of the task array and the position of
    every task; a task whose id differs from the given one is unchanged, and
    on a task with the given id only [status], [activatedAt] and [completedAt]
    can differ from before. *)
Theorem setStatus_frame (st : App.State) (taskId : string)
    (newStatus : Status) (now : Date) :
  let st' := App.setStatus taskId newStatus now st in
  List.length (App.tasks st') = List.length (App.tasks st)
  /\ forall i task,
       nth_error (App.tasks st) i = Some task ->
       exists task',
         nth_error (App.tasks st') i = Some task'
         /\ (Task.id task <> taskId -> task' = task)
         /\ Task.id task' = Task.id task
         /\ Task.title task' = Task.title task
         /\ Task.description task' = Task.description task
         /\ Task.priority task' = Task.priority task
         /\ Task.assignedTo task' = Task.assignedTo task
         /\ Task.category task' = Task.category task
         /\ Task.estimatedHours task' = Task.estimatedHours task
         /\ Task.createdAt task' = Task.createdAt task.
Proof.
  intros st'. unfold st'. rewrite setStatus_tasks. split.
  - apply length_map.
  - intros i task Hnth.
    exists (App.statusChange taskId newStatus now task).
    rewrite nth_error_map, Hnth. split; [ reflexivity | ].
    split; [ apply statusChange_other | apply statusChange_frame ].
Qed.

Lemma setStatus_frame_witness :
  exists task',
    nth_error (App.tasks (App.setStatus "2" active 900 App.initialState)) 1
    = Some task'
    /\ ("3" <> "2" -> Some task' = nth_error App.initialTasks 1).
Proof.
  destruct (setStatus_frame App.initialState "2" active 900) as [_ Hframe].
  destruct (Hframe 1%nat _ eq_refl) as (task' & Hnth & Hother & _).
  exists task'. split; [ exact Hnth | ].
  intros Hne. now rewrite (Hother Hne).
Defined.

(** ** Editing a task *)

Lemma updateTask_tasks (editing : Task.t) (taskData : TaskData.t)
    (newId : string) (now : Date) (st : App.State) :
  App.tasks (App.updateTask editing taskData newId now st)
  = map (fun task => if Task.id task =? Task.id editing
                     then App.spreadTaskData task taskData else task)
        (App.tasks st).
Proof. reflexivity. Qed.

(** C8: updateTask keeps the length of the task array; a task with the id
    being edited takes every field of the input and keeps its [id],
    [createdAt], [activatedAt] and [completedAt]; every other task is
    unchanged; when no task has that id the task array is unchanged. *)
Theorem updateTask_replaces_input_fields (st : App.State) (editing : Task.t)
    (taskData : TaskData.t) (newId : string) (now : Date) :
  let st' := App.updateTask editing taskData newId now st in
  List.length (App.tasks st') = List.length (App.tasks st)
  /\ (forall i task,
        nth_error (App.tasks st) i = Some task ->
        exists task',
          nth_error (App.tasks st') i = Some task'
          /\ (Task.id task <> Task.id editing -> task' = task)
          /\ (Task.id task = Task.id editing ->
              Task.id task' = Task.id task
              /\ Task.createdAt task' = Task.createdAt task
              /\ Task.activatedAt task' = Task.activatedAt task
              /\ Task.completedAt task' = Task.completedAt task
              /\ Task.title task' = TaskData.title taskData
              /\ Task.description task' = TaskData.description taskData
              /\ Task.status task' = TaskData.status taskData
              /\ Task.priority task' = TaskData.priority taskData
              /\ Task.assignedTo task' = TaskData.assignedTo taskData
              /\ Task.estimatedHours task' = TaskData.estimatedHours taskData
              /\ Task.category task' = TaskData.category taskData))
  /\ (~ In (Task.id editing) (map Task.id (App.tasks st)) ->
      App.tasks st' = App.tasks st).
Proof.
  intros st'. unfold st'. rewrite updateTask_tasks. split; [ | split ].
  - apply length_map.
  - intros i task Hnth. rewrite nth_error_map, Hnth. simpl.
    eexists. split; [ reflexivity | ]. split.
    + intros Hne. now rewrite (proj2 (String.eqb_neq _ _) Hne).
    + intros Heq. rewrite (proj2 (String.eqb_eq _ _) Heq). simpl.
      repeat split; reflexivity.
  - intros Hnotin. rewrite <- (map_id (App.tasks st)) at 2.
    apply map_ext_in. intros task Hin.
    destruct (Task.id task =? Task.id editing) eqn:Heq; [ | reflexivity ].
    apply String.eqb_eq in Heq. exfalso. apply Hnotin.
    rewrite <- Heq. now apply in_map.
Qed.

Lemma updateTask_replaces_input_fields_witness :
  (exists task',
      nth_error (App.tasks (App.updateTask
                              {| Task.id := "4"; Task.title := "";
                                 Task.description := ""; Task.status := pending;
                                 Task.priority := medium; Task.assignedTo := [];
                                 Task.createdAt := 0; Task.activatedAt := None;
                                 Task.completedAt := None;
                                 Task.estimatedHours := 2;
                                 Task.category := "Seguridad" |}
                              (Sample.taskData active) "x" 900
                              App.initialState)) 2
      = Some task'
      /\ Task.createdAt task' = App.jan2025 10 14 0
      /\ Task.status task' = active
      /\ Task.title task' = "Inspeccion de valvulas")
  /\ App.tasks (App.updateTask
                  {| Task.id := "99"; Task.title := "";
                     Task.description := ""; Task.status := pending;
                     Task.priority := medium; Task.assignedTo := [];
                     Task.createdAt := 0; Task.activatedAt := None;
                     Task.completedAt := None;
                     Task.estimatedHours := 2;
                     Task.category := "Seguridad" |}
                  (Sample.taskData active) "x" 900 App.initialState)
     = App.initialTasks.
Proof.
  split.
  - match goal with
    | |- context [App.updateTask ?e ?d ?i ?n ?s] =>
        destruct (updateTask_replaces_input_fields s e d i n)
          as (_ & Hfields & _)
    end.
    destruct (Hfields 2%nat _ eq_refl) as (task' & Hnth & _ & Hsame).
    destruct (Hsame eq_refl) as (_ & Hc & _ & _ & Ht & _ & Hs & _).
    exists task'. repeat split; assumption.
  - match goal with
    | |- context [App.updateTask ?e ?d ?i ?n ?s] =>
        destruct (updateTask_replaces_input_fields s e d i n)
          as (_ & _ & Hnoop)
    end.
    apply Hnoop. vm_compute. intuition discriminate.
Defined.

(** ** The filter *)

Section Filter.

Variable toLowerCase : string -> string.

Lemma existsb_eqb_in_dec (x : string) (l : list string) :
  existsb (String.eqb x) l = if in_dec string_dec x l then true else false.
Proof.
  destruct (in_dec string_dec x l) as [Hin | Hnotin].
  - apply existsb_exists. exists x. split; [ assumption | apply String.eqb_refl ].
  - apply not_true_is_false. intros Hex. apply existsb_exists in Hex.
    destruct Hex as [y [Hy Heq]]. apply String.eqb_eq in Heq. congruence.
Qed.

(** The callback of the source and the conjunction of the specification
    agree on every task. *)
Lemma keepTask_satisfies (f : App.Filters) (task : Task.t) :
  App.keepTask toLowerCase f (toLowerCase (App.searchTerm f)) task
  = FilterSpec.satisfies toLowerCase f task.
Proof.
  unfold App.keepTask, FilterSpec.satisfies, FilterSpec.matchesSearch,
    FilterSpec.matchesStatus, FilterSpec.matchesPriority,
    FilterSpec.matchesCategory, FilterSpec.matchesPersonnel,
    FilterSpec.containsIgnoringCase.
  rewrite eqb_empty_truthy, existsb_eqb_in_dec.
  destruct (truthy (App.searchTerm f)); simpl;
    [ destruct (includes (toLowerCase (Task.title task)) _
                || includes (toLowerCase (Task.description task)) _); simpl;
      [ | reflexivity ] | ];
    (destruct (App.statusFilter f =? "all"); simpl;
     [ | destruct (statusString (Task.status task) =? App.statusFilter f);
         simpl; [ | reflexivity ] ]);
    (destruct (App.priorityFilter f =? "all"); simpl;
     [ | destruct (priorityString (Task.priority task)
                   =? App.priorityFilter f); simpl; [ | reflexivity ] ]);
    (destruct (App.categoryFilter f =? "all"); simpl;
     [ | destruct (Task.category task =? App.categoryFilter f);
         simpl; [ | reflexivity ] ]);
    (destruct (App.personnelFilter f =? "all"); simpl; [ reflexivity | ]);
    (destruct (App.personnelFilter f =? "unassigned"); simpl;
     [ destruct (Task.assignedTo task); reflexivity
     | destruct (in_dec string_dec _ _); reflexivity ]).
Qed.

Lemma filter_subsequence {A : Type} (p : A -> bool) (l : list A) :
  FilterSpec.subsequence (filter p l) l.
Proof.
  induction l as [ | x l IH ]; simpl; [ constructor | ].
  destruct (p x); constructor; assumption.
Qed.

Lemma matchesSearch_iff (f : App.Filters) (task : Task.t) :
  FilterSpec.matchesSearch toLowerCase f task = true <->
  App.searchTerm f = ""
  \/ includes (toLowerCase (Task.title task))
              (toLowerCase (App.searchTerm f)) = true
  \/ includes (toLowerCase (Task.description task))
              (toLowerCase (App.searchTerm f)) = true.
Proof.
  unfold FilterSpec.matchesSearch, FilterSpec.containsIgnoringCase.
  destruct (String.eqb_spec (App.searchTerm f) "") as [Hs | Hs].
  - split; auto.
  - rewrite orb_true_iff. split; [ auto | intros [H | H]; [ contradiction | exact H ] ].
Qed.

Lemma all_or_equal_iff (filter value : string) :
  (if filter =? "all" then true else value =? filter) = true <->
  filter = "all" \/ value = filter.
Proof.
  destruct (String.eqb_spec filter "all") as [Ha | Ha].
  - split; auto.
  - rewrite String.eqb_eq. split; [ auto | intros [H | H]; [ contradiction | exact H ] ].
Qed.

Lemma matchesPersonnel_iff (f : App.Filters) (task : Task.t) :
  FilterSpec.matchesPersonnel f task = true <->
  App.personnelFilter f = "all"
  \/ (App.personnelFilter f = "unassigned" /\ Task.assignedTo task = [])
  \/ (App.personnelFilter f <> "unassigned"
      /\ In (App.personnelFilter f) (Task.assignedTo task)).
Proof.
  unfold FilterSpec.matchesPersonnel.
  destruct (String.eqb_spec (App.personnelFilter f) "all") as [Ha | Ha];
    [ split; auto | ].
  destruct (String.eqb_spec (App.personnelFilter f) "unassigned")
    as [Hu | Hu].
  - destruct (Task.assignedTo task) as [ | x l ].
    + split; auto.
    + split; [ discriminate | ].
      intros [H | [[_ H] | [H _]]]; [ contradiction | discriminate | contradiction ].
  - destruct (in_dec string_dec _ _) as [Hin | Hnotin].
    + split; auto.
    + split; [ discriminate | ].
      intros [H | [[H _] | [_ H]]]; contradiction.
Qed.

(** What the conjunction of the specification says of one task. *)
Lemma satisfies_iff (f : App.Filters) (task : Task.t) :
  FilterSpec.satisfies toLowerCase f task = true <->
  (App.searchTerm f = ""
   \/ includes (toLowerCase (Task.title task))
               (toLowerCase (App.searchTerm f)) = true
   \/ includes (toLowerCase (Task.description task))
               (toLowerCase (App.searchTerm f)) = true)
  /\ (App.statusFilter f = "all"
      \/ statusString (Task.status task) = App.statusFilter f)
  /\ (App.priorityFilter f = "all"
      \/ priorityString (Task.priority task) = App.priorityFilter f)
  /\ (App.categoryFilter f = "all"
      \/ Task.category task = App.categoryFilter f)
  /\ (App.personnelFilter f = "all"
      \/ (App.personnelFilter f = "unassigned" /\ Task.assignedTo task = [])
      \/ (App.personnelFilter f <> "unassigned"
          /\ In (App.personnelFilter f) (Task.assignedTo task))).
Proof.
  unfold FilterSpec.satisfies. rewrite !andb_true_iff.
  rewrite matchesSearch_iff, matchesPersonnel_iff.
  unfold FilterSpec.matchesStatus, FilterSpec.matchesPriority,
    FilterSpec.matchesCategory.
  rewrite !all_or_equal_iff. tauto.
Qed.

(** C5: [filteredTasks] is the task array filtered by the conjunction of
    the five predicates of the specification: a task is in the result
    exactly when it is in the array and passes the search (empty term, or
    the lower-cased term inside the lower-cased title or description), the
    status, priority and category filters ('all' or equal) and the
    personnel filter ('all'; 'unassigned' and nobody assigned; otherwise a
    member of [assignedTo]); the result keeps the order of the array. *)
Theorem filteredTasks_is_conjunctive_filter (tasks : list Task.t)
    (f : App.Filters) :
  App.filteredTasks toLowerCase tasks f
  = filter (FilterSpec.satisfies toLowerCase f) tasks
  /\ (forall task,
        In task (App.filteredTasks toLowerCase tasks f) <->
        In task tasks
        /\ (App.searchTerm f = ""
            \/ includes (toLowerCase (Task.title task))
                        (toLowerCase (App.searchTerm f)) = true
            \/ includes (toLowerCase (Task.description task))
                        (toLowerCase (App.searchTerm f)) = true)
        /\ (App.statusFilter f = "all"
            \/ statusString (Task.status task) = App.statusFilter f)
        /\ (App.priorityFilter f = "all"
            \/ priorityString (Task.priority task) = App.priorityFilter f)
        /\ (App.categoryFilter f = "all"
            \/ Task.category task = App.categoryFilter f)
        /\ (App.personnelFilter f = "all"
            \/ (App.personnelFilter f = "unassigned"
                /\ Task.assignedTo task = [])
            \/ (App.personnelFilter f <> "unassigned"
                /\ In (App.personnelFilter f) (Task.assignedTo task))))
  /\ FilterSpec.subsequence (App.filteredTasks toLowerCase tasks f) tasks.
Proof.
  assert (Heq : App.filteredTasks toLowerCase tasks f
                = filter (FilterSpec.satisfies toLowerCase f) tasks).
  { unfold App.filteredTasks. destruct tasks as [ | t ts ]; [ reflexivity | ].
    cbn [List.length Nat.eqb]. apply filter_ext. intros task.
    apply keepTask_satisfies. }
  split; [ exact Heq | ]. rewrite Heq. split.
  - intros task. rewrite filter_In, satisfies_iff. reflexivity.
  - apply filter_subsequence.
Qed.
End Filter.

(** Scenario D of the specification. *)
Lemma scenario_unassigned :
  App.filteredTasks latin1LowerCase
    [Sample.task "a" pending []; Sample.task "b" pending ["p1"]]
    Sample.unassignedOnly
  = [Sample.task "a" pending []].
Proof. reflexivity. Qed.

Lemma search_ignores_case :
  App.filteredTasks latin1LowerCase
    [Sample.task "a" pending []; Sample.task "b" pending ["p1"]]
    {| App.searchTerm := "VALVULAS"; App.statusFilter := "pending";
       App.priorityFilter := "all"; App.categoryFilter := "Mantenimiento";
       App.personnelFilter := "p1" |}
  = [Sample.task "b" pending ["p1"]].
Proof. reflexivity. Qed.

(** ** The dashboard *)

Lemma countOf_bounds {A : Type} (p : A -> bool) (xs : list A) :
  (0 <= Dashboard.countOf p xs <= Z.of_nat (List.length xs))%Z.
Proof.
  unfold Dashboard.countOf. pose proof (filter_length_le p xs). lia.
Qed.

Lemma status_partition (tasks : list Task.t) :
  (List.length (filter (fun t => Status_eqb (Task.status t) pending) tasks)
   + List.length (filter (fun t => Status_eqb (Task.status t) active) tasks)
   + List.length (filter (fun t => Status_eqb (Task.status t) completed) tasks)
   = List.length tasks)%nat.
Proof.
  induction tasks as [ | t tasks IH ]; [ reflexivity | ]. simpl.
  destruct (Task.status t); simpl; lia.
Qed.

(** *** Arithmetic on Numbers

    The two percentages of the dashboard are computed in binary64.  What
    follows bounds the rounding of one division and one multiplication of
    counts, from the definitions of the operations. *)

Section Doubles.

Local Open Scope Z_scope.

(** ** The number of binary digits *)

Lemma digits2_pos_size (p : positive) : digits2_pos p = Pos.size p.
Proof. induction p as [ p IH | p IH | ]; simpl; congruence. Qed.

Lemma digits2_pos_bounds (p : positive) :
  2 ^ (Zpos (digits2_pos p) - 1) <= Zpos p < 2 ^ Zpos (digits2_pos p).
Proof.
  rewrite digits2_pos_size. split.
  - pose proof (Pos.size_le p) as Hle.
    assert (H2 : (2 ^ Pos.size p <= p~0)%positive) by exact Hle.
    apply Pos2Z.pos_le_pos in H2. rewrite Pos2Z.inj_pow in H2.
    replace (Zpos (Pos.size p)) with (Zpos (Pos.size p) - 1 + 1) in H2 by lia.
    rewrite Z.pow_add_r in H2 by lia. lia.
  - pose proof (Pos.size_gt p) as Hgt.
    apply Pos2Z.pos_lt_pos in Hgt. now rewrite Pos2Z.inj_pow in Hgt.
Qed.

(** The digits of a number between two powers of two. *)
Lemma digits2_pos_unique (p : positive) (d : Z) :
  2 ^ (d - 1) <= Zpos p < 2 ^ d -> 0 < d -> Zpos (digits2_pos p) = d.
Proof.
  intros [Hlo Hhi] Hd. pose proof (digits2_pos_bounds p) as [Hlo' Hhi'].
  set (d' := Zpos (digits2_pos p)) in *.
  assert (Hd' : 0 < d') by (unfold d'; lia).
  destruct (Z.lt_trichotomy d' d) as [Hlt | [Heq | Hgt]]; [ | exact Heq | ].
  - exfalso. assert (2 ^ d' <= 2 ^ (d - 1)) by (apply Z.pow_le_mono_r; lia).
    lia.
  - exfalso. assert (2 ^ d <= 2 ^ (d' - 1)) by (apply Z.pow_le_mono_r; lia).
    lia.
Qed.

(** ** Shifting a mantissa to the right *)

Lemma shr_1_spec (mrs : shr_record) (r D : Z) :
  0 <= shr_m mrs -> Number.recEncodes mrs r D ->
  exists r',
    shr_m mrs * D + r = shr_m (shr_1 mrs) * (2 * D) + r'
    /\ 0 <= shr_m (shr_1 mrs)
    /\ shr_m (shr_1 mrs) = shr_m mrs / 2
    /\ Number.recEncodes (shr_1 mrs) r' (2 * D).
Proof.
  destruct mrs as [m rb sb]. unfold Number.recEncodes.
  cbn [shr_m shr_r shr_s]. intros Hm [Hr Hbits].
  exists ((m mod 2) * D + r).
  assert (Hcases : (m / 2 = shr_m (shr_1 (Build_shr_record m rb sb)))
                   /\ shr_r (shr_1 (Build_shr_record m rb sb))
                      = (m mod 2 =? 1)
                   /\ shr_s (shr_1 (Build_shr_record m rb sb)) = rb || sb).
  { destruct m as [ | [ p | p | ] | p ]; try lia;
      cbn [shr_1 shr_m shr_r shr_s].
    - repeat split; reflexivity.
    - rewrite <- (Z.div_unique (Zpos p~1) 2 (Zpos p) 1) by lia.
      rewrite <- (Z.mod_unique (Zpos p~1) 2 (Zpos p) 1) by lia.
      repeat split; reflexivity.
    - rewrite <- (Z.div_unique (Zpos p~0) 2 (Zpos p) 0) by lia.
      rewrite <- (Z.mod_unique (Zpos p~0) 2 (Zpos p) 0) by lia.
      repeat split; reflexivity.
    - repeat split; reflexivity. }
  destruct Hcases as (Hq & Hrb & Hsb). rewrite <- Hq, Hrb, Hsb.
  pose proof (Z.div_mod m 2 ltac:(lia)) as Hdm.
  pose proof (Z.mod_pos_bound m 2 ltac:(lia)) as Hmod.
  assert (Hhalf : 0 <= m / 2) by (apply Z.div_pos; lia).
  assert (Hbit : m mod 2 = 0 \/ m mod 2 = 1) by lia.
  destruct Hbit as [Hbit | Hbit]; rewrite Hbit in *;
    cbn [Z.eqb Pos.eqb]; destruct rb, sb; cbn [orb];
    repeat split; try lia; try nia.
Qed.

(** [iter_pos] is iteration. *)
Lemma iter_pos_nat {A : Type} (f : A -> A) (p : positive) (x : A) :
  iter_pos f p x = Nat.iter (Pos.to_nat p) f x.
Proof.
  revert x. induction p as [ p IH | p IH | ]; intros x.
  - rewrite Pos2Nat.inj_xI. cbn [iter_pos]. rewrite !IH.
    replace (S (2 * Pos.to_nat p))
      with (Pos.to_nat p + (Pos.to_nat p + 1))%nat by lia.
    rewrite !Nat.iter_add. reflexivity.
  - rewrite Pos2Nat.inj_xO. cbn [iter_pos]. rewrite !IH.
    replace (2 * Pos.to_nat p)%nat
      with (Pos.to_nat p + Pos.to_nat p)%nat by lia.
    rewrite Nat.iter_add. reflexivity.
  - reflexivity.
Qed.

Lemma shr_iter_spec (k : nat) :
  forall (mrs : shr_record) (r D : Z),
    0 <= shr_m mrs -> 0 < D -> Number.recEncodes mrs r D ->
    exists r',
      shr_m mrs * D + r
      = shr_m (Nat.iter k shr_1 mrs) * (2 ^ Z.of_nat k * D) + r'
      /\ 0 <= shr_m (Nat.iter k shr_1 mrs)
      /\ shr_m (Nat.iter k shr_1 mrs) = shr_m mrs / 2 ^ Z.of_nat k
      /\ Number.recEncodes (Nat.iter k shr_1 mrs) r' (2 ^ Z.of_nat k * D).
Proof.
  induction k as [ | k IH ]; intros mrs r D Hm HD Henc.
  - exists r. change (Nat.iter 0 shr_1 mrs) with mrs.
    change (Z.of_nat 0) with 0. rewrite Z.pow_0_r, Z.mul_1_l, Z.div_1_r.
    split; [ reflexivity | split; [ assumption | split; [ reflexivity | assumption ] ] ].
  - destruct (IH mrs r D Hm HD Henc) as (r1 & Hval & Hpos & Hdiv & Henc1).
    destruct (shr_1_spec _ r1 _ Hpos Henc1) as (r2 & Hval2 & Hpos2 & Hdiv2 & Henc2).
    exists r2. rewrite Nat2Z.inj_succ, Z.pow_succ_r by lia.
    change (Nat.iter (S k) shr_1 mrs) with (shr_1 (Nat.iter k shr_1 mrs)).
    replace (2 * 2 ^ Z.of_nat k * D) with (2 * (2 ^ Z.of_nat k * D)) by ring.
    assert (Hpow : 0 < 2 ^ Z.of_nat k) by (apply Z.pow_pos_nonneg; lia).
    split; [ lia | split; [ assumption | split; [ | assumption ] ] ].
    rewrite Hdiv2, Hdiv, Z.div_div by lia. f_equal. ring.
Qed.

(** ** Rounding to nearest, ties to even *)

Lemma shr_record_of_loc_m (m : Z) (l : location) :
  shr_m (shr_record_of_loc m l) = m.
Proof. destruct l as [ | [ | | ] ]; reflexivity. Qed.

Lemma loc_of_shr_record_of_loc (m : Z) (l : location) :
  loc_of_shr_record (shr_record_of_loc m l) = l.
Proof. destruct l as [ | [ | | ] ]; reflexivity. Qed.

Lemma round_nearest_even_spec (mrs : shr_record) (r D : Z) :
  0 < D -> Number.recEncodes mrs r D ->
  let n := round_nearest_even (shr_m mrs) (loc_of_shr_record mrs) in
  (n = shr_m mrs \/ n = shr_m mrs + 1)
  /\ 2 * Z.abs (n * D - (shr_m mrs * D + r)) <= D.
Proof.
  destruct mrs as [m rb sb]. unfold Number.recEncodes. cbn [shr_m shr_r shr_s].
  intros HD [Hr Hbits].
  destruct rb, sb; cbn [loc_of_shr_record round_nearest_even].
  - split; [ now right | lia ].
  - destruct (Z.even m); split; auto; lia.
  - split; [ now left | lia ].
  - split; [ now left | lia ].
Qed.

Lemma new_location_spec (q D r : Z) :
  0 <= r < D -> Number.recEncodes (shr_record_of_loc q (new_location D r)) r D.
Proof.
  intros Hr. unfold Number.recEncodes, new_location, new_location_even,
    new_location_odd.
  split; [ exact Hr | ].
  destruct (Z.even D) eqn:Heven.
  - destruct (Z.eqb_spec r 0) as [-> | Hne]; [ reflexivity | ].
    change (Z.pos 2 * r) with (2 * r).
    destruct (Z.compare_spec (2 * r) D);
      cbn [shr_record_of_loc shr_r shr_s]; lia.
  - destruct (Z.eqb_spec r 0) as [-> | Hne]; [ reflexivity | ].
    assert (Hodd : Z.odd D = true) by (rewrite <- Z.negb_even, Heven; reflexivity).
    apply Z.odd_spec in Hodd. destruct Hodd as [h Hh].
    destruct (Z.compare_spec (2 * r + 1) D);
      cbn [shr_record_of_loc shr_r shr_s]; lia.
Qed.

Lemma fexp_normal (e : Z) :
  -1074 <= e - 53 -> fexp Number.prec Number.emax e = e - 53.
Proof. unfold fexp, emin, Number.prec, Number.emax. lia. Qed.

(** The shift of [shr_fexp], for a mantissa of at least 53 digits in the
    normal range. *)
Lemma shr_fexp_spec (mx ex : Z) (lx : location) (r D : Z) :
  let d := Zdigits2 mx in
  let k := d - 53 in
  0 < mx -> 0 < D -> Number.recEncodes (shr_record_of_loc mx lx) r D ->
  53 <= d -> -1074 <= d + ex - 53 ->
  exists mrs r',
    shr_fexp Number.prec Number.emax mx ex lx = (mrs, ex + k)
    /\ mx * D + r = shr_m mrs * (2 ^ k * D) + r'
    /\ 2 ^ 52 <= shr_m mrs < 2 ^ 53
    /\ Number.recEncodes mrs r' (2 ^ k * D).
Proof.
  intros d k Hmx HD Henc Hd Hnormal.
  unfold shr_fexp. fold d. rewrite fexp_normal by lia.
  replace (d + ex - 53 - ex) with k by (unfold k; lia).
  assert (Hbounds : 2 ^ (d - 1) <= mx < 2 ^ d).
  { destruct mx as [ | p | p ]; try lia. apply digits2_pos_bounds. }
  assert (Hk : 0 <= k) by (unfold k; lia).
  assert (Hpow : 0 < 2 ^ k) by (apply Z.pow_pos_nonneg; lia).
  assert (Hsplit1 : 2 ^ (d - 1) = 2 ^ 52 * 2 ^ k).
  { rewrite <- Z.pow_add_r by lia. f_equal. unfold k. lia. }
  assert (Hsplit2 : 2 ^ d = 2 ^ 53 * 2 ^ k).
  { rewrite <- Z.pow_add_r by lia. f_equal. unfold k. lia. }
  assert (Hrange : 2 ^ 52 <= mx / 2 ^ k < 2 ^ 53).
  { split.
    - apply Z.div_le_lower_bound; lia.
    - apply Z.div_lt_upper_bound; lia. }
  pose proof (shr_record_of_loc_m mx lx) as Hm0.
  destruct (shr_iter_spec (Z.to_nat k) (shr_record_of_loc mx lx) r D)
    as (r' & Hval & Hpos & Hdiv & Henc'); try assumption; try lia.
  rewrite Z2Nat.id in * by lia. rewrite Hm0 in *.
  exists (Nat.iter (Z.to_nat k) shr_1 (shr_record_of_loc mx lx)), r'.
  split; [ | split; [ exact Hval | split; [ now rewrite Hdiv | exact Henc' ] ] ].
  unfold shr. destruct k as [ | p | p ] eqn:Hkp; try lia.
  - cbn [Z.to_nat Nat.iter nat_rect]. now rewrite Z.add_0_r.
  - rewrite iter_pos_nat. reflexivity.
Qed.

(** What [binary_round_aux] returns for a positive mantissa of at least 53
    digits in the normal range: the mantissa [n] nearest to the exact one,
    renormalised when it reaches 2^53. *)
Lemma binary_round_aux_spec (mx ex : Z) (lx : location) (r D : Z) :
  let d := Zdigits2 mx in
  let k := d - 53 in
  0 < mx -> 0 < D -> Number.recEncodes (shr_record_of_loc mx lx) r D ->
  53 <= d -> -1074 <= d + ex - 53 -> ex + k < 971 ->
  exists (n : Z) (m : positive) (e : Z),
    binary_round_aux Number.prec Number.emax false mx ex lx
    = S754_finite false m e
    /\ 2 ^ 52 * (2 ^ k * D) <= mx * D + r < 2 ^ 53 * (2 ^ k * D)
    /\ 2 * Z.abs (n * (2 ^ k * D) - (mx * D + r)) <= 2 ^ k * D
    /\ 2 ^ 52 <= Zpos m < 2 ^ 53
    /\ ((Zpos m = n /\ e = ex + k)
        \/ (n = 2 ^ 53 /\ Zpos m = 2 ^ 52 /\ e = ex + k + 1)).
Proof.
  intros d k Hmx HD Henc Hd Hnormal Hover.
  destruct (shr_fexp_spec mx ex lx r D Hmx HD Henc Hd Hnormal)
    as (mrs & r' & Hshr & Hval & Hrange & Henc').
  fold d in Hshr, Hval, Henc'. fold k in Hshr, Hval, Henc'.
  assert (Hk : 0 <= k) by (unfold k; lia).
  assert (Hpow : 0 < 2 ^ k) by (apply Z.pow_pos_nonneg; lia).
  assert (HDk : 0 < 2 ^ k * D) by lia.
  destruct (round_nearest_even_spec mrs r' (2 ^ k * D) HDk Henc')
    as [Hn Hnear].
  set (n := round_nearest_even (shr_m mrs) (loc_of_shr_record mrs)) in *.
  unfold binary_round_aux. rewrite Hshr. fold n.
  assert (Hnrange : 2 ^ 52 <= n <= 2 ^ 53) by lia.
  assert (Hexact : 2 ^ 52 * (2 ^ k * D) <= mx * D + r
                   < 2 ^ 53 * (2 ^ k * D)).
  { destruct Henc' as [Hr' _]. rewrite Hval. nia. }
  rewrite <- Hval in Hnear.
  destruct (Z.eq_dec n (2 ^ 53)) as [Htop | Hbelow].
  - exists n, (Z.to_pos (2 ^ 52)), (ex + k + 1).
    split; [ | split; [ exact Hexact | split; [ exact Hnear | ] ] ].
    + rewrite Htop. unfold shr_fexp.
      change (Zdigits2 (2 ^ 53)) with 54.
      rewrite fexp_normal by lia.
      replace (54 + (ex + k) - 53 - (ex + k)) with 1 by lia.
      unfold shr. cbn [iter_pos].
      set (top := shr_1 (shr_record_of_loc (2 ^ 53) loc_Exact)).
      assert (Htopm : shr_m top = Zpos (Z.to_pos (2 ^ 52)))
        by (vm_compute; reflexivity).
      cbv beta iota zeta. rewrite Htopm.
      assert (Hle : (ex + k + 1 <=? Number.emax - Number.prec) = true).
      { apply Z.leb_le. unfold Number.emax, Number.prec. lia. }
      rewrite Hle. reflexivity.
    + assert (Hm52 : Zpos (Z.to_pos (2 ^ 52)) = 2 ^ 52) by reflexivity.
      split; [ rewrite Hm52; lia | right; rewrite Hm52; lia ].
  - assert (Hn53 : 2 ^ 52 <= n < 2 ^ 53) by lia.
    destruct n as [ | p | p ] eqn:Hp; try lia.
    exists (Zpos p), p, (ex + k).
    split; [ | split; [ exact Hexact | split; [ exact Hnear | ] ] ].
    + unfold shr_fexp.
      assert (Hdigits : Zdigits2 (Zpos p) = 53).
      { cbn [Zdigits2]. apply digits2_pos_unique; lia. }
      rewrite Hdigits, fexp_normal by lia.
      replace (53 + (ex + k) - 53 - (ex + k)) with 0 by lia.
      cbn [shr_record_of_loc shr shr_m].
      replace (ex + k <=? Number.emax - Number.prec) with true; [ reflexivity | ].
      symmetry. apply Z.leb_le. unfold Number.emax, Number.prec. lia.
    + split; [ lia | left; split; reflexivity ].
Qed.

(** ** Numbers in normal form *)

Lemma iter_xO (p : positive) (k : positive) :
  Zpos (Pos.iter xO p k) = Zpos p * 2 ^ Zpos k.
Proof.
  induction k as [ | k IH ] using Pos.peano_ind.
  - simpl. lia.
  - rewrite Pos.iter_succ, Pos2Z.inj_succ, Z.pow_succ_r by lia.
    rewrite Pos2Z.inj_xO, IH. ring.
Qed.

Lemma exact_mantissa_rounds_to_itself (p : positive) (e : Z) :
  2 ^ 52 <= Zpos p < 2 ^ 53 -> -1074 <= e -> e < 971 ->
  binary_round_aux Number.prec Number.emax false (Zpos p) e loc_Exact
  = S754_finite false p e.
Proof.
  intros Hp Hlo Hhi.
  assert (Hd : Zdigits2 (Zpos p) = 53)
    by (cbn [Zdigits2]; apply digits2_pos_unique; lia).
  destruct (binary_round_aux_spec (Zpos p) e loc_Exact 0 1)
    as (n & m & e' & Hres & _ & Hnear & Hm & Hcases);
    try rewrite Hd; try lia.
  - split; [ lia | reflexivity ].
  - rewrite Hres. rewrite Hd in *.
    replace (53 - 53) with 0 in * by lia. rewrite Z.pow_0_r in *.
    assert (Hn : n = Zpos p) by lia.
    destruct Hcases as [[Hmn He] | [Htop _]]; [ | lia ].
    f_equal; [ | lia ]. apply Pos2Z.inj. lia.
Qed.

(** [ofZ] of a positive integer below 2^53 is exact. *)
Lemma ofZ_spec (n : Z) :
  0 < n < 2 ^ 53 ->
  exists m e,
    Number.isNormal (Number.ofZ n) m e
    /\ -52 <= e <= 0
    /\ n * 2 ^ (- e) = Zpos m.
Proof.
  intros [Hpos Hlt]. destruct n as [ | p | p ]; try lia.
  unfold Number.ofZ, binary_normalize, binary_round.
  pose proof (digits2_pos_bounds p) as Hbounds.
  set (d := Zpos (digits2_pos p)) in *.
  assert (Hd : 1 <= d <= 53).
  { split; [ unfold d; lia | ].
    destruct (Z_le_gt_dec d 53) as [Hle | Hgt]; [ exact Hle | exfalso ].
    assert (2 ^ 53 <= 2 ^ (d - 1)) by (apply Z.pow_le_mono_r; lia). lia. }
  rewrite Z.add_0_r, fexp_normal by lia.
  unfold shl_align. replace (d - 53 - 0) with (d - 53) by lia.
  destruct (d - 53) as [ | k | k ] eqn:Hk; try lia.
  - assert (d = 53) by lia. subst d.
    exists p, 0. split; [ | split; [ lia | simpl; lia ] ].
    split; [ | replace (2 ^ 52) with (2 ^ (Z.pos (digits2_pos p) - 1))
                 by (f_equal; lia); lia ].
    apply exact_mantissa_rounds_to_itself; try lia.
    replace (2 ^ 52) with (2 ^ (Z.pos (digits2_pos p) - 1)) by (f_equal; lia).
    replace (2 ^ 53) with (2 ^ Z.pos (digits2_pos p)) by (f_equal; lia).
    exact Hbounds.
  - assert (Hshift : Zpos (Pos.iter xO p k) = Zpos p * 2 ^ (53 - d)).
    { rewrite iter_xO. f_equal. f_equal. lia. }
    assert (Hrange : 2 ^ 52 <= Zpos (Pos.iter xO p k) < 2 ^ 53).
    { rewrite Hshift.
      assert (Hpow : 0 < 2 ^ (53 - d)) by (apply Z.pow_pos_nonneg; lia).
      assert (H52 : 2 ^ 52 = 2 ^ (d - 1) * 2 ^ (53 - d)).
      { rewrite <- Z.pow_add_r by lia. f_equal. lia. }
      assert (H53 : 2 ^ 53 = 2 ^ d * 2 ^ (53 - d)).
      { rewrite <- Z.pow_add_r by lia. f_equal. lia. }
      rewrite H52, H53. nia. }
    exists (Pos.iter xO p k), (Zneg k).
    split; [ | split; [ lia | rewrite Hshift; f_equal; f_equal; lia ] ].
    split; [ | exact Hrange ].
    apply exact_mantissa_rounds_to_itself; lia.
Qed.

(** ** Powers of two as rationals *)

Local Open Scope Q_scope.

Lemma pow2_pos (e : Z) : 0 < Number.pow2 e.
Proof. unfold Number.pow2. apply Qpower_0_lt. reflexivity. Qed.

Lemma pow2_add (a b : Z) : Number.pow2 (a + b) == Number.pow2 a * Number.pow2 b.
Proof. unfold Number.pow2. apply Qpower_plus. discriminate. Qed.

Lemma pow2_succ (e : Z) : Number.pow2 (e + 1) == 2 * Number.pow2 e.
Proof. rewrite pow2_add. unfold Number.pow2 at 2. simpl (2 ^ 1). ring. Qed.

Lemma pow2_inject (k : Z) : (0 <= k)%Z -> inject_Z (2 ^ k) == Number.pow2 k.
Proof. intros Hk. unfold Number.pow2. now rewrite Zpower_Qpower. Qed.

Lemma pow2_le (a b : Z) : (a <= b)%Z -> Number.pow2 a <= Number.pow2 b.
Proof.
  intros Hab. unfold Number.pow2. apply Qpower_le_compat_l; [ exact Hab | ].
  discriminate.
Qed.

Lemma pow2_double_le (a b : Z) :
  (a < b)%Z -> 2 * Number.pow2 a <= Number.pow2 b.
Proof.
  intros Hab. rewrite <- pow2_succ. apply pow2_le. lia.
Qed.

(** An integer certificate of rounding, read as rationals. *)
Lemma certificate_as_rationals (N D n : Z) (xi : Q) :
  (0 < D)%Z -> (2 ^ 52 * D <= N < 2 ^ 53 * D)%Z ->
  (2 * Z.abs (n * D - N) <= D)%Z ->
  xi * inject_Z D == inject_Z N ->
  4503599627370496 <= xi < 9007199254740992
  /\ xi - (1 # 2) <= inject_Z n <= xi + (1 # 2).
Proof.
  intros HD [Hlo Hhi] Hn Hxi.
  assert (Hn1 : (2 * (n * D + - N) <= D)%Z) by lia.
  assert (Hn2 : (2 * (N + - (n * D)) <= D)%Z) by lia.
  rewrite Zle_Qle in Hlo, Hn1, Hn2. rewrite Zlt_Qlt in Hhi, HD.
  repeat rewrite ?inject_Z_mult, ?inject_Z_plus, ?inject_Z_opp in *.
  change (inject_Z (2 ^ 52)) with 4503599627370496 in *.
  change (inject_Z (2 ^ 53)) with 9007199254740992 in *.
  change (inject_Z 2) with 2 in *. change (inject_Z 0) with 0 in *.
  set (d := inject_Z D) in *. set (nn := inject_Z n) in *.
  set (NN := inject_Z N) in *.
  repeat split; nra.
Qed.

(** ** What a correctly rounded result satisfies *)

Lemma roundsTo_value (X : Q) (m : positive) (e : Z) :
  Number.roundsTo X m e ->
  exists (n E : Z) (xi : Q),
    X == xi * Number.pow2 E
    /\ Number.value m e == inject_Z n * Number.pow2 E
    /\ 4503599627370496 <= xi < 9007199254740992
    /\ xi - (1 # 2) <= inject_Z n <= xi + (1 # 2).
Proof.
  intros (n & E & xi & HX & Hxi & Hn & Hcases).
  exists n, E, xi. repeat split; try tauto.
  unfold Number.value. destruct Hcases as [[Hm He] | (Hn53 & Hm & He)].
  - now rewrite Hm, He.
  - rewrite Hm, He, Hn53, pow2_succ.
    change (inject_Z (2 ^ 52)) with 4503599627370496.
    change (inject_Z (2 ^ 53)) with 9007199254740992. ring.
Qed.

(** The relative error of one rounding is at most 2^-53. *)
Lemma roundsTo_error (X : Q) (m : positive) (e : Z) :
  Number.roundsTo X m e ->
  0 < X
  /\ (Number.value m e - X) * 9007199254740992 <= X
  /\ (X - Number.value m e) * 9007199254740992 <= X.
Proof.
  intros H. destruct (roundsTo_value _ _ _ H)
    as (n & E & xi & HX & Hv & [Hlo Hhi] & [Hn1 Hn2]).
  pose proof (pow2_pos E) as Hp.
  rewrite Hv, HX. set (p := Number.pow2 E) in *. set (nn := inject_Z n) in *.
  repeat split; nra.
Qed.

(** Rounding never crosses a double: a result of rounding [X] stays
    below every double [X] is below. *)
Lemma roundsTo_le (X : Q) (m : positive) (e : Z) (b : positive) (eb : Z) :
  Number.roundsTo X m e ->
  (2 ^ 52 <= Zpos b < 2 ^ 53)%Z ->
  X <= Number.value b eb ->
  (e < eb)%Z \/ (e = eb /\ (Zpos m <= Zpos b)%Z).
Proof.
  intros (n & E & xi & HX & [Hlo Hhi] & [Hn1 Hn2] & Hcases) [Hb1 Hb2] Hle.
  unfold Number.value in Hle. rewrite HX in Hle.
  rewrite Zle_Qle in Hb1. rewrite Zlt_Qlt in Hb2.
  change (inject_Z (2 ^ 52)) with 4503599627370496 in *.
  change (inject_Z (2 ^ 53)) with 9007199254740992 in *.
  pose proof (pow2_pos E) as HpE. pose proof (pow2_pos eb) as Hpb.
  destruct (Z_lt_le_dec eb E) as [Hgt | HEle].
  - exfalso. pose proof (pow2_double_le eb E Hgt) as Hd.
    set (p := Number.pow2 E) in *. set (q := Number.pow2 eb) in *.
    set (bb := inject_Z (Zpos b)) in *. nra.
  - destruct (Z.eq_dec E eb) as [Heq | Hne].
    + subst eb. assert (Hxb : xi <= inject_Z (Zpos b)).
      { set (p := Number.pow2 E) in *. set (bb := inject_Z (Zpos b)) in *.
        nra. }
      assert (Hnb : (n <= Zpos b)%Z).
      { destruct (Z_le_gt_dec n (Zpos b)) as [Hok | Hbad]; [ exact Hok | ].
        exfalso. assert (Hbad' : (Zpos b + 1 <= n)%Z) by lia.
        rewrite Zle_Qle, inject_Z_plus in Hbad'.
        change (inject_Z 1) with 1 in Hbad'. lra. }
      destruct Hcases as [[Hm He] | (Hn53 & Hm & He)].
      * right. split; [ exact He | lia ].
      * exfalso. subst n.
        assert (Hlt : (Zpos b < 2 ^ 53)%Z).
        { rewrite Zlt_Qlt. exact Hb2. }
        lia.
    + destruct Hcases as [[Hm He] | (Hn53 & Hm & He)].
      * left. lia.
      * destruct (Z.eq_dec (E + 1) eb) as [Heq | Hne'].
        -- right. split; [ lia | ].
           assert (Hb1' : (2 ^ 52 <= Zpos b)%Z) by (rewrite Zle_Qle; exact Hb1).
           lia.
        -- left. lia.
Qed.

(** The order of two doubles in normal form is the order of their values. *)
Lemma value_le (m : positive) (e : Z) (b : positive) (eb : Z) :
  (2 ^ 52 <= Zpos m < 2 ^ 53)%Z -> (2 ^ 52 <= Zpos b < 2 ^ 53)%Z ->
  (e < eb)%Z \/ (e = eb /\ (Zpos m <= Zpos b)%Z) ->
  Number.value m e <= Number.value b eb.
Proof.
  intros [Hm1 Hm2] [Hb1 Hb2] Hlex. unfold Number.value.
  rewrite Zle_Qle in Hm1, Hb1. rewrite Zlt_Qlt in Hm2, Hb2.
  change (inject_Z (2 ^ 52)) with 4503599627370496 in *.
  change (inject_Z (2 ^ 53)) with 9007199254740992 in *.
  pose proof (pow2_pos e) as Hpe. pose proof (pow2_pos eb) as Hpb.
  destruct Hlex as [Hlt | [Heq Hle]].
  - pose proof (pow2_double_le e eb Hlt) as Hd.
    set (p := Number.pow2 e) in *. set (q := Number.pow2 eb) in *.
    set (mm := inject_Z (Zpos m)) in *. set (bb := inject_Z (Zpos b)) in *.
    nra.
  - subst eb. rewrite Zle_Qle in Hle.
    set (p := Number.pow2 e) in *.
    set (mm := inject_Z (Zpos m)) in *. set (bb := inject_Z (Zpos b)) in *.
    nra.
Qed.

(** ** Division and multiplication of doubles in normal form *)

Local Open Scope Z_scope.

Lemma pow2_sub (a b : Z) :
  (Number.pow2 (a - b) == Number.pow2 a / Number.pow2 b)%Q.
Proof. unfold Number.pow2. apply Qpower_minus. discriminate. Qed.

Lemma digits_normal (m : positive) :
  2 ^ 52 <= Zpos m < 2 ^ 53 -> Zdigits2 (Zpos m) = 53.
Proof. intros Hm. cbn [Zdigits2]. apply digits2_pos_unique; lia. Qed.

Lemma digits_between (q lo hi : Z) :
  0 <= lo -> 2 ^ lo <= q < 2 ^ hi -> lo < Zdigits2 q <= hi.
Proof.
  intros Hlo [Hq1 Hq2].
  assert (Hpos : 0 < 2 ^ lo) by (apply Z.pow_pos_nonneg; lia).
  destruct q as [ | p | p ]; try lia.
  cbn [Zdigits2]. pose proof (digits2_pos_bounds p) as [Hd1 Hd2].
  set (d := Zpos (digits2_pos p)) in *.
  assert (Hd : 0 < d) by (unfold d; lia).
  split.
  - destruct (Z_lt_le_dec lo d) as [Hok | Hbad]; [ exact Hok | exfalso ].
    assert (2 ^ d <= 2 ^ lo) by (apply Z.pow_le_mono_r; lia). lia.
  - destruct (Z_le_gt_dec d hi) as [Hok | Hbad]; [ exact Hok | exfalso ].
    assert (2 ^ hi <= 2 ^ (d - 1)) by (apply Z.pow_le_mono_r; lia). lia.
Qed.

Lemma SFdiv_core_normal (m1 m2 : positive) (e1 e2 : Z) :
  2 ^ 52 <= Zpos m1 < 2 ^ 53 -> 2 ^ 52 <= Zpos m2 < 2 ^ 53 ->
  -1074 <= e1 - e2 - 53 ->
  SFdiv_core_binary Number.prec Number.emax (Zpos m1) e1 (Zpos m2) e2
  = (Zpos m1 * 2 ^ 53 / Zpos m2, e1 - e2 - 53,
     new_location (Zpos m2) ((Zpos m1 * 2 ^ 53) mod Zpos m2)).
Proof.
  intros Hm1 Hm2 He. unfold SFdiv_core_binary.
  rewrite !digits_normal by assumption.
  replace (53 + e1 - (53 + e2)) with (e1 - e2) by lia.
  rewrite fexp_normal by lia.
  rewrite Z.min_l by lia.
  replace (e1 - e2 - (e1 - e2 - 53)) with 53 by lia.
  rewrite Z.shiftl_mul_pow2 by lia.
  unfold Z.div, Z.modulo.
  destruct (Z.div_eucl (Zpos m1 * 2 ^ 53) (Zpos m2)) as [q r].
  reflexivity.
Qed.

Lemma div_spec (x y : Number.t) (m1 m2 : positive) (e1 e2 : Z) :
  Number.isNormal x m1 e1 -> Number.isNormal y m2 e2 ->
  -400 <= e1 <= 400 -> -400 <= e2 <= 400 ->
  exists m e,
    Number.isNormal (Number.div x y) m e
    /\ Number.roundsTo (Number.value m1 e1 / Number.value m2 e2) m e
    /\ e1 - e2 - 53 <= e <= e1 - e2 - 51.
Proof.
  intros [-> Hm1] [-> Hm2] He1 He2.
  unfold Number.div, SFdiv. cbn [xorb].
  rewrite SFdiv_core_normal by (assumption || lia).
  set (N := Zpos m1 * 2 ^ 53). set (D := Zpos m2).
  pose proof (Z.div_mod N D ltac:(unfold D; lia)) as Hdm.
  pose proof (Z.mod_pos_bound N D ltac:(unfold D; lia)) as Hr.
  set (q := N / D) in *. set (r := N mod D) in *.
  assert (Hq : 2 ^ 52 <= q < 2 ^ 54).
  { unfold N, D in *. split.
    - assert (Hx : 2 ^ 52 * 2 ^ 53 < Zpos m2 * (q + 1)) by nia.
      assert (Hy : Zpos m2 * (q + 1) <= 2 ^ 53 * (q + 1)) by nia.
      lia.
    - assert (Hx : Zpos m2 * q < 2 ^ 53 * 2 ^ 53) by nia.
      assert (Hy : 2 ^ 52 * q <= Zpos m2 * q) by nia.
      lia. }
  pose proof (digits_between q 52 54 ltac:(lia) Hq) as Hd.
  destruct (binary_round_aux_spec q (e1 - e2 - 53) (new_location D r) r D)
    as (n & m & e & Hres & Hrange & Hnear & Hm & Hcases);
    try lia.
  - now apply new_location_spec.
  - exists m, e. split; [ split; assumption | ].
    set (k := Zdigits2 q - 53) in *.
    assert (Hk : 0 <= k <= 1) by (unfold k; lia).
    split; [ | lia ].
    replace (q * D + r) with N in * by lia.
    assert (HD : 0 < 2 ^ k * D).
    { apply Z.mul_pos_pos; [ apply Z.pow_pos_nonneg; lia | unfold D; lia ]. }
    set (M1 := inject_Z (Zpos m1)). set (M2 := inject_Z (Zpos m2)).
    assert (HM2 : (0 < M2)%Q) by (unfold M2; change 0%Q with (inject_Z 0); rewrite <- Zlt_Qlt; lia).
    pose proof (pow2_pos k) as Hpk. pose proof (pow2_pos e1) as Hp1.
    pose proof (pow2_pos e2) as Hp2.
    assert (HinjD : (inject_Z (2 ^ k * D) == Number.pow2 k * M2)%Q).
    { rewrite inject_Z_mult, pow2_inject by lia. reflexivity. }
    assert (HinjN : (inject_Z N == M1 * 9007199254740992)%Q).
    { unfold N. rewrite inject_Z_mult. reflexivity. }
    exists n, (e1 - e2 - 53 + k), (inject_Z N / inject_Z (2 ^ k * D))%Q.
    assert (Hnz : ~ (inject_Z (2 ^ k * D) == 0)%Q).
    { rewrite HinjD. intros Hz. nra. }
    split.
    { unfold Number.value. fold M1 M2.
      rewrite pow2_add, !pow2_sub, HinjD, HinjN.
      change (Number.pow2 53) with 9007199254740992%Q.
      field. repeat split; lra. }
    destruct (certificate_as_rationals N (2 ^ k * D) n
                (inject_Z N / inject_Z (2 ^ k * D))%Q HD Hrange Hnear)
      as [Hxi Hn].
    { field. exact Hnz. }
    split; [ exact Hxi | ]. split; [ exact Hn | ].
    exact Hcases.
Qed.

Lemma mul_spec (x y : Number.t) (m1 m2 : positive) (e1 e2 : Z) :
  Number.isNormal x m1 e1 -> Number.isNormal y m2 e2 ->
  -400 <= e1 <= 400 -> -400 <= e2 <= 400 ->
  exists m e,
    Number.isNormal (Number.mul x y) m e
    /\ Number.roundsTo (Number.value m1 e1 * Number.value m2 e2) m e
    /\ e1 + e2 + 52 <= e <= e1 + e2 + 54.
Proof.
  intros [-> Hm1] [-> Hm2] He1 He2.
  unfold Number.mul, SFmul. cbn [xorb].
  rewrite Pos2Z.inj_mul.
  set (N := Zpos m1 * Zpos m2).
  assert (HN : 2 ^ 104 <= N < 2 ^ 106).
  { unfold N. split.
    - assert (Hx : 2 ^ 52 * 2 ^ 52 <= Zpos m1 * Zpos m2) by nia. lia.
    - assert (Hx : Zpos m1 * Zpos m2 < 2 ^ 53 * 2 ^ 53) by nia. lia. }
  pose proof (digits_between N 104 106 ltac:(lia) HN) as Hd.
  destruct (binary_round_aux_spec N (e1 + e2) loc_Exact 0 1)
    as (n & m & e & Hres & Hrange & Hnear & Hm & Hcases);
    try lia.
  - split; [ lia | reflexivity ].
  - exists m, e. split; [ split; assumption | ].
    set (k := Zdigits2 N - 53) in *.
    assert (Hk : 52 <= k <= 53) by (unfold k; lia).
    split; [ | lia ].
    replace (N * 1 + 0) with N in * by lia.
    assert (HD : 0 < 2 ^ k * 1).
    { apply Z.mul_pos_pos; [ apply Z.pow_pos_nonneg; lia | lia ]. }
    set (M1 := inject_Z (Zpos m1)). set (M2 := inject_Z (Zpos m2)).
    pose proof (pow2_pos k) as Hpk. pose proof (pow2_pos e1) as Hp1.
    pose proof (pow2_pos e2) as Hp2.
    assert (HinjD : (inject_Z (2 ^ k * 1) == Number.pow2 k)%Q).
    { rewrite Z.mul_1_r, pow2_inject by lia. reflexivity. }
    assert (HinjN : (inject_Z N == M1 * M2)%Q).
    { unfold N. rewrite inject_Z_mult. reflexivity. }
    exists n, (e1 + e2 + k), (inject_Z N / inject_Z (2 ^ k * 1))%Q.
    assert (Hnz : ~ (inject_Z (2 ^ k * 1) == 0)%Q).
    { rewrite HinjD. intros Hz. lra. }
    split.
    { unfold Number.value. fold M1 M2.
      rewrite !pow2_add, HinjD, HinjN.
      field. lra. }
    destruct (certificate_as_rationals N (2 ^ k * 1) n
                (inject_Z N / inject_Z (2 ^ k * 1))%Q HD Hrange Hnear)
      as [Hxi Hn].
    { field. exact Hnz. }
    split; [ exact Hxi | ]. split; [ exact Hn | ].
    exact Hcases.
Qed.

(** ** A share of a count, as a percentage *)

Lemma ofZ_value (n : Z) :
  0 < n < 2 ^ 53 ->
  exists m e,
    Number.isNormal (Number.ofZ n) m e /\ -52 <= e <= 0
    /\ (Number.value m e == inject_Z n)%Q.
Proof.
  intros Hn. destruct (ofZ_spec n Hn) as (m & e & Hnorm & He & Hm).
  exists m, e. split; [ exact Hnorm | ]. split; [ exact He | ].
  unfold Number.value. rewrite <- Hm, inject_Z_mult, pow2_inject by lia.
  pose proof (pow2_pos e) as Hp.
  replace (- e) with (0 - e) by lia. rewrite pow2_sub.
  change (Number.pow2 0) with 1%Q. field. lra.
Qed.

Lemma ofZ_100 : Number.isNormal (Number.ofZ 100) 7036874417766400 (-46).
Proof. split; [ reflexivity | lia ]. Qed.

Lemma value_100 : (Number.value 7036874417766400 (-46) == 100)%Q.
Proof. reflexivity. Qed.

Lemma value_1 : (Number.value 4503599627370496 (-52) == 1)%Q.
Proof. reflexivity. Qed.

(** The double the program computes for [c / t * 100], for counts
    [0 < c <= t]: it is in normal form, at most 100, and within 200 * 2^-53
    of the exact percentage. *)
Lemma percentage_spec (c t : Z) :
  0 < c <= t -> t < 2 ^ 53 ->
  exists m e,
    Number.isNormal (Number.mul (Number.div (Number.ofZ c) (Number.ofZ t))
                         (Number.ofZ 100)) m e
    /\ (e < -46 \/ (e = -46 /\ Zpos m <= 7036874417766400))
    /\ ((Number.value m e * inject_Z t - 100 * inject_Z c) * 9007199254740992
        <= 200 * inject_Z t)%Q
    /\ ((100 * inject_Z c - Number.value m e * inject_Z t) * 9007199254740992
        <= 200 * inject_Z t)%Q.
Proof.
  intros Hc Ht.
  destruct (ofZ_value c ltac:(lia)) as (mc & ec & Hnc & Hec & Hvc).
  destruct (ofZ_value t ltac:(lia)) as (mt & et & Hnt & Het & Hvt).
  destruct (div_spec _ _ _ _ _ _ Hnc Hnt ltac:(lia) ltac:(lia))
    as (m1 & e1 & Hn1 & Hr1 & He1).
  destruct (mul_spec _ _ _ _ _ _ Hn1 ofZ_100 ltac:(lia) ltac:(lia))
    as (m2 & e2 & Hn2 & Hr2 & He2).
  exists m2, e2. split; [ exact Hn2 | ].
  assert (HC : (0 < inject_Z c)%Q)
    by (change 0%Q with (inject_Z 0); rewrite <- Zlt_Qlt; lia).
  assert (HT : (0 < inject_Z t)%Q)
    by (change 0%Q with (inject_Z 0); rewrite <- Zlt_Qlt; lia).
  assert (HCT : (inject_Z c <= inject_Z t)%Q) by (rewrite <- Zle_Qle; lia).
  set (C := inject_Z c) in *. set (T := inject_Z t) in *.
  (* the quotient *)
  assert (HX1 : (Number.value mc ec / Number.value mt et == C / T)%Q)
    by (rewrite Hvc, Hvt; reflexivity).
  assert (Hq1 : (C / T <= 1)%Q).
  { apply Qle_shift_div_r; [ exact HT | lra ]. }
  assert (Hq0 : (0 < C / T)%Q).
  { apply Qlt_shift_div_l; [ exact HT | lra ]. }
  assert (Hlex1 : e1 < -52 \/ (e1 = -52 /\ Zpos m1 <= Zpos 4503599627370496)).
  { apply (roundsTo_le _ _ _ _ _ Hr1); [ lia | ].
    rewrite HX1, value_1. exact Hq1. }
  assert (Hv1 : (Number.value m1 e1 <= 1)%Q).
  { rewrite <- value_1. apply value_le; [ apply Hn1 | lia | exact Hlex1 ]. }
  destruct (roundsTo_error _ _ _ Hr1) as (_ & Herr1a & Herr1b).
  rewrite HX1 in Herr1a, Herr1b.
  (* the product *)
  assert (HX2 : (Number.value m1 e1 * Number.value 7036874417766400 (-46)
                 == Number.value m1 e1 * 100)%Q)
    by (rewrite value_100; reflexivity).
  assert (Hlex2 : e2 < -46 \/ (e2 = -46 /\ Zpos m2 <= Zpos 7036874417766400)).
  { apply (roundsTo_le _ _ _ _ _ Hr2); [ lia | ].
    rewrite HX2, value_100. lra. }
  split; [ exact Hlex2 | ].
  destruct (roundsTo_error _ _ _ Hr2) as (_ & Herr2a & Herr2b).
  rewrite HX2 in Herr2a, Herr2b.
  set (v1 := Number.value m1 e1) in *. set (v2 := Number.value m2 e2) in *.
  set (Q1 := (C / T)%Q) in *.
  assert (HQ1 : (Q1 * T == C)%Q) by (unfold Q1; field; lra).
  split; nra.
Qed.

(** ** Comparison and [Math.round] *)

Lemma leb_normal (x y : Number.t) (m b : positive) (e eb : Z) :
  Number.isNormal x m e -> Number.isNormal y b eb ->
  (e < eb \/ (e = eb /\ Zpos m <= Zpos b)) ->
  Number.leb x y = true.
Proof.
  intros [-> _] [-> _] Hlex. unfold Number.leb, SFleb, SFcompare.
  destruct Hlex as [Hlt | [-> Hle]].
  - rewrite (proj2 (Z.compare_lt_iff e eb) Hlt). reflexivity.
  - rewrite Z.compare_refl.
    change (Pos.compare_cont Eq m b) with (Pos.compare m b).
    destruct (Pos.compare_spec m b) as [ _ | _ | Hgt ]; try reflexivity.
    exfalso. apply Pos2Z.pos_lt_pos in Hgt. lia.
Qed.

Lemma round_normal (x : Number.t) (m : positive) (e : Z) :
  Number.isNormal x m e ->
  Number.round x = Number.ofZ (Qfloor (Number.value m e + (1 # 2))).
Proof.
  intros [-> _]. unfold Number.round. rewrite andb_false_r. reflexivity.
Qed.

(** Rounding the computed percentage gives an integer nearest to the exact
    one, for counts that fit an array. *)
Lemma nearest_integer (c t k : Z) (v : Q) :
  0 < t < 2 ^ 32 ->
  ((v * inject_Z t - 100 * inject_Z c) * 9007199254740992
   <= 200 * inject_Z t)%Q ->
  ((100 * inject_Z c - v * inject_Z t) * 9007199254740992
   <= 200 * inject_Z t)%Q ->
  k = Qfloor (v + (1 # 2)) ->
  2 * Z.abs (k * t - 100 * c) <= t.
Proof.
  intros [Ht0 Ht] Hup Hdown ->.
  pose proof (Qfloor_le (v + (1 # 2))) as Hfl.
  pose proof (Qlt_floor (v + (1 # 2))) as Hlt.
  set (k := Qfloor (v + (1 # 2))) in *.
  rewrite inject_Z_plus in Hlt. change (inject_Z 1) with 1%Q in Hlt.
  assert (HT0 : (0 < inject_Z t)%Q)
    by (change 0%Q with (inject_Z 0); rewrite <- Zlt_Qlt; lia).
  assert (HT : (inject_Z t < 4294967296)%Q)
    by (change 4294967296%Q with (inject_Z (2 ^ 32)); rewrite <- Zlt_Qlt; lia).
  destruct (Z_le_gt_dec (2 * (k * t + - (100 * c))) t) as [Hok1 | Hbad].
  - destruct (Z_le_gt_dec (2 * (100 * c + - (k * t))) t) as [Hok2 | Hbad].
    + lia.
    + exfalso. assert (Hbad' : t + 1 <= 2 * (100 * c + - (k * t))) by lia.
      rewrite Zle_Qle in Hbad'.
      repeat rewrite ?inject_Z_mult, ?inject_Z_plus, ?inject_Z_opp in Hbad'.
      change (inject_Z 1) with 1%Q in Hbad'.
      change (inject_Z 2) with 2%Q in Hbad'.
      change (inject_Z 100) with 100%Q in Hbad'.
      set (T := inject_Z t) in *. set (C := inject_Z c) in *.
      set (K := inject_Z k) in *. nra.
  - exfalso. assert (Hbad' : t + 1 <= 2 * (k * t + - (100 * c))) by lia.
    rewrite Zle_Qle in Hbad'.
    repeat rewrite ?inject_Z_mult, ?inject_Z_plus, ?inject_Z_opp in Hbad'.
    change (inject_Z 1) with 1%Q in Hbad'.
    change (inject_Z 2) with 2%Q in Hbad'.
    change (inject_Z 100) with 100%Q in Hbad'.
    set (T := inject_Z t) in *. set (C := inject_Z c) in *.
    set (K := inject_Z k) in *. nra.
Qed.

Lemma rounded_percentage_range (m : positive) (e : Z) :
  2 ^ 52 <= Zpos m < 2 ^ 53 ->
  (e < -46 \/ (e = -46 /\ Zpos m <= 7036874417766400)) ->
  0 <= Qfloor (Number.value m e + (1 # 2)) <= 100.
Proof.
  intros Hm Hlex.
  assert (Hle : (Number.value m e <= 100)%Q).
  { rewrite <- value_100. apply value_le; [ exact Hm | lia | exact Hlex ]. }
  assert (Hpos : (0 < Number.value m e)%Q).
  { unfold Number.value. pose proof (pow2_pos e) as Hp.
    assert (HM : (0 < inject_Z (Zpos m))%Q)
      by (change 0%Q with (inject_Z 0); rewrite <- Zlt_Qlt; lia).
    nra. }
  pose proof (Qfloor_le (Number.value m e + (1 # 2))) as Hfl.
  pose proof (Qlt_floor (Number.value m e + (1 # 2))) as Hlt.
  set (k := Qfloor (Number.value m e + (1 # 2))) in *.
  rewrite inject_Z_plus in Hlt. change (inject_Z 1) with 1%Q in Hlt.
  split.
  - destruct (Z_le_gt_dec 0 k) as [Hok | Hbad]; [ exact Hok | exfalso ].
    assert (Hbad' : k + 1 <= 0) by lia.
    rewrite Zle_Qle, inject_Z_plus in Hbad'.
    change (inject_Z 1) with 1%Q in Hbad'. change (inject_Z 0) with 0%Q in Hbad'.
    lra.
  - destruct (Z_le_gt_dec k 100) as [Hok | Hbad]; [ exact Hok | exfalso ].
    assert (Hbad' : 101 <= k) by lia.
    rewrite Zle_Qle in Hbad'. change (inject_Z 101) with 101%Q in Hbad'.
    lra.
Qed.

(** ** Sums of counts are exact *)

Lemma pow2_split (a b : Z) : 0 <= a -> 0 <= b -> 2 ^ (a + b) = 2 ^ a * 2 ^ b.
Proof. intros. apply Z.pow_add_r; assumption. Qed.

Lemma normal_form_unique (s e e' : Z) (m m' : positive) :
  0 < s -> e <= 0 -> e' <= 0 ->
  2 ^ 52 <= Zpos m < 2 ^ 53 -> 2 ^ 52 <= Zpos m' < 2 ^ 53 ->
  s * 2 ^ (- e) = Zpos m -> s * 2 ^ (- e') = Zpos m' ->
  m = m' /\ e = e'.
Proof.
  intros Hs He He' Hm Hm' Hv Hv'.
  assert (Hsame : e = e').
  { destruct (Z.lt_trichotomy e e') as [Hlt | [Heq | Hgt]]; [ | exact Heq | ];
      exfalso.
    - replace (- e) with (- e' + (e' - e)) in Hv by lia.
      rewrite pow2_split in Hv by lia.
      assert (Hp : 2 ^ 1 <= 2 ^ (e' - e)) by (apply Z.pow_le_mono_r; lia).
      change (2 ^ 1) with 2 in Hp. nia.
    - replace (- e') with (- e + (e - e')) in Hv' by lia.
      rewrite pow2_split in Hv' by lia.
      assert (Hp : 2 ^ 1 <= 2 ^ (e - e')) by (apply Z.pow_le_mono_r; lia).
      change (2 ^ 1) with 2 in Hp. nia. }
  subst e'. split; [ | reflexivity ]. apply Pos2Z.inj. lia.
Qed.

(** Normalising [s * 2^g / 2^g], an integer below 2^53 held with [g]
    trailing zero bits, gives the normal form of [s]. *)
Lemma normalize_spec (P : positive) (g s : Z) :
  Zpos P = s * 2 ^ g -> 0 <= g <= 100 -> 0 < s < 2 ^ 53 ->
  exists m e,
    binary_normalize Number.prec Number.emax (Zpos P) (- g) false
    = S754_finite false m e
    /\ 2 ^ 52 <= Zpos m < 2 ^ 53 /\ -52 <= e <= 0
    /\ s * 2 ^ (- e) = Zpos m.
Proof.
  intros HP Hg Hs. destruct s as [ | ps | ps ]; try lia.
  pose proof (digits2_pos_bounds ps) as Hbs.
  set (ds := Zpos (digits2_pos ps)) in *.
  assert (Hds : 1 <= ds <= 53).
  { split; [ unfold ds; lia | ].
    destruct (Z_le_gt_dec ds 53) as [Hle | Hgt]; [ exact Hle | exfalso ].
    assert (2 ^ 53 <= 2 ^ (ds - 1)) by (apply Z.pow_le_mono_r; lia). lia. }
  assert (Hpg : 0 < 2 ^ g) by (apply Z.pow_pos_nonneg; lia).
  assert (HdP : Zpos (digits2_pos P) = ds + g).
  { apply digits2_pos_unique; [ | lia ]. rewrite HP.
    replace (ds + g - 1) with (ds - 1 + g) by lia.
    rewrite !pow2_split by lia. nia. }
  assert (Hps : 0 < 2 ^ (53 - ds)) by (apply Z.pow_pos_nonneg; lia).
  assert (H52 : 2 ^ 52 = 2 ^ (ds - 1) * 2 ^ (53 - ds)).
  { rewrite <- pow2_split by lia. f_equal. lia. }
  assert (H53 : 2 ^ 53 = 2 ^ ds * 2 ^ (53 - ds)).
  { rewrite <- pow2_split by lia. f_equal. lia. }
  assert (Hrange : 2 ^ 52 <= Zpos ps * 2 ^ (53 - ds) < 2 ^ 53).
  { rewrite H52, H53. nia. }
  unfold binary_normalize, binary_round.
  rewrite HdP. replace (ds + g + - g) with ds by lia.
  rewrite fexp_normal by lia.
  unfold shl_align.
  destruct (ds - 53 - - g) as [ | k | k ] eqn:Hk.
  - (* exactly 53 digits *)
    exists P, (- g).
    assert (HPv : Zpos P = Zpos ps * 2 ^ (53 - ds)).
    { rewrite HP. f_equal. f_equal. lia. }
    split; [ apply exact_mantissa_rounds_to_itself; lia | ].
    split; [ lia | ]. split; [ lia | ].
    rewrite HP. f_equal. f_equal. lia.
  - (* more than 53 digits: the low bits are zero *)
    destruct (binary_round_aux_spec (Zpos P) (- g) loc_Exact 0 1)
      as (n & m & e & Hres & _ & Hnear & Hm & Hcases);
      cbn [Zdigits2]; try rewrite HdP; try lia.
    + split; [ lia | reflexivity ].
    + cbn [Zdigits2] in *. rewrite HdP in *.
      set (j := ds + g - 53) in *.
      assert (Hj : 0 < j <= g) by (unfold j; lia).
      assert (Hpj : 0 < 2 ^ j) by (apply Z.pow_pos_nonneg; lia).
      assert (HPj : Zpos P = Zpos ps * 2 ^ (53 - ds) * 2 ^ j).
      { rewrite HP, <- Z.mul_assoc, <- pow2_split by lia.
        f_equal. f_equal. unfold j. lia. }
      assert (Hn : n = Zpos ps * 2 ^ (53 - ds)).
      { rewrite HPj in Hnear.
        replace (n * (2 ^ j * 1) - (Zpos ps * 2 ^ (53 - ds) * 2 ^ j * 1 + 0))
          with ((n - Zpos ps * 2 ^ (53 - ds)) * 2 ^ j) in Hnear by ring.
        rewrite Z.abs_mul, (Z.abs_eq (2 ^ j)) in Hnear by lia.
        assert (Hz : 2 * Z.abs (n - Zpos ps * 2 ^ (53 - ds)) <= 1) by nia.
        lia. }
      destruct Hcases as [[Hmn He] | [Htop _]]; [ | lia ].
      exists m, e. split; [ exact Hres | ]. split; [ exact Hm | ].
      split; [ unfold j in He; lia | ].
      rewrite Hmn, Hn. f_equal. f_equal. unfold j in He. lia.
  - (* fewer than 53 digits: shift left *)
    assert (Hshift : Zpos (Pos.iter xO P k) = Zpos ps * 2 ^ (53 - ds)).
    { rewrite iter_xO, HP, <- Z.mul_assoc, <- pow2_split by lia.
      f_equal. f_equal. lia. }
    exists (Pos.iter xO P k), (ds - 53).
    split; [ apply exact_mantissa_rounds_to_itself; lia | ].
    split; [ lia | ]. split; [ lia | ].
    rewrite Hshift. f_equal. f_equal. lia.
Qed.

Lemma shl_align_value (m : positive) (e ez : Z) :
  ez <= e ->
  Zpos (fst (shl_align m e ez)) = Zpos m * 2 ^ (e - ez).
Proof.
  intros Hle. unfold shl_align.
  destruct (ez - e) as [ | k | k ] eqn:Hk; try lia; cbn [fst].
  - replace (e - ez) with 0 by lia. lia.
  - rewrite iter_xO. f_equal. f_equal. lia.
Qed.

(** Adding two counts as doubles is adding them as integers. *)
Lemma add_ofZ (c a : Z) :
  0 <= c -> 0 <= a -> c + a < 2 ^ 53 ->
  Number.add (Number.ofZ c) (Number.ofZ a) = Number.ofZ (c + a).
Proof.
  intros Hc Ha Hsum.
  destruct (Z.eq_dec c 0) as [-> | Hc0].
  { destruct (Z.eq_dec a 0) as [-> | Ha0]; [ reflexivity | ].
    destruct (ofZ_spec a ltac:(lia)) as (ma & ea & [Hfa _] & _).
    simpl (0 + a). rewrite Hfa. reflexivity. }
  destruct (Z.eq_dec a 0) as [-> | Ha0].
  { destruct (ofZ_spec c ltac:(lia)) as (mc & ec & [Hfc _] & _).
    rewrite Z.add_0_r, Hfc. reflexivity. }
  destruct (ofZ_spec c ltac:(lia)) as (mc & ec & [Hfc Hmc] & Hec & Hvc).
  destruct (ofZ_spec a ltac:(lia)) as (ma & ea & [Hfa Hma] & Hea & Hva).
  destruct (ofZ_spec (c + a) ltac:(lia)) as (ms & es & [Hfs Hms] & Hes & Hvs).
  rewrite Hfc, Hfa, Hfs. unfold Number.add, SFadd. cbn [cond_Zopp].
  set (ez := Z.min ec ea).
  assert (Hez : -52 <= ez <= 0 /\ ez <= ec /\ ez <= ea) by (unfold ez; lia).
  set (p1 := fst (shl_align mc ec ez)). set (p2 := fst (shl_align ma ea ez)).
  change (Zpos p1 + Zpos p2) with (Zpos (p1 + p2)).
  assert (HP : Zpos (p1 + p2) = (c + a) * 2 ^ (- ez)).
  { rewrite Pos2Z.inj_add. unfold p1, p2.
    rewrite !shl_align_value by lia. rewrite <- Hvc, <- Hva.
    rewrite <- !Z.mul_assoc, <- !pow2_split by lia.
    replace (- ec + (ec - ez)) with (- ez) by lia.
    replace (- ea + (ea - ez)) with (- ez) by lia. ring. }
  destruct (normalize_spec (p1 + p2) (- ez) (c + a) HP ltac:(lia) ltac:(lia))
    as (m & e & Hres & Hm & He & Hv).
  replace (- - ez) with ez in Hres by lia. rewrite Hres.
  destruct (normal_form_unique (c + a) e es m ms) as [-> ->];
    try assumption; try lia.
  reflexivity.
Qed.

End Doubles.

(** *** The two percentages *)

Lemma percentage_of_nothing (t : Z) :
  (0 < t < 2 ^ 53)%Z ->
  Number.mul (Number.div (Number.ofZ 0) (Number.ofZ t)) (Number.ofZ 100)
  = Number.ofZ 0.
Proof.
  intros Ht. destruct (ofZ_spec t Ht) as (mt & et & [Hft _] & _).
  rewrite Hft. reflexivity.
Qed.

(** [completed / total * 100] for [0 <= completed <= total] and a total an
    array can have. *)
Lemma completionRate_spec (c t : Z) :
  (0 <= c <= t)%Z -> (0 < t < 2 ^ 32)%Z ->
  let rate :=
    Number.mul (Number.div (Number.ofZ c) (Number.ofZ t)) (Number.ofZ 100) in
  Number.leb (Number.ofZ 0) rate = true
  /\ Number.leb rate (Number.ofZ 100) = true
  /\ 0 <= Number.toQ rate <= 100.
Proof.
  intros Hc Ht rate. unfold rate. destruct (Z.eq_dec c 0) as [-> | Hc0].
  - rewrite percentage_of_nothing by lia.
    split; [ reflexivity | ]. split; [ reflexivity | ].
    split; discriminate.
  - destruct (percentage_spec c t ltac:(lia) ltac:(lia))
      as (m & e & Hnorm & Hlex & _).
    pose proof Hnorm as [Hfin Hm]. rewrite Hfin.
    split; [ reflexivity | ].
    split.
    + rewrite <- Hfin. apply (leb_normal _ _ _ _ _ _ Hnorm ofZ_100 Hlex).
    + change (Number.toQ (S754_finite false m e)) with (Number.value m e).
      split.
      * unfold Number.value. pose proof (pow2_pos e) as Hp.
        assert (HM : 0 < inject_Z (Zpos m))
          by (change 0 with (inject_Z 0); rewrite <- Zlt_Qlt; lia).
        nra.
      * rewrite <- value_100. apply value_le; [ exact Hm | lia | exact Hlex ].
Qed.

(** [Math.round(completed / (completed + active) * 100)] with at least one
    active task: the Number of an integer from 0 to 100, nearest to the
    exact percentage. *)
Lemma efficiency_spec (c a : Z) :
  (0 <= c)%Z -> (0 < a)%Z -> (c + a < 2 ^ 32)%Z ->
  exists k : Z,
    Number.round
      (Number.mul
         (Number.div (Number.ofZ c)
                     (Number.add (Number.ofZ c) (Number.ofZ a)))
         (Number.ofZ 100))
    = Number.ofZ k
    /\ (0 <= k <= 100)%Z
    /\ (2 * Z.abs (k * (c + a) - 100 * c) <= c + a)%Z.
Proof.
  intros Hc Ha Hsum. rewrite add_ofZ by lia.
  destruct (Z.eq_dec c 0) as [-> | Hc0].
  - exists 0%Z. rewrite percentage_of_nothing by lia.
    split; [ reflexivity | lia ].
  - destruct (percentage_spec c (c + a) ltac:(lia) ltac:(lia))
      as (m & e & Hnorm & Hlex & Hup & Hdown).
    exists (Qfloor (Number.value m e + (1 # 2))).
    split; [ apply (round_normal _ _ _ Hnorm) | ].
    split; [ apply rounded_percentage_range; [ apply Hnorm | exact Hlex ] | ].
    apply (nearest_integer c (c + a) _ (Number.value m e)); auto; lia.
Qed.

(** The same distance, read on the rationals. *)
Lemma nearest_as_rational (k c t : Z) :
  (0 < t)%Z -> (2 * Z.abs (k * t - 100 * c) <= t)%Z ->
  Qabs (inject_Z k - inject_Z c / inject_Z t * 100) <= 1 # 2.
Proof.
  intros Ht Hnear.
  assert (H1 : (2 * (k * t + - (100 * c)) <= t)%Z) by lia.
  assert (H2 : (2 * (100 * c + - (k * t)) <= t)%Z) by lia.
  rewrite Zle_Qle in H1, H2. rewrite Zlt_Qlt in Ht.
  repeat rewrite ?inject_Z_mult, ?inject_Z_plus, ?inject_Z_opp in *.
  change (inject_Z 2) with 2 in *. change (inject_Z 100) with 100 in *.
  change (inject_Z 0) with 0 in *.
  set (K := inject_Z k) in *. set (C := inject_Z c) in *.
  set (T := inject_Z t) in *.
  assert (Hq : C / T * T == C) by (field; lra).
  set (q := C / T) in *.
  apply Qabs_Qle_condition. split; nra.
Qed.

(** C7: for an array of tasks (fewer than 2^32 elements, as every array),
    the completion rate, the Number [completedTasks / totalTasks * 100], is
    at least 0 and at most 100 in the order of Numbers, so it is finite and
    not NaN, and stands for a rational between 0 and 100; it is the Number 0
    when there is no task. *)
Theorem completionRate_bounds (tasks : list Task.t)
    (personnel : list Personnel.t) :
  (Z.of_nat (List.length tasks) < 2 ^ 32)%Z ->
  let s := fst (Dashboard.computeDashboardStats tasks personnel) in
  Number.leb (Number.ofZ 0) (Dashboard.completionRate s) = true
  /\ Number.leb (Dashboard.completionRate s) (Number.ofZ 100) = true
  /\ 0 <= Number.toQ (Dashboard.completionRate s) <= 100
  /\ (Dashboard.totalTasks s = 0%Z ->
      Dashboard.completionRate s = Number.ofZ 0).
Proof.
  intros Hlen s. unfold s, Dashboard.computeDashboardStats. cbn [fst].
  unfold Dashboard.stats.
  cbn [Dashboard.completionRate Dashboard.totalTasks].
  destruct (0 <? Z.of_nat (List.length tasks))%Z eqn:Hpos.
  - apply Z.ltb_lt in Hpos.
    destruct (completionRate_spec
                (Dashboard.countOf
                   (fun t => Status_eqb (Task.status t) completed) tasks)
                (Z.of_nat (List.length tasks))
                (countOf_bounds _ tasks) (conj Hpos Hlen))
      as (Hlo & Hhi & Hval).
    repeat split; try assumption; try apply Hval. intros Hzero. lia.
  - repeat split; try reflexivity; discriminate.
Qed.

Lemma completionRate_bounds_witness :
  Number.leb (Number.ofZ 0)
    (Dashboard.completionRate
       (fst (Dashboard.computeDashboardStats
               [Sample.task "a" completed []; Sample.task "b" active [];
                Sample.task "c" pending []] [])))
  = true
  /\ Number.leb
       (Dashboard.completionRate
          (fst (Dashboard.computeDashboardStats
                  [Sample.task "a" completed []; Sample.task "b" active [];
                   Sample.task "c" pending []] [])))
       (Number.ofZ 100)
     = true
  /\ Dashboard.completionRate
       (fst (Dashboard.computeDashboardStats [] [])) = Number.ofZ 0.
Proof.
  split; [ | split ].
  - destruct (completionRate_bounds
                [Sample.task "a" completed []; Sample.task "b" active [];
                 Sample.task "c" pending []] [])
      as (Hlo & _); [ reflexivity | exact Hlo ].
  - destruct (completionRate_bounds
                [Sample.task "a" completed []; Sample.task "b" active [];
                 Sample.task "c" pending []] [])
      as (_ & Hhi & _); [ reflexivity | exact Hhi ].
  - destruct (completionRate_bounds [] []) as (_ & _ & _ & Hzero);
      [ reflexivity | ].
    apply Hzero. reflexivity.
Defined.

(** The counts that enter the efficiency. *)
Lemma in_flight_counts (tasks : list Task.t) :
  let c := Dashboard.countOf
             (fun t => Status_eqb (Task.status t) completed) tasks in
  let a := Dashboard.countOf
             (fun t => Status_eqb (Task.status t) active) tasks in
  (0 <= c)%Z /\ (0 <= a)%Z /\ (c + a <= Z.of_nat (List.length tasks))%Z.
Proof.
  unfold Dashboard.countOf. pose proof (status_partition tasks). lia.
Qed.

(** C6: for an array of tasks (fewer than 2^32 elements, as every array),
    the efficiency is the Number 100 when no task is 'active'; otherwise it
    is the Number of an integer from 0 to 100 that is nearest to
    completed / (completed + active) * 100, at distance at most one half,
    whatever the rounding of the division and of the multiplication; on four
    tasks that are 'pending', 'active', 'completed' and 'completed' the
    completion rate is the Number 50 and the efficiency the Number 67. *)
Theorem efficiency_metric (tasks : list Task.t)
    (personnel : list Personnel.t) :
  (Z.of_nat (List.length tasks) < 2 ^ 32)%Z ->
  let s := fst (Dashboard.computeDashboardStats tasks personnel) in
  let m := snd (Dashboard.computeDashboardStats tasks personnel) in
  (Dashboard.activeTasks s = 0%Z -> Dashboard.efficiency m = Number.ofZ 100)
  /\ (Dashboard.activeTasks s <> 0%Z ->
      exists k : Z,
        Dashboard.efficiency m = Number.ofZ k
        /\ (0 <= k <= 100)%Z
        /\ Qabs (inject_Z k
                 - inject_Z (Dashboard.completedTasks s)
                   / inject_Z (Dashboard.completedTasks s
                               + Dashboard.activeTasks s)
                   * 100) <= 1 # 2)
  /\ (map Task.status tasks = [pending; active; completed; completed] ->
      Dashboard.completionRate s = Number.ofZ 50
      /\ Dashboard.efficiency m = Number.ofZ 67).
Proof.
  intros Hlen s m.
  destruct (in_flight_counts tasks) as (Hc & Ha & Hsum).
  unfold m, s, Dashboard.computeDashboardStats, Dashboard.metrics.
  cbn [fst snd Dashboard.efficiency].
  unfold Dashboard.stats.
  cbn [Dashboard.activeTasks Dashboard.completedTasks
       Dashboard.completionRate].
  set (c := Dashboard.countOf
              (fun t => Status_eqb (Task.status t) completed) tasks) in *.
  set (a := Dashboard.countOf
              (fun t => Status_eqb (Task.status t) active) tasks) in *.
  split; [ | split ].
  - intros Hzero. now rewrite Hzero.
  - intros Hactive.
    rewrite (proj2 (Z.ltb_lt 0 a)) by lia.
    destruct (efficiency_spec c a Hc ltac:(lia) ltac:(lia))
      as (k & Hk & Hrange & Hnear).
    exists k. split; [ exact Hk | ]. split; [ exact Hrange | ].
    apply nearest_as_rational; [ lia | exact Hnear ].
  - intros Hstatuses.
    destruct tasks as [ | t1 [ | t2 [ | t3 [ | t4 [ | t5 rest ] ] ] ] ];
      try discriminate.
    injection Hstatuses as H1 H2 H3 H4.
    unfold c, a, Dashboard.countOf. cbn [filter List.length].
    rewrite H1, H2, H3, H4. split; vm_compute; reflexivity.
Qed.

Lemma efficiency_metric_witness :
  Dashboard.efficiency
    (snd (Dashboard.computeDashboardStats
            [Sample.task "a" pending []; Sample.task "b" completed []] []))
  = Number.ofZ 100
  /\ (exists k : Z,
         Dashboard.efficiency
           (snd (Dashboard.computeDashboardStats
                   [Sample.task "a" active []; Sample.task "b" active [];
                    Sample.task "c" completed []] []))
         = Number.ofZ k
         /\ (0 <= k <= 100)%Z
         /\ Qabs (inject_Z k - inject_Z 1 / inject_Z (1 + 2) * 100) <= 1 # 2)
  /\ (Dashboard.completionRate
        (fst (Dashboard.computeDashboardStats
                [Sample.task "a" pending []; Sample.task "b" active [];
                 Sample.task "c" completed []; Sample.task "d" completed []]
                [])) = Number.ofZ 50
      /\ Dashboard.efficiency
           (snd (Dashboard.computeDashboardStats
                   [Sample.task "a" pending []; Sample.task "b" active [];
                    Sample.task "c" completed []; Sample.task "d" completed []]
                   [])) = Number.ofZ 67).
Proof.
  split; [ | split ].
  - destruct (efficiency_metric
                [Sample.task "a" pending []; Sample.task "b" completed []] [])
      as (Hidle & _ & _); [ reflexivity | ].
    apply Hidle. reflexivity.
  - destruct (efficiency_metric
                [Sample.task "a" active []; Sample.task "b" active [];
                 Sample.task "c" completed []] [])
      as (_ & Hrounded & _); [ reflexivity | ].
    apply Hrounded. vm_compute. discriminate.
  - destruct (efficiency_metric
                [Sample.task "a" pending []; Sample.task "b" active [];
                 Sample.task "c" completed []; Sample.task "d" completed []]
                [])
      as (_ & _ & Hscenario); [ reflexivity | ].
    apply Hscenario. reflexivity.
Defined.

(** The Numbers the program computes where the exact percentage is a half
    away from an integer or not a binary fraction: 23 completed and 17
    active give 57 (the product is 57.49999999999999, the exact value
    57.5), 7 of 25 give 28.000000000000004 as completion rate, and 1 of
    3 and 2 of 3 in flight give 33 and 67. *)
Lemma efficiency_examples :
  Dashboard.efficiency
    (Dashboard.metrics
       (Dashboard.mkStats 40 0 17 23 0 0 (Number.ofZ 0))) = Number.ofZ 57
  /\ Number.mul (Number.div (Number.ofZ 7) (Number.ofZ 25)) (Number.ofZ 100)
     = S754_finite false 7881299347898369 (-48)
  /\ Dashboard.efficiency
       (Dashboard.metrics
          (Dashboard.mkStats 3 0 2 1 0 0 (Number.ofZ 0))) = Number.ofZ 33
  /\ Dashboard.efficiency
       (Dashboard.metrics
          (Dashboard.mkStats 3 0 1 2 0 0 (Number.ofZ 0))) = Number.ofZ 67
  /\ Dashboard.efficiency
       (Dashboard.metrics
          (Dashboard.mkStats 5 5 0 0 0 0 (Number.ofZ 0))) = Number.ofZ 100.
Proof. repeat split; vm_compute; reflexivity. Qed.

(** ** Adding a person *)

(** The guard of [handleAddPerson] fires exactly when one of the three fields
    is empty once trimmed. *)
Lemma addPerson_guard (p : NewPerson.t) :
  negb (truthy (trim (NewPerson.name p)))
  || negb (truthy (trim (NewPerson.role p)))
  || negb (truthy (trim (NewPerson.department p))) = true
  <-> trim (NewPerson.name p) = ""
      \/ trim (NewPerson.role p) = ""
      \/ trim (NewPerson.department p) = "".
Proof.
  rewrite !orb_true_iff, !negb_true_iff, !truthy_false. tauto.
Qed.

(** A string of white space only trims to the empty string, and a string
    with another character in it does not. *)
Lemma trim_empty_iff (s : string) :
  trim s = "" <-> forallb isWhiteSpace (list_ascii_of_string s) = true.
Proof.
  unfold trim. induction s as [ | c s IH ]; simpl.
  - split; reflexivity.
  - destruct (isWhiteSpace c) eqn:Hc; simpl; [ exact IH | ].
    rewrite Hc. split; [ | discriminate ].
    destruct (trimEnd s); discriminate.
Qed.

(** C9: when the name, the role or the department is empty once trimmed,
    [handleAddPerson] returns the state it was given (the function is total:
    there is no failure to raise); when none is, the personnel array gains at
    its end one record with the generated id and the fields of the form, and
    the ids stay pairwise distinct when the generated id is not in use. *)
Theorem handleAddPerson_validates (uuid : string)
    (st : PersonnelManager.State) :
  let p := PersonnelManager.newPerson st in
  (trim (NewPerson.name p) = "" \/ trim (NewPerson.role p) = ""
   \/ trim (NewPerson.department p) = "" ->
   PersonnelManager.handleAddPerson uuid st = st)
  /\ (trim (NewPerson.name p) <> "" -> trim (NewPerson.role p) <> "" ->
      trim (NewPerson.department p) <> "" ->
      PersonnelManager.personnel (PersonnelManager.handleAddPerson uuid st)
      = PersonnelManager.personnel st
        ++ [ {| Personnel.id := uuid;
                Personnel.name := NewPerson.name p;
                Personnel.role := NewPerson.role p;
                Personnel.department := NewPerson.department p;
                Personnel.active := NewPerson.active p |} ]
      /\ (~ In uuid (map Personnel.id (PersonnelManager.personnel st)) ->
          NoDup (map Personnel.id (PersonnelManager.personnel st)) ->
          NoDup (map Personnel.id
                     (PersonnelManager.personnel
                        (PersonnelManager.handleAddPerson uuid st))))).
Proof.
  intros p. unfold PersonnelManager.handleAddPerson. fold p.
  pose proof (addPerson_guard p) as Hguard.
  destruct (negb (truthy (trim (NewPerson.name p)))
            || negb (truthy (trim (NewPerson.role p)))
            || negb (truthy (trim (NewPerson.department p)))) eqn:Hg.
  - split; [ reflexivity | ].
    intros Hn Hr Hd. destruct (proj1 Hguard eq_refl) as [H | [H | H]];
      contradiction.
  - split.
    + intros Hempty. apply Hguard in Hempty. discriminate.
    + intros _ _ _. simpl. split; [ reflexivity | ].
      intros Hfresh Hnodup. rewrite map_app. simpl.
      apply NoDup_app; [ assumption | repeat constructor; auto | ].
      intros x Hin [Hx | []]. subst x. contradiction.
Qed.

Lemma handleAddPerson_validates_witness :
  PersonnelManager.handleAddPerson "u-1"
    {| PersonnelManager.personnel := [];
       PersonnelManager.showAddForm := true;
       PersonnelManager.newPerson := NewPerson.mk "Ana" "   " "Calidad" true |}
  = {| PersonnelManager.personnel := [];
       PersonnelManager.showAddForm := true;
       PersonnelManager.newPerson := NewPerson.mk "Ana" "   " "Calidad" true |}
  /\ PersonnelManager.personnel
       (PersonnelManager.handleAddPerson "u-1"
          {| PersonnelManager.personnel := [];
             PersonnelManager.showAddForm := true;
             PersonnelManager.newPerson :=
               NewPerson.mk " Ana " "Tecnico" "Calidad" true |})
     = [ Personnel.mk "u-1" " Ana " "Tecnico" "Calidad" true ].
Proof.
  split.
  - match goal with
    | |- PersonnelManager.handleAddPerson ?u ?s = _ =>
        destruct (handleAddPerson_validates u s) as [Hdecline _]
    end.
    apply Hdecline. right. left. reflexivity.
  - match goal with
    | |- context [PersonnelManager.handleAddPerson ?u ?s] =>
        destruct (handleAddPerson_validates u s) as [_ Happend]
    end.
    apply Happend; vm_compute; discriminate.
Defined.

(** * Properties of the code around the claims *)

(** ** Deleting a task *)

(** X1: [handleDeleteTask] keeps exactly the tasks whose id differs from the
    given one, in their order; with an id no task has it changes nothing, and
    deleting a second time changes nothing more. *)
Theorem handleDeleteTask_removes_the_id (st : App.State) (taskId : string) :
  let st' := App.handleDeleteTask taskId st in
  (forall task,
      In task (App.tasks st') <->
      In task (App.tasks st) /\ Task.id task <> taskId)
  /\ FilterSpec.subsequence (App.tasks st') (App.tasks st)
  /\ (~ In taskId (map Task.id (App.tasks st)) ->
      App.tasks st' = App.tasks st)
  /\ App.handleDeleteTask taskId st' = st'.
Proof.
  simpl. split; [ | split; [ | split ] ].
  - intros task. rewrite filter_In, negb_true_iff, String.eqb_neq.
    reflexivity.
  - apply filter_subsequence.
  - intros Hnotin. apply forallb_filter_id. apply forallb_forall.
    intros task Hin. apply negb_true_iff, String.eqb_neq.
    intros Heq. apply Hnotin. rewrite <- Heq. now apply in_map.
  - unfold App.handleDeleteTask. simpl. f_equal.
    induction (App.tasks st) as [ | task tasks IH ]; [ reflexivity | ].
    simpl. destruct (negb (Task.id task =? taskId)) eqn:Hkeep; simpl.
    + rewrite Hkeep. now f_equal.
    + exact IH.
Qed.

Lemma handleDeleteTask_removes_the_id_witness :
  App.tasks (App.handleDeleteTask "99" App.initialState) = App.initialTasks.
Proof.
  destruct (handleDeleteTask_removes_the_id App.initialState "99")
    as (_ & _ & Hnoop & _).
  apply Hnoop. simpl. intuition discriminate.
Defined.

(** X2: creating a task under an id no task has and then deleting that id
    gives back the task array there was. *)
Theorem create_then_delete_restores_tasks (st : App.State)
    (taskData : TaskData.t) (newId : string) (now : Date) :
  ~ In newId (map Task.id (App.tasks st)) ->
  App.tasks (App.handleDeleteTask newId (App.createTask taskData newId now st))
  = App.tasks st.
Proof.
  intros Hfresh. simpl. rewrite filter_app. simpl.
  rewrite String.eqb_refl. simpl. rewrite app_nil_r.
  apply forallb_filter_id. apply forallb_forall.
  intros task Hin. apply negb_true_iff, String.eqb_neq.
  intros Heq. apply Hfresh. rewrite <- Heq. now apply in_map.
Qed.

Lemma create_then_delete_restores_tasks_witness :
  App.tasks (App.handleDeleteTask "t1"
               (App.createTask (Sample.taskData pending) "t1" 100
                               App.initialState))
  = App.initialTasks.
Proof.
  apply (create_then_delete_restores_tasks App.initialState).
  vm_compute. intuition discriminate.
Defined.

(** ** Composing filters *)

Section FilterComposition.

Variable toLowerCase : string -> string.

Lemma filteredTasks_as_filter (tasks : list Task.t) (f : App.Filters) :
  App.filteredTasks toLowerCase tasks f
  = filter (FilterSpec.satisfies toLowerCase f) tasks.
Proof.
  unfold App.filteredTasks. destruct tasks as [ | t ts ]; [ reflexivity | ].
  cbn [List.length Nat.eqb]. apply filter_ext. intros task.
  apply keepTask_satisfies.
Qed.

Lemma filter_twice {A : Type} (p q : A -> bool) (l : list A) :
  filter p (filter q l) = filter (fun x => q x && p x) l.
Proof.
  induction l as [ | x l IH ]; [ reflexivity | ]. simpl.
  destruct (q x); simpl; [ destruct (p x); now rewrite IH | exact IH ].
Qed.

(** X3: filtering the filtered tasks again with the same filters returns
    them unchanged. *)
Theorem filteredTasks_idempotent (tasks : list Task.t) (f : App.Filters) :
  App.filteredTasks toLowerCase (App.filteredTasks toLowerCase tasks f) f
  = App.filteredTasks toLowerCase tasks f.
Proof.
  rewrite !filteredTasks_as_filter, filter_twice.
  apply filter_ext. intros task. apply andb_diag.
Qed.

(** X4: two filter settings applied one after the other give the same tasks
    in either order: the tasks that pass both. *)
Theorem filteredTasks_commute (tasks : list Task.t) (f g : App.Filters) :
  App.filteredTasks toLowerCase (App.filteredTasks toLowerCase tasks f) g
  = App.filteredTasks toLowerCase (App.filteredTasks toLowerCase tasks g) f
  /\ forall task,
       In task (App.filteredTasks toLowerCase
                  (App.filteredTasks toLowerCase tasks f) g)
       <-> In task (App.filteredTasks toLowerCase tasks f)
           /\ In task (App.filteredTasks toLowerCase tasks g).
Proof.
  rewrite !filteredTasks_as_filter, !filter_twice. split.
  - apply filter_ext. intros task. apply andb_comm.
  - intros task. rewrite !filter_In, andb_true_iff. tauto.
Qed.

Lemma activeFiltersCount_zero (f : App.Filters) :
  App.activeFiltersCount f = 0%Z <->
  App.statusFilter f = "all" /\ App.priorityFilter f = "all"
  /\ App.categoryFilter f = "all" /\ App.personnelFilter f = "all".
Proof.
  unfold App.activeFiltersCount.
  destruct (String.eqb_spec (App.statusFilter f) "all");
    destruct (String.eqb_spec (App.priorityFilter f) "all");
    destruct (String.eqb_spec (App.categoryFilter f) "all");
    destruct (String.eqb_spec (App.personnelFilter f) "all");
    simpl; split; intros H; try discriminate; tauto.
Qed.

Lemma activeFiltersCount_range (f : App.Filters) :
  (0 <= App.activeFiltersCount f <= 4)%Z.
Proof.
  unfold App.activeFiltersCount.
  destruct (App.statusFilter f =? "all"), (App.priorityFilter f =? "all"),
    (App.categoryFilter f =? "all"), (App.personnelFilter f =? "all");
    simpl; lia.
Qed.

Lemma no_filter_lists_everything (tasks : list Task.t) (f : App.Filters) :
  App.searchTerm f = "" -> App.activeFiltersCount f = 0%Z ->
  App.filteredTasks toLowerCase tasks f = tasks.
Proof.
  intros Hsearch Hcount. apply activeFiltersCount_zero in Hcount.
  destruct Hcount as (Hs & Hp & Hc & Hpe).
  rewrite filteredTasks_as_filter. apply forallb_filter_id.
  apply forallb_forall. intros task _. apply satisfies_iff.
  repeat split; left; assumption.
Qed.

(** X5: after [clearFilters] no filter counts as active, every task is
    listed, and the hint under the grid shows only for an empty task array,
    where it invites to create the first task. *)
Theorem clearFilters_lists_everything (tasks : list Task.t)
    (f : App.Filters) :
  App.activeFiltersCount (App.clearFilters f) = 0%Z
  /\ App.filteredTasks toLowerCase tasks (App.clearFilters f) = tasks
  /\ App.emptyListHint toLowerCase tasks (App.clearFilters f)
     = match tasks with
       | [] => Some "Comienza creando tu primera tarea"
       | _ :: _ => None
       end.
Proof.
  split; [ reflexivity | ].
  assert (Hall : App.filteredTasks toLowerCase tasks (App.clearFilters f)
                 = tasks)
    by (apply no_filter_lists_everything; reflexivity).
  split; [ exact Hall | ].
  unfold App.emptyListHint. rewrite Hall. destruct tasks; reflexivity.
Qed.

(** X6: the paragraph under an empty list.  It invites to create the first
    task exactly when there is no task at all, the search term is empty and
    no filter is active; it suggests to adjust the filters exactly when no
    task is listed while a search term or a filter is set; and it is absent
    exactly when some task is listed. *)
Theorem create_first_task_hint_only_without_tasks (tasks : list Task.t)
    (f : App.Filters) :
  (App.emptyListHint toLowerCase tasks f
   = Some "Comienza creando tu primera tarea"
   <-> tasks = [] /\ App.searchTerm f = "" /\ App.activeFiltersCount f = 0%Z)
  /\ (App.emptyListHint toLowerCase tasks f
      = Some "Intenta ajustar los filtros de busqueda"
      <-> App.filteredTasks toLowerCase tasks f = []
          /\ (App.searchTerm f <> "" \/ App.activeFiltersCount f <> 0%Z))
  /\ (App.emptyListHint toLowerCase tasks f = None
      <-> App.filteredTasks toLowerCase tasks f <> []).
Proof.
  pose proof (activeFiltersCount_range f) as Hrange.
  pose proof (no_filter_lists_everything tasks f) as Hall.
  unfold App.emptyListHint.
  destruct (App.filteredTasks toLowerCase tasks f) as [ | shown rest ]
    eqn:Hshown; simpl.
  - destruct (truthy (App.searchTerm f)) eqn:Hsearch; simpl.
    + assert (Hne : App.searchTerm f <> "").
      { intros Heq. apply truthy_false in Heq. congruence. }
      intuition (try congruence; try discriminate).
    + apply truthy_false in Hsearch.
      destruct (0 <? App.activeFiltersCount f)%Z eqn:Hcount.
      * apply Z.ltb_lt in Hcount.
        intuition (try congruence; try discriminate; try lia).
      * apply Z.ltb_ge in Hcount.
        assert (Hzero : App.activeFiltersCount f = 0%Z) by lia.
        specialize (Hall Hsearch Hzero).
        intuition (try congruence; try discriminate).
  - intuition (try congruence; try discriminate).
Qed.

End FilterComposition.

(** ** The task form *)

Lemma handleEvent_status (st : TaskForm.State) (ev : TaskForm.Event) :
  TaskData.status (TaskForm.formData (TaskForm.handleEvent st ev))
  = TaskData.status (TaskForm.formData st).
Proof. destruct ev; reflexivity. Qed.

Lemma events_status (events : list TaskForm.Event) :
  forall st,
    TaskData.status
      (TaskForm.formData (fold_left TaskForm.handleEvent events st))
    = TaskData.status (TaskForm.formData st).
Proof.
  induction events as [ | ev events IH ]; intros st; [ reflexivity | ].
  simpl. rewrite IH. apply handleEvent_status.
Qed.

Lemma submitted_status (task : option Task.t) (categories : list string)
    (events : list TaskForm.Event) :
  TaskData.status (TaskForm.submitted task categories events)
  = match task with
    | Some t => Task.status t
    | None => pending
    end.
Proof.
  unfold TaskForm.submitted, TaskForm.handleSubmit. simpl.
  rewrite events_status. destruct task; reflexivity.
Qed.

(** X7: whatever is typed and clicked in the task form, it submits the
    status of the task it was opened on, and 'pending' when opened for a new
    task; the task created from it is 'pending' without timestamps. *)
Theorem form_submits_the_status_it_was_opened_with (task : option Task.t)
    (categories : list string) (events : list TaskForm.Event)
    (newId : string) (now : Date) :
  TaskData.status (TaskForm.submitted task categories events)
  = match task with
    | Some t => Task.status t
    | None => pending
    end
  /\ Ui.lifecycleOk
       (App.newTask (TaskForm.submitted None categories events) newId now).
Proof.
  split; [ apply submitted_status | ].
  unfold Ui.lifecycleOk.
  change (Task.status (App.newTask (TaskForm.submitted None categories events)
                                   newId now))
    with (TaskData.status (TaskForm.submitted None categories events)).
  rewrite submitted_status. split; reflexivity.
Qed.

Lemma handleEvent_hours (st : TaskForm.State) (ev : TaskForm.Event) :
  ~ TaskData.estimatedHours (TaskForm.formData st) == 0 ->
  ~ TaskData.estimatedHours (TaskForm.formData (TaskForm.handleEvent st ev))
    == 0.
Proof.
  intros Hst. destruct ev; simpl; try exact Hst.
  destruct parsed as [ q | ]; [ | discriminate ].
  destruct (Qeq_bool q 0) eqn:Hq; [ discriminate | ].
  now apply Qeq_bool_neq.
Qed.

(** X8: the task form never submits 0 estimated hours: a task edited with
    0 hours, an input of 0 and an input that is not a number all become 1. *)
Theorem form_never_submits_zero_hours (task : option Task.t)
    (categories : list string) (events : list TaskForm.Event) :
  ~ TaskData.estimatedHours (TaskForm.submitted task categories events) == 0.
Proof.
  unfold TaskForm.submitted, TaskForm.handleSubmit. simpl.
  assert (Hinit : ~ TaskData.estimatedHours
                      (TaskForm.formData (TaskForm.init task categories)) == 0).
  { destruct task as [ t | ]; simpl; [ | discriminate ].
    destruct (Qeq_bool (Task.estimatedHours t) 0) eqn:Hq; [ discriminate | ].
    now apply Qeq_bool_neq. }
  revert Hinit. generalize (TaskForm.init task categories).
  induction events as [ | ev events IH ]; intros st Hst; [ exact Hst | ].
  simpl. apply IH. now apply handleEvent_hours.
Qed.

(** X9: unchecking a person in the task form removes every occurrence of
    the id and keeps the others; checking a person who is not assigned and
    unchecking again gives back the list, and checking such a person keeps
    a duplicate-free list duplicate-free. *)
Theorem handlePersonnelToggle_unchecks (personnelId : string)
    (assignedTo : list string) :
  ~ In personnelId
       (TaskForm.handlePersonnelToggle personnelId false assignedTo)
  /\ (forall other,
         other <> personnelId ->
         (In other (TaskForm.handlePersonnelToggle personnelId false assignedTo)
          <-> In other assignedTo))
  /\ (~ In personnelId assignedTo ->
      TaskForm.handlePersonnelToggle personnelId false
        (TaskForm.handlePersonnelToggle personnelId true assignedTo)
      = assignedTo
      /\ (NoDup assignedTo ->
          NoDup (TaskForm.handlePersonnelToggle personnelId true assignedTo))).
Proof.
  unfold TaskForm.handlePersonnelToggle. split; [ | split ].
  - intros Hin. apply filter_In in Hin. destruct Hin as [_ Hne].
    now rewrite String.eqb_refl in Hne.
  - intros other Hne. rewrite filter_In, negb_true_iff, String.eqb_neq. tauto.
  - intros Hnotin. split.
    + rewrite filter_app. simpl. rewrite String.eqb_refl. simpl.
      rewrite app_nil_r. apply forallb_filter_id. apply forallb_forall.
      intros other Hin. apply negb_true_iff, String.eqb_neq. congruence.
    + intros Hnodup. apply NoDup_app; [ assumption | repeat constructor; auto | ].
      intros x Hx [<- | []]. contradiction.
Qed.

Lemma handlePersonnelToggle_unchecks_witness :
  TaskForm.handlePersonnelToggle "3" false
    (TaskForm.handlePersonnelToggle "3" true ["4"; "6"])
  = ["4"; "6"].
Proof.
  destruct (handlePersonnelToggle_unchecks "3" ["4"; "6"]) as (_ & _ & Hback).
  apply Hback. simpl. intuition discriminate.
Defined.

(** ** The store under the operations of the views *)

Lemma same_id_same_task (tasks : list Task.t) (a b : Task.t) :
  NoDup (map Task.id tasks) -> In a tasks -> In b tasks ->
  Task.id a = Task.id b -> a = b.
Proof.
  induction tasks as [ | x xs IH ]; [ contradiction | ].
  simpl. intros Hnodup Ha Hb Hid.
  inversion Hnodup as [ | ? ? Hnotin Hrest ]; subst.
  destruct Ha as [-> | Ha], Hb as [-> | Hb]; auto.
  - exfalso. apply Hnotin. rewrite Hid. now apply in_map.
  - exfalso. apply Hnotin. rewrite <- Hid. now apply in_map.
Qed.

Lemma map_id_statusChange (taskId : string) (s : Status) (now : Date)
    (tasks : list Task.t) :
  map Task.id (map (App.statusChange taskId s now) tasks) = map Task.id tasks.
Proof.
  rewrite map_map. apply map_ext. intros task.
  apply (statusChange_frame taskId now s task).
Qed.

Lemma map_id_spreadTaskData (editingId : string) (d : TaskData.t)
    (tasks : list Task.t) :
  map Task.id
      (map (fun task => if Task.id task =? editingId
                        then App.spreadTaskData task d else task) tasks)
  = map Task.id tasks.
Proof.
  rewrite map_map. apply map_ext. intros task.
  destruct (Task.id task =? editingId); reflexivity.
Qed.

(** The tasks a filter keeps still have distinct ids. *)
Lemma kept_ids_distinct (keep : Task.t -> bool) (tasks : list Task.t) :
  NoDup (map Task.id tasks) -> NoDup (map Task.id (filter keep tasks)).
Proof.
  intros Hnodup. induction tasks as [ | task tasks IH ]; [ constructor | ].
  simpl in Hnodup. apply NoDup_cons_iff in Hnodup.
  destruct Hnodup as [Hfresh Hrest]. simpl.
  destruct (keep task); [ | now apply IH ].
  simpl. constructor; [ | now apply IH ].
  rewrite in_map_iff. intros [other [Hid Hin]].
  apply filter_In in Hin. apply Hfresh. rewrite <- Hid.
  apply in_map. tauto.
Qed.

(** A status button pressed on a task of the lifecycle leaves it in the
    lifecycle. *)
Lemma offered_statusChange_lifecycleOk (task : Task.t) (s : Status)
    (now : Date) :
  TaskDetail.offers task s = true ->
  Ui.lifecycleOk task ->
  Ui.lifecycleOk (App.statusChange (Task.id task) s now task).
Proof.
  unfold TaskDetail.offers, TaskDetail.canActivate, TaskDetail.canPause,
    TaskDetail.canComplete, Ui.lifecycleOk, App.statusChange.
  rewrite String.eqb_refl.
  destruct s, (Task.status task) eqn:Hst; simpl; try discriminate;
    intros _ [Ha Hc]; split; congruence.
Qed.

Lemma step_wellFormed (st st' : App.State) (op : Ui.Op) :
  Ui.wellFormed st -> Ui.step st op = Some st' -> Ui.wellFormed st'.
Proof.
  intros [Hnodup Hall] Hstep. unfold Ui.wellFormed.
  destruct op as [events newId now | i events | i s now | i]; simpl in Hstep.
  - destruct (existsb _ _) eqn:Hfresh; [ discriminate | ].
    injection Hstep as <-. simpl. split.
    + rewrite map_app. simpl. apply NoDup_app;
        [ assumption | repeat constructor; auto | ].
      intros x Hx [<- | []].
      apply in_map_iff in Hx. destruct Hx as [task [Hid Hin]].
      assert (Hex : existsb (fun t => Task.id t =? newId) (App.tasks st)
                    = true).
      { apply existsb_exists. exists task. split; [ assumption | ].
        now apply String.eqb_eq. }
      congruence.
    + apply Forall_app. split; [ assumption | ].
      constructor; [ | constructor ].
      unfold Ui.lifecycleOk. simpl.
      change (TaskData.status
                (TaskForm.formData
                   (fold_left TaskForm.handleEvent events
                              (TaskForm.init None (App.categories st)))))
        with (TaskData.status
                (TaskForm.submitted None (App.categories st) events)).
      rewrite submitted_status. split; reflexivity.
  - destruct (nth_error (App.tasks st) i) as [ editing | ] eqn:Hnth;
      [ | discriminate ].
    injection Hstep as <-. simpl. split.
    + now rewrite map_id_spreadTaskData.
    + apply Forall_map. rewrite Forall_forall in *. intros task Hin.
      destruct (Task.id task =? Task.id editing) eqn:Hid;
        [ | now apply Hall ].
      apply String.eqb_eq in Hid.
      assert (task = editing) as ->.
      { apply (same_id_same_task (App.tasks st)); auto.
        eapply nth_error_In; eassumption. }
      specialize (Hall editing Hin). unfold Ui.lifecycleOk in *. simpl.
      change (TaskData.status
                (TaskForm.formData
                   (fold_left TaskForm.handleEvent events
                              (TaskForm.init (Some editing)
                                             (App.categories st)))))
        with (TaskData.status
                (TaskForm.submitted (Some editing) (App.categories st) events)).
      rewrite submitted_status. exact Hall.
  - destruct (nth_error (App.tasks st) i) as [ pressed | ] eqn:Hnth;
      [ | discriminate ].
    destruct (TaskDetail.offers pressed s) eqn:Hoffer; [ | discriminate ].
    injection Hstep as <-. simpl. split.
    + now rewrite map_id_statusChange.
    + apply Forall_map. rewrite Forall_forall in *. intros task Hin.
      destruct (string_dec (Task.id task) (Task.id pressed)) as [Hid | Hid].
      * assert (task = pressed) as ->.
        { apply (same_id_same_task (App.tasks st)); auto.
          eapply nth_error_In; eassumption. }
        apply offered_statusChange_lifecycleOk; auto.
      * rewrite statusChange_other; auto.
  - destruct (nth_error (App.tasks st) i) as [ deleted | ] eqn:Hnth;
      [ | discriminate ].
    injection Hstep as <-. simpl. split.
    + now apply kept_ids_distinct.
    + rewrite Forall_forall in *. intros task Hin.
      apply filter_In in Hin. now apply Hall.
Qed.

Lemma run_wellFormed (ops : list Ui.Op) :
  forall st st',
    Ui.wellFormed st -> Ui.run ops st = Some st' -> Ui.wellFormed st'.
Proof.
  induction ops as [ | op ops IH ]; intros st st' Hwf Hrun; simpl in Hrun.
  - now injection Hrun as <-.
  - destruct (Ui.step st op) as [ st1 | ] eqn:Hstep; [ | discriminate ].
    apply (IH st1 st'); [ | assumption ].
    now apply (step_wellFormed st st1 op).
Qed.

(** X10: from a store with distinct ids whose tasks each carry the
    timestamps of their status ('pending': none; 'active': [activatedAt]
    only; 'completed': both), every sequence of operations the task views
    offer (submit a new task, edit a listed task, press a rendered status
    button, delete) leads to such a store, as long as [generateId] returns
    ids not in use. *)
Theorem views_keep_the_lifecycle (ops : list Ui.Op) (st st' : App.State) :
  Ui.wellFormed st -> Ui.run ops st = Some st' -> Ui.wellFormed st'.
Proof. apply run_wellFormed. Qed.

Lemma initialState_wellFormed : Ui.wellFormed App.initialState.
Proof.
  split.
  - simpl. repeat constructor; simpl; intuition discriminate.
  - unfold Ui.lifecycleOk. repeat constructor; simpl; discriminate.
Qed.

Lemma views_keep_the_lifecycle_witness :
  exists st',
    Ui.run Sample.session App.initialState = Some st' /\ Ui.wellFormed st'.
Proof.
  eexists. split; [ vm_compute; reflexivity | ].
  apply (views_keep_the_lifecycle Sample.session App.initialState).
  - exact initialState_wellFormed.
  - vm_compute. reflexivity.
Defined.

Lemma lifecycleOk_views (task : Task.t) (now : Date) :
  Ui.lifecycleOk task ->
  (Task.status task = completed <-> Task.completedAt task <> None)
  /\ (Task.status task = pending <-> Task.activatedAt task = None)
  /\ (TaskDetail.calculateDuration task now = None <->
      Task.status task = pending).
Proof.
  unfold Ui.lifecycleOk, TaskDetail.calculateDuration.
  destruct (Task.status task), (Task.activatedAt task),
    (Task.completedAt task); intros [Ha Hc];
    repeat split; intros; congruence.
Qed.

(** X11: in a store reached that way every task is 'completed' exactly when
    it has [completedAt], 'pending' exactly when it has no [activatedAt],
    and [calculateDuration] is null exactly for the 'pending' tasks. *)
Theorem views_show_consistent_tasks (ops : list Ui.Op)
    (st st' : App.State) (task : Task.t) (now : Date) :
  Ui.wellFormed st -> Ui.run ops st = Some st' -> In task (App.tasks st') ->
  (Task.status task = completed <-> Task.completedAt task <> None)
  /\ (Task.status task = pending <-> Task.activatedAt task = None)
  /\ (TaskDetail.calculateDuration task now = None <->
      Task.status task = pending).
Proof.
  intros Hwf Hrun Hin. apply lifecycleOk_views.
  destruct (run_wellFormed ops st st' Hwf Hrun) as [_ Hall].
  rewrite Forall_forall in Hall. now apply Hall.
Qed.

Lemma views_show_consistent_tasks_witness :
  exists st' task,
    Ui.run Sample.session App.initialState = Some st'
    /\ nth_error (App.tasks st') 4 = Some task
    /\ (Task.status task = completed <-> Task.completedAt task <> None)
    /\ (Task.status task = pending <-> Task.activatedAt task = None)
    /\ (TaskDetail.calculateDuration task 900 = None <->
        Task.status task = pending).
Proof.
  eexists. eexists.
  split; [ vm_compute; reflexivity | ].
  split; [ vm_compute; reflexivity | ].
  eapply (views_show_consistent_tasks Sample.session App.initialState).
  - exact initialState_wellFormed.
  - vm_compute. reflexivity.
  - do 4 right. left. reflexivity.
Defined.

(** ** The category registry *)

Lemma handleTaskSubmit_registryOk (taskData : TaskData.t) (newId : string)
    (now : Date) (st : App.State) :
  Ui.registryOk st ->
  Ui.registryOk (App.handleTaskSubmit taskData newId now st).
Proof.
  intros [Hnodup Hall]. unfold Ui.registryOk, App.handleTaskSubmit. simpl.
  set (category := TaskData.category taskData).
  assert (Hgrow : forall c, In c (App.categories st) ->
                            In c (if negb (existsb (String.eqb category)
                                                   (App.categories st))
                                  then App.categories st ++ [category]
                                  else App.categories st)).
  { intros c Hc. destruct (negb _); [ apply in_or_app; now left | exact Hc ]. }
  assert (Hnew : In category (if negb (existsb (String.eqb category)
                                               (App.categories st))
                              then App.categories st ++ [category]
                              else App.categories st)).
  { destruct (existsb (String.eqb category) (App.categories st)) eqn:Hex;
      simpl.
    - apply existsb_exists in Hex. destruct Hex as [c [Hc Heq]].
      apply String.eqb_eq in Heq. now subst c.
    - apply in_or_app. right. now left. }
  split.
  - destruct (existsb (String.eqb category) (App.categories st)) eqn:Hex;
      simpl; [ assumption | ].
    apply NoDup_app; [ assumption | repeat constructor; auto | ].
    intros c Hc [<- | []].
    assert (existsb (String.eqb category) (App.categories st) = true).
    { apply existsb_exists. exists category. split;
        [ assumption | apply String.eqb_refl ]. }
    congruence.
  - rewrite Forall_forall in *.
    destruct (App.editingTask st) as [ editing | ].
    + intros task Hin. apply in_map_iff in Hin.
      destruct Hin as [old [Hold Hin]].
      destruct (Task.id old =? Task.id editing); subst task;
        [ exact Hnew | apply Hgrow; now apply Hall ].
    + intros task Hin. apply in_app_or in Hin.
      destruct Hin as [Hin | [<- | []]];
        [ apply Hgrow; now apply Hall | exact Hnew ].
Qed.

Lemma step_registryOk (st st' : App.State) (op : Ui.Op) :
  Ui.registryOk st -> Ui.step st op = Some st' -> Ui.registryOk st'.
Proof.
  intros Hreg Hstep.
  destruct op as [events newId now | i events | i s now | i]; simpl in Hstep.
  - destruct (existsb _ _); [ discriminate | ]. injection Hstep as <-.
    apply handleTaskSubmit_registryOk. exact Hreg.
  - destruct (nth_error (App.tasks st) i) as [ editing | ];
      [ | discriminate ].
    injection Hstep as <-. apply handleTaskSubmit_registryOk. exact Hreg.
  - destruct (nth_error (App.tasks st) i) as [ pressed | ];
      [ | discriminate ].
    destruct (TaskDetail.offers pressed s); [ | discriminate ].
    injection Hstep as <-. destruct Hreg as [Hnodup Hall].
    split; [ exact Hnodup | ]. simpl. apply Forall_map.
    rewrite Forall_forall in *. intros task Hin.
    rewrite (proj1 (proj2 (proj2 (proj2 (proj2 (proj2
               (statusChange_frame (Task.id pressed) now s task))))))).
    now apply Hall.
  - destruct (nth_error (App.tasks st) i) as [ deleted | ];
      [ | discriminate ].
    injection Hstep as <-. destruct Hreg as [Hnodup Hall].
    split; [ exact Hnodup | ]. simpl.
    rewrite Forall_forall in *. intros task Hin.
    apply filter_In in Hin. now apply Hall.
Qed.

Lemma initialState_registryOk : Ui.registryOk App.initialState.
Proof.
  split.
  - simpl. repeat constructor; simpl; intuition discriminate.
  - repeat constructor; simpl; tauto.
Qed.

(** X12: the category list stays free of duplicates and holds the category
    of every task, through every sequence of operations of the task views. *)
Theorem registry_holds_every_category (ops : list Ui.Op) :
  forall st st',
    Ui.registryOk st -> Ui.run ops st = Some st' -> Ui.registryOk st'.
Proof.
  induction ops as [ | op ops IH ]; intros st st' Hreg Hrun; simpl in Hrun.
  - now injection Hrun as <-.
  - destruct (Ui.step st op) as [ st1 | ] eqn:Hstep; [ | discriminate ].
    apply (IH st1 st'); [ | assumption ].
    now apply (step_registryOk st st1 op).
Qed.

Lemma registry_holds_every_category_witness :
  exists st',
    Ui.run Sample.session App.initialState = Some st' /\ Ui.registryOk st'.
Proof.
  eexists. split; [ vm_compute; reflexivity | ].
  apply (registry_holds_every_category Sample.session App.initialState).
  - exact initialState_registryOk.
  - vm_compute. reflexivity.
Defined.

(** ** Submitting the edit form untouched *)

Lemma untouched_form_gives_back_the_task (task : Task.t)
    (categories : list string) :
  Qeq_bool (Task.estimatedHours task) 0 = false ->
  truthy (Task.category task) = true ->
  App.spreadTaskData task (TaskForm.submitted (Some task) categories [])
  = task.
Proof.
  intros Hhours Hcategory. destruct task; simpl in *.
  unfold App.spreadTaskData, TaskForm.submitted. simpl.
  rewrite Hhours, Hcategory.
  destruct title, description; reflexivity.
Qed.

(** X24: opening the edit form on a listed task and submitting it untouched
    leaves the task array as it was, when the ids are distinct, the task's
    estimated hours are not 0 and its category is not empty. *)
Theorem untouched_edit_changes_no_task (st st' : App.State) (i : nat)
    (task : Task.t) :
  NoDup (map Task.id (App.tasks st)) ->
  nth_error (App.tasks st) i = Some task ->
  Qeq_bool (Task.estimatedHours task) 0 = false ->
  truthy (Task.category task) = true ->
  Ui.step st (Ui.EditTask i []) = Some st' ->
  App.tasks st' = App.tasks st.
Proof.
  intros Hnodup Hnth Hhours Hcategory Hstep. simpl in Hstep.
  rewrite Hnth in Hstep. injection Hstep as <-. simpl.
  rewrite <- (map_id (App.tasks st)) at 2.
  apply map_ext_in. intros other Hin.
  destruct (Task.id other =? Task.id task) eqn:Hid; [ | reflexivity ].
  apply String.eqb_eq in Hid.
  assert (other = task) as ->.
  { apply (same_id_same_task (App.tasks st)); auto.
    eapply nth_error_In; eassumption. }
  now apply untouched_form_gives_back_the_task.
Qed.

Lemma untouched_edit_changes_no_task_witness :
  exists st',
    Ui.step App.initialState (Ui.EditTask 1 []) = Some st'
    /\ App.tasks st' = App.initialTasks.
Proof.
  eexists. split; [ vm_compute; reflexivity | ].
  eapply (untouched_edit_changes_no_task App.initialState _ 1).
  - simpl. repeat constructor; simpl; intuition discriminate.
  - reflexivity.
  - reflexivity.
  - reflexivity.
  - vm_compute. reflexivity.
Defined.

(** With 0 estimated hours the untouched form writes 1. *)
Lemma untouched_edit_of_zero_hours :
  TaskData.estimatedHours
    (TaskForm.submitted
       (Some {| Task.id := "a"; Task.title := "t"; Task.description := "";
                Task.status := pending; Task.priority := low;
                Task.assignedTo := []; Task.createdAt := 0;
                Task.activatedAt := None; Task.completedAt := None;
                Task.estimatedHours := 0; Task.category := "Calidad" |})
       [] []) = 1.
Proof. reflexivity. Qed.

(** ** Resolving the assigned people *)

Lemma find_by_id_some (personnel : list Personnel.t) (id : string) :
  match find (fun p => Personnel.id p =? id) personnel with
  | Some p => In p personnel /\ Personnel.id p = id
  | None => ~ In id (map Personnel.id personnel)
  end.
Proof.
  destruct (find _ personnel) as [ p | ] eqn:Hfind.
  - apply find_some in Hfind. destruct Hfind as [Hin Heq].
    now apply String.eqb_eq in Heq.
  - intros Hin. apply in_map_iff in Hin. destruct Hin as [p [Hid Hin]].
    pose proof (find_none _ _ Hfind p Hin) as Hne. simpl in Hne.
    apply String.eqb_neq in Hne. contradiction.
Qed.

(** X13: [getAssignedPersonnel] resolves the assigned ids in their order and
    drops those no person has: the ids of the result are the assigned ids
    that belong to a person, every result is a person of the array, and there
    are at most as many as assigned ids. *)
Theorem getAssignedPersonnel_drops_unknown_ids (task : Task.t)
    (personnel : list Personnel.t) :
  map Personnel.id (TaskDetail.getAssignedPersonnel task personnel)
  = filter (fun id => if in_dec string_dec id (map Personnel.id personnel)
                      then true else false)
           (Task.assignedTo task)
  /\ (forall p, In p (TaskDetail.getAssignedPersonnel task personnel) ->
                In p personnel)
  /\ (List.length (TaskDetail.getAssignedPersonnel task personnel)
      <= List.length (Task.assignedTo task))%nat.
Proof.
  unfold TaskDetail.getAssignedPersonnel.
  induction (Task.assignedTo task) as [ | id ids IH ]; simpl.
  - repeat split; [ contradiction | lia ].
  - destruct IH as (Hids & Hin & Hlen).
    pose proof (find_by_id_some personnel id) as Hfind.
    destruct (find (fun p => Personnel.id p =? id) personnel) as [ p | ];
      destruct (in_dec string_dec id (map Personnel.id personnel))
        as [Hknown | Hunknown]; simpl.
    + destruct Hfind as [Hp Hid]. repeat split.
      * now rewrite Hid, Hids.
      * intros q [<- | Hq]; auto.
      * lia.
    + exfalso. destruct Hfind as [Hp Hid]. apply Hunknown.
      rewrite <- Hid. now apply in_map.
    + contradiction.
    + repeat split; auto.
Qed.

Lemma getAssignedPersonnel_drops_unknown_ids_witness :
  In (Personnel.mk "2" "Ana Garcia" "Tecnico" "Mantenimiento" true)
     App.initialPersonnel.
Proof.
  destruct (getAssignedPersonnel_drops_unknown_ids
              (Sample.task "a" pending ["9"; "2"]) App.initialPersonnel)
    as (_ & Hknown & _).
  apply Hknown. vm_compute. left. reflexivity.
Defined.

(** ** Durations *)

(** X14: for a duration that is not negative, the hours and minutes of
    [calculateDuration] are not negative, the minutes are below 60, and
    together they are the whole minutes of the duration. *)
Theorem duration_splits_into_hours_and_minutes (duration : Z) :
  (0 <= duration)%Z ->
  (0 <= TaskDetail.durationHours duration)%Z
  /\ (0 <= TaskDetail.durationMinutes duration < 60)%Z
  /\ (TaskDetail.durationHours duration * 60
      + TaskDetail.durationMinutes duration = duration / 60000)%Z.
Proof.
  intros Hpos. unfold TaskDetail.durationHours, TaskDetail.durationMinutes.
  change (1000 * 60 * 60)%Z with 3600000%Z. change (1000 * 60)%Z with 60000%Z.
  rewrite Z.rem_mod_nonneg by lia.
  pose proof (Z.div_mod duration 3600000 ltac:(lia)) as Hdm.
  pose proof (Z.mod_pos_bound duration 3600000 ltac:(lia)) as Hbound.
  set (h := (duration / 3600000)%Z) in *.
  set (r := (duration mod 3600000)%Z) in *.
  assert (Hh : (0 <= h)%Z) by (apply Z.div_pos; lia).
  assert (Hm : (0 <= r / 60000 < 60)%Z).
  { split; [ apply Z.div_pos; lia | apply Z.div_lt_upper_bound; lia ]. }
  repeat split; try lia.
  rewrite Hdm. replace (3600000 * h + r)%Z with (r + (h * 60) * 60000)%Z by lia.
  rewrite Z.div_add by lia. lia.
Qed.

Lemma duration_splits_into_hours_and_minutes_witness :
  (0 <= TaskDetail.durationHours 16200000)%Z
  /\ (0 <= TaskDetail.durationMinutes 16200000 < 60)%Z
  /\ (TaskDetail.durationHours 16200000 * 60
      + TaskDetail.durationMinutes 16200000 = 16200000 / 60000)%Z.
Proof.
  apply (duration_splits_into_hours_and_minutes 16200000). lia.
Defined.

(** A clock read before the activation gives negative parts. *)
Lemma duration_before_activation :
  TaskDetail.calculateDuration
    {| Task.id := "a"; Task.title := ""; Task.description := "";
       Task.status := active; Task.priority := low; Task.assignedTo := [];
       Task.createdAt := 0; Task.activatedAt := Some 1000%Z;
       Task.completedAt := None; Task.estimatedHours := 1;
       Task.category := "" |} 999
  = Some "-1h -1m (en curso)".
Proof. reflexivity. Qed.

(** ** Initials *)

Lemma splitOnSpace_no_space (name : string) :
  Forall (fun piece => ~ In " "%char (list_ascii_of_string piece))
         (TaskDetail.splitOnSpace name).
Proof.
  induction name as [ | c rest IH ]; simpl.
  - repeat constructor. simpl. tauto.
  - destruct (Ascii.eqb_spec c " ") as [-> | Hc].
    + constructor; [ simpl; tauto | exact IH ].
    + destruct (TaskDetail.splitOnSpace rest) as [ | piece pieces ].
      * repeat constructor. simpl. intuition.
      * inversion IH as [ | ? ? Hpiece Hpieces ]; subst.
        constructor; [ | assumption ]. simpl. intuition.
Qed.

Lemma list_ascii_of_string_append (s t : string) :
  list_ascii_of_string (s ++ t)%string
  = list_ascii_of_string s ++ list_ascii_of_string t.
Proof. induction s as [ | c s IH ]; simpl; [ reflexivity | now rewrite IH ]. Qed.

Lemma append_empty_right (s : string) : (s ++ "")%string = s.
Proof. induction s as [ | c s IH ]; simpl; [ reflexivity | now rewrite IH ]. Qed.

Lemma length_append (s t : string) :
  String.length (s ++ t)%string = (String.length s + String.length t)%nat.
Proof. induction s as [ | c s IH ]; simpl; [ reflexivity | now rewrite IH ]. Qed.

(** [join('')] writes the pieces one after the other. *)
Lemma concat_empty_cons (h : string) (hs : list string) :
  String.concat "" (h :: hs) = (h ++ String.concat "" hs)%string.
Proof.
  destruct hs as [ | h' hs' ]; simpl;
    [ now rewrite append_empty_right | reflexivity ].
Qed.

Lemma concat_empty_chars (heads : list string) (c : ascii) :
  In c (list_ascii_of_string (String.concat "" heads)) ->
  exists h, In h heads /\ In c (list_ascii_of_string h).
Proof.
  induction heads as [ | h hs IH ]; [ simpl; contradiction | ].
  rewrite concat_empty_cons, list_ascii_of_string_append. intros Hin.
  apply in_app_or in Hin. destruct Hin as [Hin | Hin].
  - exists h. split; [ now left | assumption ].
  - destruct (IH Hin) as [x [Hx Hc]]. exists x. split; [ now right | assumption ].
Qed.

(** X15: the initials shown in an avatar contain no space and have at most
    one character per piece of the name between spaces. *)
Theorem initials_have_no_space (name : string) :
  ~ In " "%char (list_ascii_of_string (TaskDetail.initials name))
  /\ (String.length (TaskDetail.initials name)
      <= List.length (TaskDetail.splitOnSpace name))%nat.
Proof.
  unfold TaskDetail.initials. split.
  - intros Hin. apply concat_empty_chars in Hin.
    destruct Hin as [h [Hh Hc]]. apply in_map_iff in Hh.
    destruct Hh as [piece [Hhead Hpiece]].
    pose proof (splitOnSpace_no_space name) as Hno.
    rewrite Forall_forall in Hno. specialize (Hno piece Hpiece).
    destruct piece as [ | c rest ]; subst h; simpl in Hc; [ contradiction | ].
    destruct Hc as [Hc | []]. apply Hno. simpl. now left.
  - induction (TaskDetail.splitOnSpace name) as [ | piece pieces IH ];
      [ simpl; lia | ].
    cbn [map]. rewrite concat_empty_cons, length_append.
    destruct piece; simpl in *; lia.
Qed.

(** ** The personnel page *)

Lemma toggle_twice (personId : string) (p : Personnel.t) :
  (fun q => if Personnel.id q =? personId
            then Personnel.mk (Personnel.id q) (Personnel.name q)
                   (Personnel.role q) (Personnel.department q)
                   (negb (Personnel.active q))
            else q)
    (if Personnel.id p =? personId
     then Personnel.mk (Personnel.id p) (Personnel.name p)
            (Personnel.role p) (Personnel.department p)
            (negb (Personnel.active p))
     else p) = p.
Proof.
  destruct (Personnel.id p =? personId) eqn:Hid; simpl; rewrite Hid;
    [ | reflexivity ].
  destruct p; simpl. now rewrite negb_involutive.
Qed.

(** X16: switching a person's active flag twice gives back the state;
    a switch keeps the ids of the array, and on an id no person has it
    changes nothing. *)
Theorem handleToggleActive_twice (personId : string)
    (st : PersonnelManager.State) :
  PersonnelManager.handleToggleActive personId
    (PersonnelManager.handleToggleActive personId st) = st
  /\ map Personnel.id
         (PersonnelManager.personnel
            (PersonnelManager.handleToggleActive personId st))
     = map Personnel.id (PersonnelManager.personnel st)
  /\ (~ In personId (map Personnel.id (PersonnelManager.personnel st)) ->
      PersonnelManager.handleToggleActive personId st = st).
Proof.
  destruct st as [personnel showAddForm newPerson].
  unfold PersonnelManager.handleToggleActive. simpl. split; [ | split ].
  - f_equal. rewrite map_map. rewrite <- (map_id personnel) at 2.
    apply map_ext. intros p. apply toggle_twice.
  - rewrite map_map. apply map_ext. intros p.
    destruct (Personnel.id p =? personId); reflexivity.
  - intros Hunknown. f_equal. rewrite <- (map_id personnel) at 2.
    apply map_ext_in. intros p Hin.
    destruct (Personnel.id p =? personId) eqn:Hid; [ | reflexivity ].
    apply String.eqb_eq in Hid. exfalso. apply Hunknown.
    rewrite <- Hid. now apply in_map.
Qed.

Lemma filter_partition_length {A : Type} (p : A -> bool) (l : list A) :
  (List.length (filter p l) + List.length (filter (fun x => negb (p x)) l)
   = List.length l)%nat.
Proof.
  induction l as [ | x l IH ]; [ reflexivity | ]. simpl.
  destruct (p x); simpl; lia.
Qed.

(** X17: the active and the inactive people of the personnel page add up
    to the whole array, and the dashboard counts the same active people. *)
Theorem active_and_inactive_people_add_up (personnel : list Personnel.t) :
  (PersonnelManager.activePeople personnel
   + PersonnelManager.inactivePeople personnel
   = Z.of_nat (List.length personnel))%Z
  /\ (forall tasks,
         Dashboard.activePersonnel (Dashboard.stats tasks personnel)
         = PersonnelManager.activePeople personnel).
Proof.
  unfold PersonnelManager.activePeople, PersonnelManager.inactivePeople.
  pose proof (filter_partition_length Personnel.active personnel).
  split; [ lia | reflexivity ].
Qed.

(** What [setInOrder] returns: the values not seen yet, once each. *)
Lemma setInOrder_spec (xs : list string) :
  forall seen,
    NoDup (PersonnelManager.setInOrder seen xs)
    /\ forall x, In x (PersonnelManager.setInOrder seen xs) <->
                 In x xs /\ ~ In x seen.
Proof.
  induction xs as [ | y ys IH ]; intros seen; simpl.
  - split; [ constructor | ]. intros x. tauto.
  - destruct (existsb (String.eqb y) seen) eqn:Hseen.
    + destruct (IH seen) as [Hnodup Hmem]. split; [ exact Hnodup | ].
      intros x. rewrite Hmem. apply existsb_exists in Hseen.
      destruct Hseen as [z [Hz Heq]]. apply String.eqb_eq in Heq. subst z.
      split; [ tauto | ]. intros [[<- | Hin] Hnot]; tauto.
    + assert (Hnot : ~ In y seen).
      { intros Hin. assert (existsb (String.eqb y) seen = true); [ | congruence ].
        apply existsb_exists. exists y. split; [ assumption | apply String.eqb_refl ]. }
      destruct (IH (y :: seen)) as [Hnodup Hmem]. split.
      * constructor; [ | exact Hnodup ]. rewrite Hmem. simpl. tauto.
      * intros x. simpl. rewrite Hmem. simpl.
        destruct (string_dec y x) as [<- | Hne]; tauto.
Qed.

Lemma flat_map_head {A B : Type} (f : A -> list B) (d : A) (ds : list A) :
  flat_map f (d :: ds) = f d ++ flat_map f ds.
Proof. reflexivity. Qed.

(** A person is in no group of another key. *)
Lemma groups_skip (key : Personnel.t -> string) (x : Personnel.t)
    (l : list Personnel.t) (ds : list string) :
  ~ In (key x) ds ->
  flat_map (fun d => filter (fun p => key p =? d) (x :: l)) ds
  = flat_map (fun d => filter (fun p => key p =? d) l) ds.
Proof.
  induction ds as [ | d ds IH ]; intros Hnot; [ reflexivity | ].
  rewrite !flat_map_head, IH by (intros Hin; apply Hnot; now right).
  simpl. destruct (String.eqb_spec (key x) d) as [Heq | _]; [ | reflexivity ].
  exfalso. apply Hnot. now left.
Qed.

(** Adding [x] to the group of its own key, and to no other. *)
Lemma groups_insert (key : Personnel.t -> string) (x : Personnel.t)
    (l : list Personnel.t) (ds : list string) :
  NoDup ds -> In (key x) ds ->
  Permutation
    (flat_map (fun d => filter (fun p => key p =? d) (x :: l)) ds)
    (x :: flat_map (fun d => filter (fun p => key p =? d) l) ds).
Proof.
  induction ds as [ | d ds IH ]; intros Hnodup Hin; [ contradiction | ].
  inversion Hnodup as [ | ? ? Hnotin Hrest ]; subst.
  rewrite !flat_map_head.
  destruct (String.eqb_spec (key x) d) as [Heq | Hne].
  - rewrite groups_skip by (now rewrite Heq).
    simpl. rewrite (proj2 (String.eqb_eq _ _) Heq). reflexivity.
  - destruct Hin as [Hin | Hin]; [ congruence | ].
    rewrite (IH Hrest Hin). simpl.
    rewrite (proj2 (String.eqb_neq _ _) Hne).
    apply Permutation_sym, Permutation_middle.
Qed.

Lemma groups_cover (key : Personnel.t -> string) (l : list Personnel.t)
    (ds : list string) :
  NoDup ds -> (forall p, In p l -> In (key p) ds) ->
  Permutation (flat_map (fun d => filter (fun p => key p =? d) l) ds) l.
Proof.
  intros Hnodup. induction l as [ | x l IH ]; intros Hcover.
  - induction ds as [ | d ds IHds ]; [ constructor | ].
    inversion Hnodup; subst. simpl. now apply IHds.
  - rewrite groups_insert; [ | assumption | apply Hcover; now left ].
    constructor. apply IH. intros p Hp. apply Hcover. now right.
Qed.

(** X18: [departments] lists each department of the array once, and the
    groups rendered under them hold every person exactly once. *)
Theorem departments_group_everyone_once (personnel : list Personnel.t) :
  NoDup (PersonnelManager.departments personnel)
  /\ (forall d, In d (PersonnelManager.departments personnel) <->
                exists p, In p personnel /\ Personnel.department p = d)
  /\ Permutation
       (flat_map (PersonnelManager.departmentPersonnel personnel)
                 (PersonnelManager.departments personnel))
       personnel.
Proof.
  unfold PersonnelManager.departments.
  destruct (setInOrder_spec (map Personnel.department personnel) [])
    as [Hnodup Hmem].
  assert (Hin : forall d,
             In d (PersonnelManager.setInOrder
                     [] (map Personnel.department personnel)) <->
             exists p, In p personnel /\ Personnel.department p = d).
  { intros d. rewrite Hmem, in_map_iff. simpl. split.
    - intros [[p [Hd Hp]] _]. exists p. tauto.
    - intros [p [Hp Hd]]. split; [ exists p; tauto | tauto ]. }
  split; [ exact Hnodup | split; [ exact Hin | ] ].
  apply (groups_cover Personnel.department); [ exact Hnodup | ].
  intros p Hp. apply Hin. exists p. tauto.
Qed.

(** X19: [handleAddPerson] run again right after itself changes nothing
    (the form it reads was blanked or was invalid), and one run keeps the
    people there were and adds at most one. *)
Theorem handleAddPerson_once (uuid uuid' : string)
    (st : PersonnelManager.State) :
  PersonnelManager.handleAddPerson uuid'
    (PersonnelManager.handleAddPerson uuid st)
  = PersonnelManager.handleAddPerson uuid st
  /\ exists tail,
       PersonnelManager.personnel (PersonnelManager.handleAddPerson uuid st)
       = PersonnelManager.personnel st ++ tail
       /\ (List.length tail <= 1)%nat.
Proof.
  unfold PersonnelManager.handleAddPerson at 2 3 4.
  destruct (negb (truthy (trim (NewPerson.name (PersonnelManager.newPerson st))))
            || negb (truthy (trim (NewPerson.role (PersonnelManager.newPerson st))))
            || negb (truthy (trim (NewPerson.department
                                     (PersonnelManager.newPerson st)))))
    eqn:Hguard.
  - split.
    + unfold PersonnelManager.handleAddPerson. now rewrite Hguard.
    + exists []. rewrite app_nil_r. split; [ reflexivity | simpl; lia ].
  - split; [ reflexivity | ].
    eexists. split; [ reflexivity | simpl; lia ].
Qed.

(** ** The dashboard counts *)

Lemma urgent_open_bound (tasks : list Task.t) :
  (List.length
     (filter (fun t => Priority_eqb (Task.priority t) urgent
                       && negb (Status_eqb (Task.status t) completed)) tasks)
   + List.length (filter (fun t => Status_eqb (Task.status t) completed) tasks)
   <= List.length tasks)%nat.
Proof.
  induction tasks as [ | t tasks IH ]; [ simpl; lia | ]. simpl.
  destruct (Task.status t), (Task.priority t); simpl; lia.
Qed.

(** X20: on the dashboard the pending, active and completed counts add up
    to the total, the urgent count is at most the pending and active ones
    together, and the active personnel count is at most the array length. *)
Theorem status_counts_add_up (tasks : list Task.t)
    (personnel : list Personnel.t) :
  let s := Dashboard.stats tasks personnel in
  (Dashboard.pendingTasks s + Dashboard.activeTasks s
   + Dashboard.completedTasks s = Dashboard.totalTasks s)%Z
  /\ (0 <= Dashboard.urgentTasks s
      <= Dashboard.pendingTasks s + Dashboard.activeTasks s)%Z
  /\ (0 <= Dashboard.activePersonnel s
      <= Z.of_nat (List.length personnel))%Z.
Proof.
  simpl. unfold Dashboard.countOf.
  pose proof (status_partition tasks). pose proof (urgent_open_bound tasks).
  pose proof (filter_length_le Personnel.active personnel).
  repeat split; lia.
Qed.

(** X21: for an array of tasks (fewer than 2^32 elements, as every array),
    the efficiency shown on the dashboard is the Number of an integer
    between 0 and 100: never a fraction, never NaN, never above 100. *)
Theorem efficiency_is_a_percentage (tasks : list Task.t)
    (personnel : list Personnel.t) :
  (Z.of_nat (List.length tasks) < 2 ^ 32)%Z ->
  exists k : Z,
    Dashboard.efficiency
      (snd (Dashboard.computeDashboardStats tasks personnel))
    = Number.ofZ k
    /\ (0 <= k <= 100)%Z.
Proof.
  intros Hlen.
  destruct (in_flight_counts tasks) as (Hc & Ha & Hsum).
  unfold Dashboard.computeDashboardStats, Dashboard.metrics.
  cbn [snd Dashboard.efficiency].
  unfold Dashboard.stats.
  cbn [Dashboard.activeTasks Dashboard.completedTasks].
  set (c := Dashboard.countOf
              (fun t => Status_eqb (Task.status t) completed) tasks) in *.
  set (a := Dashboard.countOf
              (fun t => Status_eqb (Task.status t) active) tasks) in *.
  destruct (0 <? a)%Z eqn:Hactive.
  - apply Z.ltb_lt in Hactive.
    destruct (efficiency_spec c a Hc Hactive ltac:(lia))
      as (k & Hk & Hrange & _).
    exists k. split; assumption.
  - exists 100%Z. split; [ reflexivity | lia ].
Qed.

Lemma efficiency_is_a_percentage_witness :
  exists k : Z,
    Dashboard.efficiency
      (snd (Dashboard.computeDashboardStats
              [Sample.task "a" active []; Sample.task "b" completed [];
               Sample.task "c" completed []] []))
    = Number.ofZ k
    /\ (0 <= k <= 100)%Z.
Proof.
  apply (efficiency_is_a_percentage
           [Sample.task "a" active []; Sample.task "b" completed [];
            Sample.task "c" completed []] []).
  reflexivity.
Defined.

(** ** The theme *)

(** X22: after [toggleTheme], loading the page again restores the same
    mode, class and stored theme, whatever the platform prefers. *)
Theorem theme_survives_a_reload (st : ThemeToggle.State)
    (prefersDark : bool) :
  let st' := ThemeToggle.toggleTheme st in
  ThemeToggle.isDarkMode (ThemeToggle.load prefersDark (ThemeToggle.stored st'))
  = ThemeToggle.isDarkMode st'
  /\ ThemeToggle.darkClass (ThemeToggle.load prefersDark (ThemeToggle.stored st'))
     = ThemeToggle.darkClass st'
  /\ ThemeToggle.stored (ThemeToggle.load prefersDark (ThemeToggle.stored st'))
     = ThemeToggle.stored st'.
Proof.
  unfold ThemeToggle.toggleTheme.
  destruct (ThemeToggle.isDarkMode st), prefersDark; simpl;
    repeat split; reflexivity.
Qed.

Lemma toggleTheme_fields (st : ThemeToggle.State) :
  ThemeToggle.isDarkMode (ThemeToggle.toggleTheme st)
  = negb (ThemeToggle.isDarkMode st)
  /\ ThemeToggle.darkClass (ThemeToggle.toggleTheme st)
     = negb (ThemeToggle.isDarkMode st)
  /\ ThemeToggle.stored (ThemeToggle.toggleTheme st)
     = Some (if negb (ThemeToggle.isDarkMode st) then "dark" else "light").
Proof.
  unfold ThemeToggle.toggleTheme.
  destruct (ThemeToggle.isDarkMode st); repeat split; reflexivity.
Qed.

(** X23: after the mount effect and any number of toggles the class 'dark'
    is on the document exactly in dark mode, the mode is the mounted one
    flipped once per toggle, and once toggled the stored theme names the
    mode. *)
Theorem theme_class_follows_the_state (prefersDark : bool)
    (storage : option string) (n : nat) :
  let st := Nat.iter n ThemeToggle.toggleTheme
                     (ThemeToggle.load prefersDark storage) in
  ThemeToggle.darkClass st = ThemeToggle.isDarkMode st
  /\ ThemeToggle.isDarkMode st
     = xorb (ThemeToggle.isDarkMode (ThemeToggle.load prefersDark storage))
            (Nat.odd n)
  /\ (n <> 0%nat ->
      ThemeToggle.stored st
      = Some (if ThemeToggle.isDarkMode st then "dark" else "light")).
Proof.
  cbn zeta. induction n as [ | n IH ].
  - simpl. repeat split; [ now rewrite xorb_false_r | congruence ].
  - rewrite !Nat.iter_succ. destruct IH as (_ & Hmode & _).
    destruct (toggleTheme_fields
                (Nat.iter n ThemeToggle.toggleTheme
                          (ThemeToggle.load prefersDark storage)))
      as (Hdark & Hclass & Hstored).
    rewrite Hdark, Hclass, Hstored, Hmode, Nat.odd_succ, <- Nat.negb_odd.
    repeat split.
    destruct (ThemeToggle.isDarkMode (ThemeToggle.load prefersDark storage)),
      (Nat.odd n); reflexivity.
Qed.

Lemma theme_class_follows_the_state_witness :
  ThemeToggle.stored
    (Nat.iter 3 ThemeToggle.toggleTheme (ThemeToggle.load true None))
  = Some "light".
Proof.
  destruct (theme_class_follows_the_state true None 3) as (_ & _ & Hstored).
  apply Hstored. discriminate.
Defined.

(** ** One switch, one person *)

Lemma toggle_unknown (personId : string) (personnel : list Personnel.t) :
  ~ In personId (map Personnel.id personnel) ->
  map (fun p => if Personnel.id p =? personId
                then Personnel.mk (Personnel.id p) (Personnel.name p)
                       (Personnel.role p) (Personnel.department p)
                       (negb (Personnel.active p))
                else p) personnel
  = personnel.
Proof.
  intros Hunknown. rewrite <- (map_id personnel) at 2.
  apply map_ext_in. intros p Hin.
  destruct (Personnel.id p =? personId) eqn:Hid; [ | reflexivity ].
  apply String.eqb_eq in Hid. exfalso. apply Hunknown.
  rewrite <- Hid. now apply in_map.
Qed.

(** X25: with distinct ids, switching a known person flips the active flag
    of that one record, leaves every other record in place, and moves the
    active count by one. *)
Theorem handleToggleActive_switches_one_person (personId : string)
    (st : PersonnelManager.State) :
  NoDup (map Personnel.id (PersonnelManager.personnel st)) ->
  In personId (map Personnel.id (PersonnelManager.personnel st)) ->
  exists before person after,
    PersonnelManager.personnel st = before ++ person :: after
    /\ Personnel.id person = personId
    /\ PersonnelManager.personnel
         (PersonnelManager.handleToggleActive personId st)
       = before
         ++ Personnel.mk (Personnel.id person) (Personnel.name person)
              (Personnel.role person) (Personnel.department person)
              (negb (Personnel.active person))
         :: after
    /\ (PersonnelManager.activePeople
          (PersonnelManager.personnel
             (PersonnelManager.handleToggleActive personId st))
        = PersonnelManager.activePeople (PersonnelManager.personnel st)
          + (if Personnel.active person then -1 else 1))%Z.
Proof.
  unfold PersonnelManager.handleToggleActive. simpl.
  generalize (PersonnelManager.personnel st). clear st.
  intros personnel Hnodup Hin.
  apply in_map_iff in Hin. destruct Hin as [person [Hid Hin]].
  apply in_split in Hin. destruct Hin as [before [after ->]].
  exists before, person, after.
  rewrite map_app in Hnodup. simpl in Hnodup.
  apply NoDup_remove_2 in Hnodup. rewrite Hid in Hnodup.
  assert (Hbefore : ~ In personId (map Personnel.id before))
    by (intros H; apply Hnodup, in_or_app; now left).
  assert (Hafter : ~ In personId (map Personnel.id after))
    by (intros H; apply Hnodup, in_or_app; now right).
  assert (Hmap : map (fun p => if Personnel.id p =? personId
                               then Personnel.mk (Personnel.id p)
                                      (Personnel.name p) (Personnel.role p)
                                      (Personnel.department p)
                                      (negb (Personnel.active p))
                               else p) (before ++ person :: after)
                 = before
                   ++ Personnel.mk (Personnel.id person) (Personnel.name person)
                        (Personnel.role person) (Personnel.department person)
                        (negb (Personnel.active person))
                   :: after).
  { rewrite map_app. simpl.
    rewrite (toggle_unknown personId before Hbefore),
      (toggle_unknown personId after Hafter),
      (proj2 (String.eqb_eq _ _) Hid).
    reflexivity. }
  repeat split; try assumption.
  rewrite Hmap. unfold PersonnelManager.activePeople.
  rewrite !filter_app, !length_app. simpl.
  destruct (Personnel.active person); simpl; lia.
Qed.

Lemma handleToggleActive_switches_one_person_witness :
  exists before person after,
    App.initialPersonnel = before ++ person :: after
    /\ Personnel.id person = "5"
    /\ PersonnelManager.personnel
         (PersonnelManager.handleToggleActive "5"
            (PersonnelManager.mkState App.initialPersonnel false
               PersonnelManager.blankPerson))
       = before
         ++ Personnel.mk (Personnel.id person) (Personnel.name person)
              (Personnel.role person) (Personnel.department person)
              (negb (Personnel.active person))
         :: after
    /\ (PersonnelManager.activePeople
          (PersonnelManager.personnel
             (PersonnelManager.handleToggleActive "5"
                (PersonnelManager.mkState App.initialPersonnel false
                   PersonnelManager.blankPerson)))
        = PersonnelManager.activePeople App.initialPersonnel
          + (if Personnel.active person then -1 else 1))%Z.
Proof.
  apply (handleToggleActive_switches_one_person "5"
           (PersonnelManager.mkState App.initialPersonnel false
              PersonnelManager.blankPerson)).
  - simpl. repeat constructor; simpl; intuition discriminate.
  - simpl. tauto.
Defined.

Lemma handleToggleActive_twice_witness :
  PersonnelManager.handleToggleActive "99"
    (PersonnelManager.mkState App.initialPersonnel false
       PersonnelManager.blankPerson)
  = PersonnelManager.mkState App.initialPersonnel false
      PersonnelManager.blankPerson.
Proof.
  destruct (handleToggleActive_twice "99"
              (PersonnelManager.mkState App.initialPersonnel false
                 PersonnelManager.blankPerson)) as (_ & _ & Hnoop).
  apply Hnoop. simpl. intuition discriminate.
Defined.
